(** * L7Proxy: the connection registry, the admission filter, the SNI peeker
      and the two front doors of [pkg/proxy], embedded as Rocq functions.

    Go strings are [string], byte slices are [list byte], [map[string]struct{}]
    is a [gset string], [sync.Map] is a [gmap string _], [uint64] and [int64]
    are [N] and [Z] with their wrap-around written out.  Code that mutates the
    process (registry, metric counters, sockets) is written in a state monad
    over [World].  [log.Printf] calls have no effect on that state and are
    left out. *)

From Stdlib Require Import ZArith NArith String Ascii List Lia.
From Stdlib Require Import Init.Byte.
From stdpp Require Import gmap strings list fin_maps pretty.

Set Warnings "-abstract-large-number".
Open Scope string_scope.

(* ================================================================== *)
(** ** Go's [strings] package, as far as the proxy uses it *)

Module GoStrings.

Local Open Scope N_scope.

(** A Go string is a sequence of bytes: [string], one [ascii] per byte.
    What follows is [unicode/utf8], [unicode.ToLower] and [strings.ToLower]
    of the Go library, with runes as [N]. *)

Definition RuneError : N := 65533.
Definition RuneSelf : N := 128.
Definition MaxRune : N := 1114111.

Definition between (lo hi b : N) : bool := ((lo <=? b) && (b <=? hi))%N.

(** The table [first] of [unicode/utf8] for a leading byte of a sequence of
    more than one byte: the length of the sequence and the range the second
    byte has to be in.  [None]: the byte leads no sequence. *)
Definition leading (s0 : N) : option (N * N * N) :=
  if between 194 223 s0 then Some (2, 128, 191)
  else if (s0 =? 224)%N then Some (3, 160, 191)
  else if between 225 236 s0 then Some (3, 128, 191)
  else if (s0 =? 237)%N then Some (3, 128, 159)
  else if between 238 239 s0 then Some (3, 128, 191)
  else if (s0 =? 240)%N then Some (4, 144, 191)
  else if between 241 243 s0 then Some (4, 128, 191)
  else if (s0 =? 244)%N then Some (4, 128, 143)
  else None.

(** The payload bits of a continuation byte. *)
Definition low6 (b : N) : N := N.land b 63.

(** [utf8.DecodeRuneInString]: the first rune of [s] and its width in
    bytes; an invalid or cut-off sequence gives [RuneError] and width 1. *)
Definition DecodeRuneInString (s : string) : N * nat :=
  match s with
  | EmptyString => (RuneError, 0%nat)
  | String c0 t0 =>
      let s0 := N_of_ascii c0 in
      if (s0 <? RuneSelf)%N then (s0, 1%nat)
      else
        match leading s0, t0 with
        | Some (sz, lo, hi), String c1 t1 =>
            let s1 := N_of_ascii c1 in
            if negb (between lo hi s1) then (RuneError, 1%nat)
            else if (sz =? 2)%N
            then (N.lor (N.shiftl (N.land s0 31) 6) (low6 s1), 2%nat)
            else
              match t1 with
              | String c2 t2 =>
                  let s2 := N_of_ascii c2 in
                  if negb (between 128 191 s2) then (RuneError, 1%nat)
                  else if (sz =? 3)%N
                  then (N.lor (N.shiftl (N.land s0 15) 12)
                          (N.lor (N.shiftl (low6 s1) 6) (low6 s2)), 3%nat)
                  else
                    match t2 with
                    | String c3 _ =>
                        let s3 := N_of_ascii c3 in
                        if negb (between 128 191 s3) then (RuneError, 1%nat)
                        else (N.lor (N.shiftl (N.land s0 7) 18)
                                (N.lor (N.shiftl (low6 s1) 12)
                                   (N.lor (N.shiftl (low6 s2) 6) (low6 s3))), 4%nat)
                    | EmptyString => (RuneError, 1%nat)
                    end
              | EmptyString => (RuneError, 1%nat)
              end
        | _, _ => (RuneError, 1%nat)
        end
  end.

(** One byte of an encoding: the marker bits [t] and six payload bits. *)
Definition cont (r : N) (shift : N) : ascii :=
  ascii_of_N (N.lor 128 (low6 (N.shiftr r shift))).

(** [utf8.AppendRune] to the empty string: the UTF-8 encoding of [r]; a
    surrogate or a value above [MaxRune] is written as [RuneError]. *)
Definition EncodeRune (r : N) : string :=
  if (r <? RuneSelf)%N then String (ascii_of_N r) EmptyString
  else if (r <=? 2047)%N
  then String (ascii_of_N (N.lor 192 (N.shiftr r 6))) (String (cont r 0) EmptyString)
  else
    let r := if (MaxRune <? r)%N || between 55296 57343 r then RuneError else r in
    if (r <=? 65535)%N
    then String (ascii_of_N (N.lor 224 (N.shiftr r 12)))
           (String (cont r 6) (String (cont r 0) EmptyString))
    else String (ascii_of_N (N.lor 240 (N.shiftr r 18)))
           (String (cont r 12) (String (cont r 6) (String (cont r 0) EmptyString))).

(** The lower-case deltas of [unicode.CaseRanges] (the simple lower-case
    mappings of the Unicode Character Database, version 15.0, which Go 1.21
    and later carry).  An entry [(lo, hi, stride, delta)] maps the runes
    [lo], [lo + stride], ... up to [hi] to themselves plus [delta]; the
    library writes the entries of stride 2 as upper/lower sequences. *)
Definition lower_ranges : list (N * N * N * Z) :=
  [
    (192, 214, 1, 32%Z); (216, 222, 1, 32%Z); (256, 302, 2, 1%Z); (304, 304, 1, (-199)%Z);
    (306, 310, 2, 1%Z); (313, 327, 2, 1%Z); (330, 374, 2, 1%Z); (376, 376, 1, (-121)%Z);
    (377, 381, 2, 1%Z); (385, 385, 1, 210%Z); (386, 388, 2, 1%Z); (390, 390, 1, 206%Z);
    (391, 391, 1, 1%Z); (393, 394, 1, 205%Z); (395, 395, 1, 1%Z); (398, 398, 1, 79%Z);
    (399, 399, 1, 202%Z); (400, 400, 1, 203%Z); (401, 401, 1, 1%Z); (403, 403, 1, 205%Z);
    (404, 404, 1, 207%Z); (406, 406, 1, 211%Z); (407, 407, 1, 209%Z); (408, 408, 1, 1%Z);
    (412, 412, 1, 211%Z); (413, 413, 1, 213%Z); (415, 415, 1, 214%Z); (416, 420, 2, 1%Z);
    (422, 422, 1, 218%Z); (423, 423, 1, 1%Z); (425, 425, 1, 218%Z); (428, 428, 1, 1%Z);
    (430, 430, 1, 218%Z); (431, 431, 1, 1%Z); (433, 434, 1, 217%Z); (435, 437, 2, 1%Z);
    (439, 439, 1, 219%Z); (440, 440, 1, 1%Z); (444, 444, 1, 1%Z); (452, 452, 1, 2%Z); (453, 453, 1, 1%Z);
    (455, 455, 1, 2%Z); (456, 456, 1, 1%Z); (458, 458, 1, 2%Z); (459, 475, 2, 1%Z); (478, 494, 2, 1%Z);
    (497, 497, 1, 2%Z); (498, 500, 2, 1%Z); (502, 502, 1, (-97)%Z); (503, 503, 1, (-56)%Z);
    (504, 542, 2, 1%Z); (544, 544, 1, (-130)%Z); (546, 562, 2, 1%Z); (570, 570, 1, 10795%Z);
    (571, 571, 1, 1%Z); (573, 573, 1, (-163)%Z); (574, 574, 1, 10792%Z); (577, 577, 1, 1%Z);
    (579, 579, 1, (-195)%Z); (580, 580, 1, 69%Z); (581, 581, 1, 71%Z); (582, 590, 2, 1%Z);
    (880, 882, 2, 1%Z); (886, 886, 1, 1%Z); (895, 895, 1, 116%Z); (902, 902, 1, 38%Z);
    (904, 906, 1, 37%Z); (908, 908, 1, 64%Z); (910, 911, 1, 63%Z); (913, 929, 1, 32%Z);
    (931, 939, 1, 32%Z); (975, 975, 1, 8%Z); (984, 1006, 2, 1%Z); (1012, 1012, 1, (-60)%Z);
    (1015, 1015, 1, 1%Z); (1017, 1017, 1, (-7)%Z); (1018, 1018, 1, 1%Z); (1021, 1023, 1, (-130)%Z);
    (1024, 1039, 1, 80%Z); (1040, 1071, 1, 32%Z); (1120, 1152, 2, 1%Z); (1162, 1214, 2, 1%Z);
    (1216, 1216, 1, 15%Z); (1217, 1229, 2, 1%Z); (1232, 1326, 2, 1%Z); (1329, 1366, 1, 48%Z);
    (4256, 4293, 1, 7264%Z); (4295, 4295, 1, 7264%Z); (4301, 4301, 1, 7264%Z);
    (5024, 5103, 1, 38864%Z); (5104, 5109, 1, 8%Z); (7312, 7354, 1, (-3008)%Z);
    (7357, 7359, 1, (-3008)%Z); (7680, 7828, 2, 1%Z); (7838, 7838, 1, (-7615)%Z); (7840, 7934, 2, 1%Z);
    (7944, 7951, 1, (-8)%Z); (7960, 7965, 1, (-8)%Z); (7976, 7983, 1, (-8)%Z); (7992, 7999, 1, (-8)%Z);
    (8008, 8013, 1, (-8)%Z); (8025, 8031, 2, (-8)%Z); (8040, 8047, 1, (-8)%Z); (8072, 8079, 1, (-8)%Z);
    (8088, 8095, 1, (-8)%Z); (8104, 8111, 1, (-8)%Z); (8120, 8121, 1, (-8)%Z);
    (8122, 8123, 1, (-74)%Z); (8124, 8124, 1, (-9)%Z); (8136, 8139, 1, (-86)%Z);
    (8140, 8140, 1, (-9)%Z); (8152, 8153, 1, (-8)%Z); (8154, 8155, 1, (-100)%Z);
    (8168, 8169, 1, (-8)%Z); (8170, 8171, 1, (-112)%Z); (8172, 8172, 1, (-7)%Z);
    (8184, 8185, 1, (-128)%Z); (8186, 8187, 1, (-126)%Z); (8188, 8188, 1, (-9)%Z);
    (8486, 8486, 1, (-7517)%Z); (8490, 8490, 1, (-8383)%Z); (8491, 8491, 1, (-8262)%Z);
    (8498, 8498, 1, 28%Z); (8544, 8559, 1, 16%Z); (8579, 8579, 1, 1%Z); (9398, 9423, 1, 26%Z);
    (11264, 11311, 1, 48%Z); (11360, 11360, 1, 1%Z); (11362, 11362, 1, (-10743)%Z);
    (11363, 11363, 1, (-3814)%Z); (11364, 11364, 1, (-10727)%Z); (11367, 11371, 2, 1%Z);
    (11373, 11373, 1, (-10780)%Z); (11374, 11374, 1, (-10749)%Z); (11375, 11375, 1, (-10783)%Z);
    (11376, 11376, 1, (-10782)%Z); (11378, 11378, 1, 1%Z); (11381, 11381, 1, 1%Z);
    (11390, 11391, 1, (-10815)%Z); (11392, 11490, 2, 1%Z); (11499, 11501, 2, 1%Z);
    (11506, 11506, 1, 1%Z); (42560, 42604, 2, 1%Z); (42624, 42650, 2, 1%Z); (42786, 42798, 2, 1%Z);
    (42802, 42862, 2, 1%Z); (42873, 42875, 2, 1%Z); (42877, 42877, 1, (-35332)%Z);
    (42878, 42886, 2, 1%Z); (42891, 42891, 1, 1%Z); (42893, 42893, 1, (-42280)%Z);
    (42896, 42898, 2, 1%Z); (42902, 42920, 2, 1%Z); (42922, 42922, 1, (-42308)%Z);
    (42923, 42923, 1, (-42319)%Z); (42924, 42924, 1, (-42315)%Z); (42925, 42925, 1, (-42305)%Z);
    (42926, 42926, 1, (-42308)%Z); (42928, 42928, 1, (-42258)%Z); (42929, 42929, 1, (-42282)%Z);
    (42930, 42930, 1, (-42261)%Z); (42931, 42931, 1, 928%Z); (42932, 42946, 2, 1%Z);
    (42948, 42948, 1, (-48)%Z); (42949, 42949, 1, (-42307)%Z); (42950, 42950, 1, (-35384)%Z);
    (42951, 42953, 2, 1%Z); (42960, 42960, 1, 1%Z); (42966, 42968, 2, 1%Z); (42997, 42997, 1, 1%Z);
    (65313, 65338, 1, 32%Z); (66560, 66599, 1, 40%Z); (66736, 66771, 1, 40%Z); (66928, 66938, 1, 39%Z);
    (66940, 66954, 1, 39%Z); (66956, 66962, 1, 39%Z); (66964, 66965, 1, 39%Z); (68736, 68786, 1, 64%Z);
    (71840, 71871, 1, 32%Z); (93760, 93791, 1, 32%Z); (125184, 125217, 1, 34%Z)
  ].

Fixpoint lower_delta (table : list (N * N * N * Z)) (r : N) : option Z :=
  match table with
  | [] => None
  | (lo, hi, stride, delta) :: rest =>
      if between lo hi r
      then if ((r - lo) mod stride =? 0)%N then Some delta else lower_delta rest r
      else lower_delta rest r
  end.

(** [unicode.ToLower]. *)
Definition unicode_ToLower (r : N) : N :=
  if (r <? RuneSelf)%N then (if between 65 90 r then r + 32 else r)%N
  else
    match lower_delta lower_ranges r with
    | Some delta => Z.to_N (Z.of_N r + delta)
    | None => r
    end.

(** [strings.Map(mapping, s)] for a [mapping] that drops no rune: the runes
    of [s], each mapped and encoded again.  A byte of [s] that starts no
    valid sequence is read as [RuneError], one byte wide, and so comes out
    as the three bytes of U+FFFD.  [skip] counts the bytes of the rune in
    hand that are still to be passed over. *)
Fixpoint map_runes (mapping : N -> N) (skip : nat) (s : string) : string :=
  match s with
  | EmptyString => EmptyString
  | String _ rest =>
      match skip with
      | S k => map_runes mapping k rest
      | O =>
          let '(r, width) := DecodeRuneInString s in
          EncodeRune (mapping r) +:+ map_runes mapping (width - 1)%nat rest
      end
  end.

Definition Map (mapping : N -> N) (s : string) : string := map_runes mapping 0 s.

(** Every byte of [s] is below [utf8.RuneSelf]. *)
Fixpoint isASCII (s : string) : bool :=
  match s with
  | EmptyString => true
  | String c rest => (N_of_ascii c <? RuneSelf)%N && isASCII rest
  end.

(** The ASCII branch of [strings.ToLower] on one byte: a byte outside [A-Z]
    is kept as it is. *)
Definition lower_ascii (c : ascii) : ascii :=
  let n := N_of_ascii c in
  if ((65 <=? n) && (n <=? 90))%N then ascii_of_N (n + 32) else c.

Fixpoint lower_bytes (s : string) : string :=
  match s with
  | EmptyString => EmptyString
  | String c rest => String (lower_ascii c) (lower_bytes rest)
  end.

(** [strings.ToLower]: a string of ASCII bytes is lower-cased byte by byte;
    any other string goes through [Map] with [unicode.ToLower], which
    lower-cases every letter of Unicode that has a lower-case form. *)
Definition ToLower (s : string) : string :=
  if isASCII s then lower_bytes s else Map unicode_ToLower s.

(** [strings.HasPrefix(s, prefix)]. *)
Definition HasPrefix (s pre : string) : bool := String.prefix pre s.

Definition CRLF : string :=
  String (ascii_of_nat 13) (String (ascii_of_nat 10) EmptyString).

End GoStrings.
Export GoStrings.

(* ================================================================== *)
(** ** What [strings.ToLower] is made of, for the proofs about it *)

Module Runes.

Local Open Scope N_scope.

(** What [EncodeRune] writes for [r]: [r] itself when it is a Unicode
    scalar value, [RuneError] otherwise. *)
Definition sane (r : N) : N :=
  if (MaxRune <? r) || between 55296 57343 r then RuneError else r.

(** [p] holds of [r], [r + stride], ..., [k] numbers in all. *)
Fixpoint all_from (p : N -> bool) (r stride : N) (k : nat) : bool :=
  match k with
  | O => true
  | S k' => if p r then all_from p (r + stride) stride k' else false
  end.

(** The encoding of a scalar value decodes to it, over its whole width; and
    only the runes below [RuneSelf] are written with a byte below it. *)
Definition rune_round_trip (r : N) : bool :=
  let e := EncodeRune r in
  (if r <? RuneSelf then true else negb (isASCII e))
  && (if sane r =? r
      then match DecodeRuneInString e with
           | (r', width) =>
               (r' =? r) && Nat.eqb width (String.length e) && Nat.leb 1 width
           end
      else true).

(** [x] is written as it is, is its own lower-case form, and is no letter
    of [A-Z]. *)
Definition settled (x : N) : bool :=
  (unicode_ToLower x =? x) && (sane x =? x) && negb (between 65 90 x).

(** Every rune an entry of the table maps is mapped to a settled one. *)
Definition entry_settles (e : N * N * N * Z) : bool :=
  let '(lo, hi, stride, delta) := e in
  (0 <? stride) && (128 <=? lo)
  && all_from (fun r => settled (sane (Z.to_N (Z.of_N r + delta)))) lo stride
       (N.to_nat ((hi - lo) / stride + 1)).

(** The encodings of [rs], one after the other. *)
Fixpoint encode_all (rs : list N) : string :=
  match rs with
  | [] => EmptyString
  | r :: rest => EncodeRune r +:+ encode_all rest
  end.

End Runes.
Export Runes.

(* ================================================================== *)
(** ** filter.go *)

Module Filter.

(** [time.Time] is a clock reading; the zero [Time] is [0]. *)
Record RequestFilter := {
  allowedHosts : gset string;
  allowedSNIs : gset string;
  lastReload : N
}.

Definition NewRequestFilter : RequestFilter :=
  {| allowedHosts := {[ "example.com"; "www.google.com" ]};
     allowedSNIs := {[ "example.com"; "www.google.com" ]};
     lastReload := 0 |}.

(** The [path] argument is accepted and not looked at, as in the source. *)
Definition AllowHTTP (f : RequestFilter) (host path : string) : bool :=
  let host := ToLower host in
  if decide (host ∈ allowedHosts f) then true else false.

Definition AllowSNI (f : RequestFilter) (sni : string) : bool :=
  let sni := ToLower sni in
  if decide (sni ∈ allowedSNIs f) then true else false.

(** [for _, h := range hosts { set[strings.ToLower(h)] = struct{}{} }] *)
Definition load_names (names : list string) : gset string :=
  fold_left (fun set h => {[ ToLower h ]} ∪ set) names ∅.

(** [Reload] always returns a nil error; the new filter is its result.
    [now] is the reading of [time.Now()]. *)
Definition Reload (f : RequestFilter) (hosts snis : list string) (now : N)
  : RequestFilter :=
  {| allowedHosts := load_names hosts;
     allowedSNIs := load_names snis;
     lastReload := now |}.

(** The filter states the program can be in: the constructor's, and what
    any number of [Reload] calls make of it. *)
Inductive reachable : RequestFilter -> Prop :=
| reach_new : reachable NewRequestFilter
| reach_reload f hosts snis now :
    reachable f -> reachable (Reload f hosts snis now).

End Filter.
Export Filter.

(* ================================================================== *)
(** ** A state monad for the code that mutates the process *)

Definition State (S A : Type) : Type := S -> A * S.

Definition ret {S A} (a : A) : State S A := fun s => (a, s).

Definition bind {S A B} (c : State S A) (k : A -> State S B) : State S B :=
  fun s => let (a, s') := c s in k a s'.

Definition get {S} : State S S := fun s => (s, s).
Definition modify {S} (f : S -> S) : State S unit := fun s => (tt, f s).
Definition exec {S A} (c : State S A) (s : S) : S := snd (c s).
Definition eval {S A} (c : State S A) (s : S) : A := fst (c s).

Declare Scope monad_scope.
Delimit Scope monad_scope with monad.
Notation "'let*' x ':=' c 'in' k" := (bind c (fun x => k))
  (at level 10, x name, c at level 100, k at level 200) : monad_scope.
Notation "'let*' ' pat ':=' c 'in' k" :=
  (bind c (fun x => match x with pat => k end))
  (at level 10, pat pattern, c at level 100, k at level 200) : monad_scope.
Notation "c ;; k" := (bind c (fun _ => k))
  (at level 100, k at level 200, right associativity) : monad_scope.

(** [for _, x := range l { body x }] *)
Fixpoint forEach {S A} (l : list A) (body : A -> State S unit) : State S unit :=
  match l with
  | [] => ret tt
  | x :: rest => bind (body x) (fun _ => forEach rest body)
  end.

(** [defer cleanup] at the top of a body: [cleanup] runs when the body is left. *)
Definition defer {S A} (cleanup : State S unit) (body : State S A) : State S A :=
  bind body (fun a => bind cleanup (fun _ => ret a)).

(* ================================================================== *)
(** ** Sockets, [bufio.Reader], [net.Conn] and [io.Copy] *)

Module Net.

Inductive error :=
| EOF                      (* io.EOF *)
| ErrClosed                (* use of closed network connection *)
| ErrBufferFull            (* bufio.ErrBufferFull *)
| ErrDial                  (* what net.Dial returns for an unreachable address *)
| ErrNew (msg : string).   (* errors.New(msg) *)

(** One TCP socket of the proxy.  [inbound] is what the peer sends, as the
    segments in which it arrives; when they are used up the peer has sent FIN.
    [outbound] is everything the proxy has written to the peer. *)
Record Socket := {
  remote : string;
  inbound : list (list byte);
  outbound : list byte;
  closed : bool
}.

(** [bufio.Reader]: [buffered] is [buf[r:w]], [rd] the socket it reads from
    (the proxy only ever wraps an accepted socket), [rerr] is [b.err]. *)
Record Reader := {
  rd : N;
  buffered : list byte;
  rerr : option error
}.

(** [origins] tells what a dial finds: an address that is absent refuses the
    connection, one that is present answers with the given segments. *)
Record Network := {
  socks : gmap N Socket;
  readers : gmap N Reader;
  nextFd : N;
  nextReader : N;
  origins : gmap string (list (list byte));
  dialed : list string
}.

Definition set_socks (f : gmap N Socket -> gmap N Socket) (n : Network) : Network :=
  {| socks := f (socks n); readers := readers n; nextFd := nextFd n;
     nextReader := nextReader n; origins := origins n; dialed := dialed n |}.

Definition set_readers (f : gmap N Reader -> gmap N Reader) (n : Network) : Network :=
  {| socks := socks n; readers := f (readers n); nextFd := nextFd n;
     nextReader := nextReader n; origins := origins n; dialed := dialed n |}.

(** The next segment data of a socket, at most [cap] bytes of it. *)
Fixpoint recv (cap : nat) (segs : list (list byte)) : list byte * list (list byte) :=
  match segs with
  | [] => ([], [])
  | seg :: rest =>
      match seg with
      | [] => recv cap rest
      | _ :: _ => (take cap seg, drop cap seg :: rest)
      end
  end.

(** [Read(p)] of a TCP connection, with [len(p) = cap]: some bytes, or an
    error. *)
Definition sock_Read (fd : N) (cap : nat) : State Network (list byte * option error) :=
  fun n =>
    match socks n !! fd with
    | None => (([], Some ErrClosed), n)
    | Some s =>
        if closed s then (([], Some ErrClosed), n)
        else if Nat.eqb cap 0 then (([], None), n)
        else
          let (data, segs) := recv cap (inbound s) in
          let s' := {| remote := remote s; inbound := segs;
                       outbound := outbound s; closed := false |} in
          match data with
          | [] => (([], Some EOF), set_socks <[fd := s']> n)
          | _ :: _ => ((data, None), set_socks <[fd := s']> n)
          end
    end.

Definition sock_Write (fd : N) (data : list byte) : State Network (option error) :=
  fun n =>
    match socks n !! fd with
    | None => (Some ErrClosed, n)
    | Some s =>
        if closed s then (Some ErrClosed, n)
        else
          let s' := {| remote := remote s; inbound := inbound s;
                       outbound := outbound s ++ data; closed := false |} in
          (None, set_socks <[fd := s']> n)
    end.

Definition sock_Close (fd : N) : State Network (option error) :=
  fun n =>
    match socks n !! fd with
    | None => (Some ErrClosed, n)
    | Some s =>
        if closed s then (Some ErrClosed, n)
        else
          let s' := {| remote := remote s; inbound := inbound s;
                       outbound := outbound s; closed := true |} in
          (None, set_socks <[fd := s']> n)
    end.

Definition sock_RemoteAddr (fd : N) : State Network string :=
  fun n => (match socks n !! fd with Some s => remote s | None => "" end, n).

(** [net.Dial("tcp", addr)] and [net.DialTimeout("tcp", addr, _)]. *)
Definition Dial (addr : string) : State Network (N + error) :=
  fun n =>
    let n1 := {| socks := socks n; readers := readers n; nextFd := nextFd n;
                 nextReader := nextReader n; origins := origins n;
                 dialed := addr :: dialed n |} in
    match origins n !! addr with
    | None => (inr ErrDial, n1)
    | Some script =>
        let fd := nextFd n in
        let s := {| remote := addr; inbound := script; outbound := []; closed := false |} in
        (inl fd, {| socks := <[fd := s]> (socks n1); readers := readers n1;
                    nextFd := (fd + 1)%N; nextReader := nextReader n1;
                    origins := origins n1; dialed := dialed n1 |})
    end.

End Net.
Export Net.

(* ================================================================== *)
(** ** [bufio.Reader]

    The proxy's source calls [bufio.NewReader], [Peek] and [Read]; their
    bodies below follow Go's standard library. *)

Module Bufio.

Local Open Scope monad_scope.

Definition defaultBufSize : nat := 4096.

(** [bufio.NewReader(conn)] on the accepted socket [fd]: a fresh reader with
    an empty buffer; the result is its address. *)
Definition NewReader (fd : N) : State Network N :=
  fun n =>
    let r := nextReader n in
    (r, {| socks := socks n;
           readers := <[r := {| rd := fd; buffered := []; rerr := None |}]> (readers n);
           nextFd := nextFd n; nextReader := (r + 1)%N;
           origins := origins n; dialed := dialed n |}).

(** The reader at address [r]; an address not in use reads as a reader in
    error. *)
Definition the_reader (r : N) : State Network Reader :=
  fun n => (match readers n !! r with
            | Some b => b
            | None => {| rd := 0; buffered := []; rerr := Some ErrClosed |}
            end, n).

Definition put_reader (r : N) (b : Reader) : State Network unit :=
  modify (set_readers <[r := b]>).

(** [b.readErr()]: hand out the pending error and forget it. *)
Definition readErr (r : N) : State Network (option error) :=
  let* b := the_reader r in
  put_reader r {| rd := rd b; buffered := buffered b; rerr := None |} ;;
  ret (rerr b).

(** [b.fill()]: one read of the socket into the free part of the buffer.  A
    socket read gives at least one byte or an error, so the retry loop of the
    library runs once. *)
Definition fill (r : N) : State Network unit :=
  let* b := the_reader r in
  let* '(data, err) := sock_Read (rd b) (defaultBufSize - length (buffered b)) in
  put_reader r {| rd := rd b; buffered := buffered b ++ data;
                  rerr := match err with Some e => Some e | None => rerr b end |}.

(** The condition of the loop of [Peek]:
    [b.w-b.r < n && b.w-b.r < len(b.buf) && b.err == nil]. *)
Definition peek_wants_more (n : nat) (b : Reader) : bool :=
  Nat.ltb (length (buffered b)) n
  && Nat.ltb (length (buffered b)) defaultBufSize
  && match rerr b with Some _ => false | None => true end.

(** The loop of [Peek]: [for <condition> { b.fill() }]; [rounds] bounds the
    iterations. *)
Fixpoint peek_fill (rounds n : nat) (r : N) : State Network unit :=
  match rounds with
  | O => ret tt
  | S rounds' =>
      let* b := the_reader r in
      if peek_wants_more n b then fill r ;; peek_fill rounds' n r
      else ret tt
  end.

(** [b.Peek(n)]: the next [n] bytes without advancing the reader.  Every
    round of the loop adds a byte or records an error, so [n] rounds are
    enough (lemma [peek_fill_settles]). *)
Definition Peek (r : N) (n : nat) : State Network (list byte * option error) :=
  peek_fill n n r ;;
  let* b := the_reader r in
  if Nat.ltb (length (buffered b)) n then
    let* err := readErr r in
    ret (buffered b, Some (match err with Some e => e | None => ErrBufferFull end))
  else ret (take n (buffered b), None).

(** [b.Read(p)] with [len(p) = cap]. *)
Definition Read (r : N) (cap : nat) : State Network (list byte * option error) :=
  let* b := the_reader r in
  match buffered b with
  | [] =>
      if Nat.eqb cap 0 then
        let* err := readErr r in ret ([], err)
      else
      match rerr b with
      | Some _ => let* err := readErr r in ret ([], err)
      | None =>
          if Nat.leb defaultBufSize cap then
            (* large read, empty buffer: read directly into p *)
            let* '(data, err) := sock_Read (rd b) cap in
            ret (data, err)
          else
            (* one read into the buffer, then copy *)
            let* '(data, err) := sock_Read (rd b) defaultBufSize in
            match data with
            | [] => ret ([], err)
            | _ :: _ =>
                put_reader r {| rd := rd b; buffered := drop cap data; rerr := err |} ;;
                ret (take cap data, None)
            end
      end
  | _ :: _ =>
      put_reader r {| rd := rd b; buffered := drop cap (buffered b); rerr := rerr b |} ;;
      ret (take cap (buffered b), None)
  end.

End Bufio.

(* ================================================================== *)
(** ** [net.Conn] values and [io.Copy] *)

Module Conn.

Local Open Scope monad_scope.

(** The two implementations of [net.Conn] the proxy handles: a socket, and
    the wrapper of https.go that embeds a socket and reads through a
    [bufio.Reader]. *)
Inductive Conn :=
| TCPConn (fd : N)
| connWithBufferedReader (conn : N) (reader : N).

Definition conn_fd (c : Conn) : N :=
  match c with
  | TCPConn fd => fd
  | connWithBufferedReader fd _ => fd
  end.

(** [func (c *connWithBufferedReader) Read(b []byte)] is [c.reader.Read(b)];
    every other method is the embedded connection's. *)
Definition Read (c : Conn) (cap : nat) : State Network (list byte * option error) :=
  match c with
  | TCPConn fd => sock_Read fd cap
  | connWithBufferedReader _ reader => Bufio.Read reader cap
  end.

Definition Write (c : Conn) (data : list byte) : State Network (option error) :=
  sock_Write (conn_fd c) data.

Definition Close (c : Conn) : State Network unit :=
  sock_Close (conn_fd c) ;; ret tt.

Definition RemoteAddr (c : Conn) : State Network string :=
  sock_RemoteAddr (conn_fd c).

(** What a source of [io.Copy] can be: a connection, or the [bufio] reader
    that [Hijack] hands out. *)
Inductive Source :=
| FromConn (c : Conn)
| FromReader (r : N).

Definition source_Read (src : Source) (cap : nat) : State Network (list byte * option error) :=
  match src with
  | FromConn c => Read c cap
  | FromReader r => Bufio.Read r cap
  end.

Definition copyBufSize : nat := 32768.

(** The loop of [io.Copy(dst, src)].  [None]: the rounds ran out; otherwise
    the error [io.Copy] returns ([EOF] of the source is no error). *)
Fixpoint copy_loop (rounds : nat) (dst : Conn) (src : Source)
  : State Network (option (option error)) :=
  match rounds with
  | O => ret None
  | S rounds' =>
      let* '(data, er) := source_Read src copyBufSize in
      let* ew := match data with
                 | [] => ret None
                 | _ :: _ => Write dst data
                 end in
      match ew with
      | Some e => ret (Some (Some e))
      | None =>
          match er with
          | Some EOF => ret (Some None)
          | Some e => ret (Some (Some e))
          | None => copy_loop rounds' dst src
          end
      end
  end.

(** Reading a source to its end, as [io.Copy] does, keeping the bytes
    instead of writing them: the bytes read and the error that ended the
    loop. [None]: the rounds ran out. *)
Fixpoint read_loop (rounds cap : nat) (src : Source)
  : State Network (option (list byte * error)) :=
  match rounds with
  | O => ret None
  | S rounds' =>
      let* '(data, er) := source_Read src cap in
      match er with
      | Some e => ret (Some (data, e))
      | None =>
          let* more := read_loop rounds' cap src in
          ret (match more with
               | Some (rest, e) => Some ((data ++ rest)%list, e)
               | None => None
               end)
      end
  end.

(** How many bytes a source still has to deliver, buffered or on the way. *)
Definition pending_fd (fd : N) (n : Network) : nat :=
  match socks n !! fd with
  | Some s => length (concat (inbound s))
  | None => 0
  end.

Definition pending_reader (r : N) (n : Network) : nat :=
  match readers n !! r with
  | Some b => length (buffered b) + pending_fd (rd b) n
  | None => 0
  end.

Definition pending (src : Source) (n : Network) : nat :=
  match src with
  | FromConn (TCPConn fd) => pending_fd fd n
  | FromConn (connWithBufferedReader _ r) => pending_reader r n
  | FromReader r => pending_reader r n
  end.

(** [io.Copy]: every round reads a byte or ends the loop, so two rounds
    more than the pending bytes always suffice (lemma [copy_loop_total]). *)
Definition Copy (dst : Conn) (src : Source) : State Network (option (option error)) :=
  fun n => copy_loop (2 + pending src n) dst src n.

Definition ReadAll (cap : nat) (src : Source) : State Network (option (list byte * error)) :=
  fun n => read_loop (2 + pending src n) cap src n.

End Conn.
Export Conn(Conn, TCPConn, connWithBufferedReader, conn_fd, Source, FromConn, FromReader).

(* ================================================================== *)
(** ** connmanager.go *)

Module ConnManager.

Local Open Scope monad_scope.
Local Open Scope Z_scope.

(** [atomic.AddInt64] and [atomic.AddUint64] wrap around. *)
Definition wrap_int64 (z : Z) : Z := (z + 2 ^ 63) mod 2 ^ 64 - 2 ^ 63.
Definition wrap_uint64 (n : N) : N := (n mod 2 ^ 64)%N.

Record ConnMeta := {
  ID : string;
  ClientAddr : string;
  ServerAddr : string;
  Hostname : string;
  SNI : string;
  Protocol : string;
  HAProxyAddr : string;
  CreatedAt : N
}.

Record ProxyConnection := {
  Client : Conn;
  Server : Conn;
  Meta : ConnMeta
}.

Record ConnManager := {
  conns : gmap string ProxyConnection;
  idSeq : N
}.

Definition NewConnManager : ConnManager := {| conns := ∅; idSeq := 0 |}.

(** The package-level [metrics] struct. *)
Record Metrics := {
  ClientProxyConns : Z;
  ProxyServerConns : Z;
  ProxyHAProxyConns : Z;
  HTTPConnCount : Z;
  HTTPSConnCount : Z
}.

Definition zero_metrics : Metrics :=
  {| ClientProxyConns := 0; ProxyServerConns := 0; ProxyHAProxyConns := 0;
     HTTPConnCount := 0; HTTPSConnCount := 0 |}.

(** What [http.ResponseWriter] the HTTP server hands to a handler: the
    client socket behind it, whether it implements [http.Hijacker], the
    error [Hijack] will return if any, the input the server has read beyond
    the request, whether the connection has been hijacked, and the replies
    ([http.Error] status and text) written through it so far. *)
Record ResponseWriter := {
  w_conn : N;
  w_hijacker : bool;
  w_hijack_err : option error;
  w_readahead : list byte;
  w_hijacked : bool;
  w_replies : list (Z * string)
}.

(** The state of the process: the one connection manager [main] creates,
    the global metrics, the sockets and the response writers. *)
Record World := {
  cm : ConnManager;
  metrics : Metrics;
  net : Network;
  writers : gmap N ResponseWriter
}.

Definition M := State World.

Definition set_cm (f : ConnManager -> ConnManager) (w : World) : World :=
  {| cm := f (cm w); metrics := metrics w; net := net w; writers := writers w |}.
Definition set_metrics (f : Metrics -> Metrics) (w : World) : World :=
  {| cm := cm w; metrics := f (metrics w); net := net w; writers := writers w |}.
Definition set_writers (f : gmap N ResponseWriter -> gmap N ResponseWriter) (w : World) : World :=
  {| cm := cm w; metrics := metrics w; net := net w; writers := f (writers w) |}.

(** Run a network operation in the process. *)
Definition on_net {A} (c : State Network A) : M A :=
  fun w => let (a, n') := c (net w) in
           (a, {| cm := cm w; metrics := metrics w; net := n'; writers := writers w |}).

Definition add_ClientProxyConns (d : Z) (m : Metrics) : Metrics :=
  {| ClientProxyConns := wrap_int64 (ClientProxyConns m + d);
     ProxyServerConns := ProxyServerConns m; ProxyHAProxyConns := ProxyHAProxyConns m;
     HTTPConnCount := HTTPConnCount m; HTTPSConnCount := HTTPSConnCount m |}.
Definition add_ProxyServerConns (d : Z) (m : Metrics) : Metrics :=
  {| ClientProxyConns := ClientProxyConns m;
     ProxyServerConns := wrap_int64 (ProxyServerConns m + d);
     ProxyHAProxyConns := ProxyHAProxyConns m;
     HTTPConnCount := HTTPConnCount m; HTTPSConnCount := HTTPSConnCount m |}.
Definition add_ProxyHAProxyConns (d : Z) (m : Metrics) : Metrics :=
  {| ClientProxyConns := ClientProxyConns m; ProxyServerConns := ProxyServerConns m;
     ProxyHAProxyConns := wrap_int64 (ProxyHAProxyConns m + d);
     HTTPConnCount := HTTPConnCount m; HTTPSConnCount := HTTPSConnCount m |}.
Definition add_HTTPConnCount (d : Z) (m : Metrics) : Metrics :=
  {| ClientProxyConns := ClientProxyConns m; ProxyServerConns := ProxyServerConns m;
     ProxyHAProxyConns := ProxyHAProxyConns m;
     HTTPConnCount := wrap_int64 (HTTPConnCount m + d);
     HTTPSConnCount := HTTPSConnCount m |}.
Definition add_HTTPSConnCount (d : Z) (m : Metrics) : Metrics :=
  {| ClientProxyConns := ClientProxyConns m; ProxyServerConns := ProxyServerConns m;
     ProxyHAProxyConns := ProxyHAProxyConns m; HTTPConnCount := HTTPConnCount m;
     HTTPSConnCount := wrap_int64 (HTTPSConnCount m + d) |}.

(** [atomic.AddInt64(&metrics.F, d)], given the adder of field [F]. *)
Definition atomic_AddInt64 (field : Z -> Metrics -> Metrics) (d : Z) : M unit :=
  modify (set_metrics (field d)).

Definition NextID : M string :=
  let* w := get in
  let id := wrap_uint64 (idSeq (cm w) + 1) in
  modify (set_cm (fun m => {| conns := conns m; idSeq := id |})) ;;
  ret ("conn-" +:+ pretty id).

Definition conns_Store (key : string) (pc : ProxyConnection) : M unit :=
  modify (set_cm (fun m => {| conns := <[key := pc]> (conns m); idSeq := idSeq m |})).

Definition conns_Delete (key : string) : M unit :=
  modify (set_cm (fun m => {| conns := delete key (conns m); idSeq := idSeq m |})).

Definition conns_Load (key : string) : M (option ProxyConnection) :=
  let* w := get in ret (conns (cm w) !! key).

Definition with_ID (meta : ConnMeta) (id : string) : ConnMeta :=
  {| ID := id; ClientAddr := ClientAddr meta; ServerAddr := ServerAddr meta;
     Hostname := Hostname meta; SNI := SNI meta; Protocol := Protocol meta;
     HAProxyAddr := HAProxyAddr meta; CreatedAt := CreatedAt meta |}.

Definition Add (client server : Conn) (meta : ConnMeta) : M string :=
  let* id := NextID in
  let meta := with_ID meta id in
  conns_Store (ID meta) {| Client := client; Server := server; Meta := meta |} ;;
  atomic_AddInt64 add_ClientProxyConns 1 ;;
  atomic_AddInt64 add_ProxyServerConns 1 ;;
  (if HasPrefix (Protocol meta) "https"
   then atomic_AddInt64 add_HTTPSConnCount 1
   else atomic_AddInt64 add_HTTPConnCount 1) ;;
  (if decide (HAProxyAddr meta = "") then ret tt
   else atomic_AddInt64 add_ProxyHAProxyConns 1) ;;
  ret (ID meta).

Definition Remove (id : string) : M unit :=
  let* value := conns_Load id in
  match value with
  | None => ret tt
  | Some pc =>
      conns_Delete id ;;
      atomic_AddInt64 add_ClientProxyConns (-1) ;;
      atomic_AddInt64 add_ProxyServerConns (-1) ;;
      (if HasPrefix (Protocol (Meta pc)) "https"
       then atomic_AddInt64 add_HTTPSConnCount (-1)
       else atomic_AddInt64 add_HTTPConnCount (-1)) ;;
      (if decide (HAProxyAddr (Meta pc) = "") then ret tt
       else atomic_AddInt64 add_ProxyHAProxyConns (-1))
  end.

Definition close_preamble : list byte :=
  list_byte_of_string
    ("HTTP/1.1 200 OK" +:+ CRLF +:+ "Connection: close" +:+ CRLF +:+ CRLF).

(** The write deadline is set and reset around the write; a write error is
    logged and dropped.  A [Conn] of the model is never nil. *)
Definition sendHTTPConnectionClose (conn : Conn) : M unit :=
  on_net (Conn.Write conn close_preamble) ;; ret tt.

(** [m.conns.Range(f)] visits every entry once; the order is that of
    [map_to_list].  [f] deletes no key but the one it is visiting. *)
Definition CloseByFilter (filter : ConnMeta -> bool) : M unit :=
  let* w := get in
  forEach (map_to_list (conns (cm w))) (fun '(key, pc) =>
    if filter (Meta pc) then
      sendHTTPConnectionClose (Client pc) ;;
      sendHTTPConnectionClose (Server pc) ;;
      on_net (Conn.Close (Client pc)) ;;
      on_net (Conn.Close (Server pc)) ;;
      conns_Delete key
    else ret tt).

Definition Stats : M (list ConnMeta) :=
  let* w := get in
  ret ((fun kv => Meta (snd kv)) <$> map_to_list (conns (cm w))).

End ConnManager.
Export ConnManager.

(* ================================================================== *)
(** ** The byte pump of events.go: [proxyCopy] and [closeConnPair] *)

Module Pump.

Local Open Scope monad_scope.

(** [proxyCopy(wg, dst, src)]: [io.Copy], the error logged.  What the two
    peers send is fixed by their [inbound] segments, so the two directions
    of a pump do not depend on each other and are run one after the other,
    in the order the source starts them. *)
Definition proxyCopy (dst : Conn) (src : Source) : M unit :=
  on_net (Conn.Copy dst src) ;; ret tt.

Definition closeConnPair (id : string) : M unit :=
  let* value := conns_Load id in
  match value with
  | None => ret tt
  | Some pc =>
      on_net (Conn.Close (Client pc)) ;;
      on_net (Conn.Close (Server pc)) ;;
      Remove id
  end.

End Pump.
Export Pump.

(* ================================================================== *)
(** ** https.go *)

Module HTTPS.

Local Open Scope monad_scope.

(** The source's parser: a placeholder that looks at no byte of [data]. *)
Definition extractSNIFromTLSClientHello (data : list byte) : string * option error :=
  ("example.com", None).

(** [clientConn] is the socket [ln.Accept()] returned.  The result is the
    SNI, the wrapped connection ([None] is Go's nil) and the error. *)
Definition peekClientHelloSNI (conn : N) : State Network (string * option Conn * option error) :=
  let* reader := Bufio.NewReader conn in
  let* '(data, err) := Bufio.Peek reader 1024 in
  match err with
  | Some e => ret ("", None, Some e)
  | None =>
      let '(sni, err) := extractSNIFromTLSClientHello data in
      match err with
      | Some _ => ret ("", None, Some (ErrNew "SNI not found"))
      | None =>
          if decide (sni = "") then ret ("", None, Some (ErrNew "SNI not found"))
          else ret (sni, Some (connWithBufferedReader conn reader), None)
      end
  end.

(** The wrapped connection is dropped here. *)
Definition parseClientHelloSNI (conn : N) : State Network (bool * string) :=
  let* '(sni, _, err) := peekClientHelloSNI conn in
  ret (match err with
       | None => if decide (sni = "") then false else true
       | Some _ => false
       end, sni).

Definition handleTLSWithTermination (clientConn : N) (filter : RequestFilter)
    (haproxyAddress : string) (now : N) : M unit :=
  defer (on_net (Conn.Close (TCPConn clientConn))) (
    let* '(valid, sni) := on_net (parseClientHelloSNI clientConn) in
    if negb valid || (if decide (sni = "") then true else false) then ret tt
    else if negb (AllowSNI filter sni) then ret tt
    else
      let* dial := on_net (Dial haproxyAddress) in
      match dial with
      | inr _ => ret tt
      | inl fd =>
          let haproxyConn := TCPConn fd in
          defer (on_net (Conn.Close haproxyConn)) (
            let* clientAddr := on_net (Conn.RemoteAddr (TCPConn clientConn)) in
            let* serverAddr := on_net (Conn.RemoteAddr haproxyConn) in
            let meta := {| ID := ""; ClientAddr := clientAddr; ServerAddr := serverAddr;
                           Hostname := ""; SNI := sni;
                           Protocol := "https_tls_termination";
                           HAProxyAddr := haproxyAddress; CreatedAt := now |} in
            let* id := Add (TCPConn clientConn) haproxyConn meta in
            proxyCopy haproxyConn (FromConn (TCPConn clientConn)) ;;
            proxyCopy (TCPConn clientConn) (FromConn haproxyConn) ;;
            Remove id)
      end).

Definition handleTLSPassthrough (clientConn : N) (filter : RequestFilter) (now : N) : M unit :=
  defer (on_net (Conn.Close (TCPConn clientConn))) (
    let* '(sni, wrappedConn, err) := on_net (peekClientHelloSNI clientConn) in
    match err, wrappedConn with
    | None, Some wrappedConn =>
        if decide (sni = "") then ret tt
        else if negb (AllowSNI filter sni) then ret tt
        else
          let clientConn := wrappedConn in
          let* dial := on_net (Dial (sni +:+ ":443")) in
          match dial with
          | inr _ => ret tt
          | inl fd =>
              let destConn := TCPConn fd in
              defer (on_net (Conn.Close destConn)) (
                let* clientAddr := on_net (Conn.RemoteAddr clientConn) in
                let* serverAddr := on_net (Conn.RemoteAddr destConn) in
                let meta := {| ID := ""; ClientAddr := clientAddr; ServerAddr := serverAddr;
                               Hostname := ""; SNI := sni;
                               Protocol := "https_tls_passthrough";
                               HAProxyAddr := ""; CreatedAt := now |} in
                let* id := Add clientConn destConn meta in
                proxyCopy destConn (FromConn clientConn) ;;
                proxyCopy clientConn (FromConn destConn) ;;
                Remove id)
          end
    | _, _ => ret tt
    end).

(** The body of the accept loop of [StartHTTPSServer] for one connection. *)
Definition serveTLS (tlsTermination : bool) (clientConn : N) (filter : RequestFilter)
    (haproxyAddress : string) (now : N) : M unit :=
  if tlsTermination then handleTLSWithTermination clientConn filter haproxyAddress now
  else handleTLSPassthrough clientConn filter now.

End HTTPS.
Export HTTPS.

(* ================================================================== *)
(** ** events.go: the HTTP front door

    [http.Error], the [http.Hijacker] assertion and [Hijack] belong to Go's
    [net/http]; they are modelled as far as the handler depends on them. *)

Module HTTP.

Local Open Scope monad_scope.

Definition StatusForbidden : Z := 403.
Definition StatusInternalServerError : Z := 500.
Definition StatusBadGateway : Z := 502.

(** [*http.Request]: [r.Host], [r.URL.Path] and the method [r.Write].  The
    serialiser is net/http's and depends on the whole parsed request
    (method, URL, headers, body); the model takes it with the request, as
    what it does on the network when it is given the connection to write
    to and the buffered reader of the client connection, from which
    [r.Body] draws and which [Hijack] hands out as [clientBuf]. *)
Record Request := {
  Host : string;
  URL_Path : string;
  Write : Conn -> N -> State Network (option error)
}.

Definition error_text (e : error) : string :=
  match e with
  | EOF => "EOF"
  | ErrClosed => "use of closed network connection"
  | ErrBufferFull => "bufio: buffer full"
  | ErrDial => "dial tcp: connection refused"
  | ErrNew msg => msg
  end.

Definition ErrHijacked : error := ErrNew "http: connection has been hijacked".

(** [http.Error(w, text, code)]: the reply reaches the client through the
    server's response writer.  Once the connection has been hijacked the
    server's writer refuses: [WriteHeader] only logs and [Write] returns
    [http.ErrHijacked], so nothing is sent. *)
Definition http_Error (w : N) (text : string) (code : Z) : M unit :=
  modify (set_writers (alter (fun rw =>
    if w_hijacked rw then rw
    else {| w_conn := w_conn rw; w_hijacker := w_hijacker rw;
            w_hijack_err := w_hijack_err rw; w_readahead := w_readahead rw;
            w_hijacked := false;
            w_replies := w_replies rw ++ [(code, text)] |}) w)).

(** [hj, ok := w.(http.Hijacker)] *)
Definition is_Hijacker (w : N) : M bool :=
  let* s := get in
  ret (match writers s !! w with Some rw => w_hijacker rw | None => false end).

(** [hj.Hijack()]: the server lets go of the connection and returns the
    socket and a buffered reader holding what the server had already read
    from it.  The connection counts as hijacked from the call on, also when
    the call reports an error. *)
Definition Hijack (w : N) : M (Conn * N + error) :=
  let* s := get in
  match writers s !! w with
  | None => ret (inr ErrHijacked)
  | Some rw =>
      if w_hijacked rw then ret (inr ErrHijacked)
      else
        modify (set_writers <[w := {| w_conn := w_conn rw; w_hijacker := w_hijacker rw;
                                      w_hijack_err := w_hijack_err rw;
                                      w_readahead := w_readahead rw;
                                      w_hijacked := true;
                                      w_replies := w_replies rw |}]>) ;;
        match w_hijack_err rw with
        | Some e => ret (inr e)
        | None =>
            let* reader := on_net (Bufio.NewReader (w_conn rw)) in
            on_net (Bufio.put_reader reader
                      {| rd := w_conn rw; buffered := w_readahead rw; rerr := None |}) ;;
            ret (inl (TCPConn (w_conn rw), reader))
        end
  end.

(** [clientBuf.Flush()]: the handler writes nothing through [clientBuf], so
    there is nothing to flush. *)
Definition Flush (clientBuf : N) : M unit := ret tt.

(** [r.Write(serverConn)]; [body] is the reader [r.Body] draws from. *)
Definition Request_Write (r : Request) (dst : Conn) (body : N) : M (option error) :=
  on_net (Write r dst body).

Definition handleHTTPProxy (w : N) (r : Request) (filter : RequestFilter) (now : N) : M unit :=
  if negb (AllowHTTP filter (Host r) (URL_Path r)) then
    http_Error w "Blocked by proxy filter" StatusForbidden
  else
    let* ok := is_Hijacker w in
    if negb ok then
      http_Error w "Hijacking not supported" StatusInternalServerError
    else
      let* hj := Hijack w in
      match hj with
      | inr err =>
          http_Error w ("Hijacking failed: " +:+ error_text err) StatusInternalServerError
      | inl (clientConn, clientBuf) =>
          defer (Flush clientBuf) (
            let* dial := on_net (Dial (Host r +:+ ":80")) in
            match dial with
            | inr _ =>
                http_Error w ("Failed to dial upstream server " +:+ Host r) StatusBadGateway ;;
                on_net (Conn.Close clientConn)
            | inl fd =>
                let serverConn := TCPConn fd in
                let* clientAddr := on_net (Conn.RemoteAddr clientConn) in
                let* serverAddr := on_net (Conn.RemoteAddr serverConn) in
                let meta := {| ID := ""; ClientAddr := clientAddr; ServerAddr := serverAddr;
                               Hostname := Host r; SNI := ""; Protocol := "http";
                               HAProxyAddr := ""; CreatedAt := now |} in
                let* id := Add clientConn serverConn meta in
                let* err := Request_Write r serverConn clientBuf in
                match err with
                | Some _ => closeConnPair id
                | None =>
                    proxyCopy serverConn (FromReader clientBuf) ;;
                    proxyCopy clientConn (FromConn serverConn) ;;
                    closeConnPair id
                end
            end)
      end.

End HTTP.
Export HTTP.

(* ================================================================== *)
(** ** Runs of the registry *)

Module Runs.

(** A process that has just started: [NewConnManager()], zeroed metrics. *)
Definition fresh (n : Network) : World :=
  {| cm := NewConnManager; metrics := zero_metrics; net := n; writers := ∅ |}.

Definition no_network : Network :=
  {| socks := ∅; readers := ∅; nextFd := 0; nextReader := 0; origins := ∅; dialed := [] |}.

Inductive Op :=
| OpAdd (client server : Conn) (meta : ConnMeta)
| OpRemove (id : string)
| OpCloseByFilter (filter : ConnMeta -> bool).

Definition step (o : Op) : M unit :=
  match o with
  | OpAdd client server meta => bind (Add client server meta) (fun _ => ret tt)
  | OpRemove id => Remove id
  | OpCloseByFilter filter => CloseByFilter filter
  end.

(** The operations of [ops], first to last. *)
Definition run (ops : list Op) : M unit := forEach ops step.

Definition is_add_remove (o : Op) : bool :=
  match o with OpCloseByFilter _ => false | _ => true end.

Definition count_adds (ops : list Op) : nat :=
  length (List.filter (fun o => match o with OpAdd _ _ _ => true | _ => false end) ops).

(** The number of registered pairs whose metadata satisfies [p]. *)
Definition registered (p : ConnMeta -> bool) (w : World) : Z :=
  Z.of_nat (length (List.filter p (eval Stats w))).

Definition is_https (m : ConnMeta) : bool := HasPrefix (Protocol m) "https".
Definition is_http (m : ConnMeta) : bool := negb (is_https m).
Definition via_termination (m : ConnMeta) : bool :=
  if decide (HAProxyAddr m = "") then false else true.
Definition any_pair (m : ConnMeta) : bool := true.

(** The five counters are the five counts over the registry. *)
Definition counters_exact (w : World) : Prop :=
  ClientProxyConns (metrics w) = registered any_pair w
  /\ ProxyServerConns (metrics w) = registered any_pair w
  /\ HTTPSConnCount (metrics w) = registered is_https w
  /\ HTTPConnCount (metrics w) = registered is_http w
  /\ ProxyHAProxyConns (metrics w) = registered via_termination w.

(** The metrics after the deltas of one [Add] or [Remove] of [meta],
    [d] being [1] or [-1]. *)
Definition apply_deltas (d : Z) (meta : ConnMeta) (m : Metrics) : Metrics :=
  (if decide (HAProxyAddr meta = "") then (fun m => m) else add_ProxyHAProxyConns d)
    ((if HasPrefix (Protocol meta) "https" then add_HTTPSConnCount d else add_HTTPConnCount d)
       (add_ProxyServerConns d (add_ClientProxyConns d m))).

Definition next_id (w : World) : N := wrap_uint64 (idSeq (cm w) + 1).
Definition next_key (w : World) : string := "conn-" +:+ pretty (next_id w).

(** Concrete inputs used below. *)
Definition ftp_meta : ConnMeta :=
  {| ID := ""; ClientAddr := "10.0.0.1:5555"; ServerAddr := "10.0.0.2:21";
     Hostname := ""; SNI := ""; Protocol := "ftp"; HAProxyAddr := "";
     CreatedAt := 0 |}.

Definition http_meta : ConnMeta :=
  {| ID := ""; ClientAddr := "10.0.0.1:5555"; ServerAddr := "93.184.216.34:80";
     Hostname := "example.com"; SNI := ""; Protocol := "http"; HAProxyAddr := "";
     CreatedAt := 0 |}.

Definition terminated_meta : ConnMeta :=
  {| ID := ""; ClientAddr := "10.0.0.1:5556"; ServerAddr := "127.0.0.1:8443";
     Hostname := ""; SNI := "example.com"; Protocol := "https_tls_termination";
     HAProxyAddr := "127.0.0.1:8443"; CreatedAt := 0 |}.

(** The run [ops] from [w] stays within what the registry can tell apart
    and count: no [Add] is handed an id under which a pair is still
    registered (the id counter would have to come round for that), and no
    [Add] makes the registry hold 2^63 pairs. *)
Fixpoint within_bounds (ops : list Op) (w : World) : Prop :=
  match ops with
  | [] => True
  | o :: rest =>
      match o with
      | OpAdd _ _ _ =>
          conns (cm w) !! next_key w = None
          /\ (Z.of_nat (size (conns (cm w))) < 2 ^ 63 - 1)%Z
      | _ => True
      end
      /\ within_bounds rest (exec (step o) w)
  end.


(** [k] connections that come and go one after the other, the id counter
    standing at [from] when the first arrives. *)
Fixpoint churn (k : nat) (from : N) : list Op :=
  match k with
  | O => []
  | S k' =>
      OpAdd (TCPConn 2) (TCPConn 3) http_meta
      :: OpRemove ("conn-" +:+ pretty (wrap_uint64 (from + 1)))
      :: churn k' (wrap_uint64 (from + 1))
  end.


End Runs.
Export Runs.

(* ================================================================== *)
(** ** What the spec says of [allow_http], for comparison with [AllowHTTP] *)

Module SpecWords.

(** "host only, port stripped if present": the text before the first colon. *)
Fixpoint strip_port (host : string) : string :=
  match host with
  | EmptyString => EmptyString
  | String c rest =>
      if Ascii.eqb c ":"%char then EmptyString else String c (strip_port rest)
  end.

(** "case-insensitive exact match of the host's authority component (host
    only, port stripped if present) against the HTTP allowlist". *)
Definition allow_http_spec (f : RequestFilter) (host : string) : bool :=
  if decide (ToLower (strip_port host) ∈ allowedHosts f) then true else false.

End SpecWords.
Export SpecWords.

(* ================================================================== *)
(** ** Concrete processes *)

Module Scenarios.

(** A process that has accepted one client connection, socket 0, on which
    the client sends [segs]; [reachable] are the addresses that answer a
    dial, each with nothing to send. *)
Definition accepted (segs : list (list byte)) (reachable : list string) : Network :=
  {| socks := {[ 0%N := {| remote := "10.0.0.1:5555"; inbound := segs;
                           outbound := []; closed := false |} ]};
     readers := ∅; nextFd := 1; nextReader := 0;
     origins := list_to_map ((fun a => (a, [])) <$> reachable);
     dialed := [] |}.

(** The response writer of the HTTP server for the client on socket 0. *)
Definition server_writer : ResponseWriter :=
  {| w_conn := 0; w_hijacker := true; w_hijack_err := None; w_readahead := [];
     w_hijacked := false; w_replies := [] |}.

(** The process when the HTTP server calls the handler with writer 0. *)
Definition serving (reachable : list string) : World :=
  {| cm := NewConnManager; metrics := zero_metrics;
     net := accepted [] reachable; writers := {[ 0%N := server_writer ]} |}.

(** The request the server parses from a client that sends the request
    line "GET / HTTP/1.1", the one header "Host: host" (a plain host name)
    and no body.  [r.Write] serialises it again: the request line, the Host
    header, the User-Agent header the library adds when the request has
    none, and the empty line; [r.Body] is [http.NoBody], so nothing is
    read. *)
Definition get_request (host : string) : Request :=
  {| Host := host; URL_Path := "/";
     Write := fun dst _ =>
       Conn.Write dst
         (list_byte_of_string
            ("GET / HTTP/1.1" +:+ CRLF +:+ "Host: " +:+ host +:+ CRLF
             +:+ "User-Agent: Go-http-client/1.1" +:+ CRLF +:+ CRLF)) |}.

(** 1024 bytes that open with a TLS handshake record header. *)
Definition client_hello : list byte :=
  [x16; x03; x01; x03; xfb; x01] ++ repeat x00 1018.

(** 1024 bytes that open with an application-data record header: the
    content type is 0x17, not 0x16. *)
Definition not_a_handshake : list byte :=
  [x17; x03; x01; x00; x05] ++ repeat x00 1019.

Definition ABC : list byte := [x41; x42; x43].

(** Two host names in UTF-8 that differ in the case of a letter outside
    ASCII: the first letter is U+00C9 (bytes C3 89) in one and U+00E9
    (bytes C3 A9) in the other. *)
Definition E_acute_com : string := String "195"%char (String "137"%char ".COM").
Definition e_acute_com : string := String "195"%char (String "169"%char ".com").

(** What the peer of socket [fd] has been sent. *)
Definition sent_to (fd : N) (w : World) : option (list byte) :=
  outbound <$> socks (net w) !! fd.

Definition is_closed (fd : N) (w : World) : option bool :=
  closed <$> socks (net w) !! fd.

Definition replies_on (wr : N) (w : World) : option (list (Z * string)) :=
  w_replies <$> writers w !! wr.

End Scenarios.
Export Scenarios.

(* ================================================================== *)
(** ** Describing sockets and readers in a network *)

Module StreamState.

(** Socket [fd] is open and its peer still has [segs] to deliver. *)
Definition open_with (n : Network) (fd : N) (segs : list (list byte)) : Prop :=
  exists s, socks n !! fd = Some s /\ closed s = false /\ inbound s = segs.

(** Reader [r] reads socket [fd], holds [buf] and has [e] pending. *)
Definition reader_with (n : Network) (r fd : N) (buf : list byte) (e : option error) : Prop :=
  readers n !! r = Some {| rd := fd; buffered := buf; rerr := e |}.

(** The error a read reports with [data]: the end of the stream when there
    is none. *)
Definition eof_if_empty (data : list byte) : option error :=
  match data with [] => Some EOF | _ :: _ => None end.

End StreamState.
Export StreamState.

(* ================================================================== *)
(** ** The invariant of the registry *)

Module Invariant.

(** Every key of the registry is an id that [NextID] has handed out. *)
Definition keys_issued (w : World) : Prop :=
  forall key pc, conns (cm w) !! key = Some pc ->
    exists n : N, key = "conn-" +:+ pretty n /\ (n <= idSeq (cm w))%N.

(** What holds after at most [k] calls of [Add]. *)
Definition registry_inv (k : nat) (w : World) : Prop :=
  (N.to_nat (idSeq (cm w)) <= k)%nat
  /\ keys_issued w
  /\ (size (conns (cm w)) <= k)%nat
  /\ counters_exact w.

Definition meta_of (kv : string * ProxyConnection) : ConnMeta := Meta (snd kv).

Definition count_if (p : ConnMeta -> bool) (l : list ConnMeta) : nat :=
  length (List.filter p l).

End Invariant.
Export Invariant.

(* ================================================================== *)
(** ** More about the registry *)

Module RegistryFacts.

Local Open Scope monad_scope.

(** [k] calls of [NextID] in a row; the ids in the order they are handed out. *)
Fixpoint issue (k : nat) : M (list string) :=
  match k with
  | O => ret []
  | S k' =>
      let* id := NextID in
      let* rest := issue k' in
      ret (id :: rest)
  end.

(** An [int64] holds a value of its range. *)
Definition int64 (z : Z) : Prop := (- 2 ^ 63 <= z < 2 ^ 63)%Z.

Definition int64_metrics (m : Metrics) : Prop :=
  int64 (ClientProxyConns m) /\ int64 (ProxyServerConns m)
  /\ int64 (ProxyHAProxyConns m) /\ int64 (HTTPConnCount m) /\ int64 (HTTPSConnCount m).

(** Every registered pair carries, in its metadata, the id it is stored under. *)
Definition ids_are_keys (w : World) : Prop :=
  forall key pc, conns (cm w) !! key = Some pc -> ID (Meta pc) = key.

(** Socket [fd] exists and has been closed. *)
Definition closed_in (n : Network) (fd : N) : Prop :=
  exists s, socks n !! fd = Some s /\ closed s = true.

(** No counter is below the count it stands for, and none is above [k]. *)
Definition counters_cover (k : nat) (w : World) : Prop :=
  (registered any_pair w <= ClientProxyConns (metrics w) <= Z.of_nat k)%Z
  /\ (registered any_pair w <= ProxyServerConns (metrics w) <= Z.of_nat k)%Z
  /\ (registered is_https w <= HTTPSConnCount (metrics w) <= Z.of_nat k)%Z
  /\ (registered is_http w <= HTTPConnCount (metrics w) <= Z.of_nat k)%Z
  /\ (registered via_termination w <= ProxyHAProxyConns (metrics w) <= Z.of_nat k)%Z.

(** What a visit of [CloseByFilter] does with a pair its filter matches
    before it deletes the entry: the two notices and the two closes. *)
Definition close_both (pc : ProxyConnection) : M unit :=
  sendHTTPConnectionClose (Client pc) ;;
  sendHTTPConnectionClose (Server pc) ;;
  on_net (Conn.Close (Client pc)) ;;
  on_net (Conn.Close (Server pc)).

End RegistryFacts.
Export RegistryFacts.

(* ================================================================== *)
(** ** Describing what a copy has to move *)

Module CopyState.

(** The bytes socket [fd] still has to deliver. *)
Definition payload_fd (fd : N) (n : Network) : list byte :=
  match socks n !! fd with
  | Some s => concat (inbound s)
  | None => []
  end.

(** The bytes reader [r] still has to deliver: its buffer, then its socket's. *)
Definition payload_reader (r : N) (n : Network) : list byte :=
  match readers n !! r with
  | Some b => buffered b ++ payload_fd (rd b) n
  | None => []
  end.

Definition source_reader (src : Source) : option N :=
  match src with
  | FromConn (TCPConn _) => None
  | FromConn (connWithBufferedReader _ r) => Some r
  | FromReader r => Some r
  end.

Definition payload (src : Source) (n : Network) : list byte :=
  match source_reader src, src with
  | Some r, _ => payload_reader r n
  | None, FromConn c => payload_fd (conn_fd c) n
  | None, FromReader r => payload_reader r n
  end.

(** The socket a source reads in the end. *)
Definition source_fd (src : Source) (n : Network) : N :=
  match source_reader src, src with
  | Some r, _ => match readers n !! r with Some b => rd b | None => 0%N end
  | None, FromConn c => conn_fd c
  | None, FromReader _ => 0%N
  end.

(** Socket [fd] is open. *)
Definition is_open (n : Network) (fd : N) : Prop :=
  exists s, socks n !! fd = Some s /\ closed s = false.

(** A source that can be read: its socket is open and, when it reads
    through a buffered reader, the reader exists and has no error pending. *)
Definition readable (src : Source) (n : Network) : Prop :=
  is_open n (source_fd src n)
  /\ match source_reader src with
     | Some r => exists b, readers n !! r = Some b /\ rerr b = None
     | None => True
     end.

(** What socket [fd] has been sent so far. *)
Definition sent (fd : N) (n : Network) : option (list byte) :=
  outbound <$> socks n !! fd.

(** Only data has moved between [n] and [n']: no socket has appeared, gone,
    been closed or reopened or changed its peer, and the dial record is the
    same. *)
Definition same_ends (n n' : Network) : Prop :=
  nextFd n' = nextFd n /\ origins n' = origins n /\ dialed n' = dialed n
  /\ forall fd, (closed <$> socks n' !! fd) = (closed <$> socks n !! fd)
                /\ (remote <$> socks n' !! fd) = (remote <$> socks n !! fd).

(** The address a TLS handler dials for the name the parser reports. *)
Definition dial_target (tlsTermination : bool) (haproxyAddress : string) : string :=
  if tlsTermination then haproxyAddress else "example.com" +:+ ":443".

End CopyState.
Export CopyState.

(* ================================================================== *)
(** ** Origins that answer, and the session with one *)

Module Upstreams.

(** Network [n] with an origin at [addr] that sends [script] to whoever
    dials it. *)
Definition with_origin (addr : string) (script : list (list byte)) (n : Network) : Network :=
  {| socks := socks n; readers := readers n; nextFd := nextFd n;
     nextReader := nextReader n; origins := <[addr := script]> (origins n);
     dialed := dialed n |}.

(** [r.Write] sends the bytes [out] and does nothing else: the request has
    no body to read. *)
Definition writes_only (r : Request) (out : list byte) : Prop :=
  forall (dst : Conn) (body : N) (n : Network), Write r dst body n = Conn.Write dst out n.

(** A response writer that is no [http.Hijacker] (an HTTP/2 one, say). *)
Definition plain_writer : ResponseWriter :=
  {| w_conn := 0; w_hijacker := false; w_hijack_err := None; w_readahead := [];
     w_hijacked := false; w_replies := [] |}.

(** The process when the HTTP server calls the handler with writer 0, which
    is [rw], over network [n]. *)
Definition serving_on (rw : ResponseWriter) (n : Network) : World :=
  {| cm := NewConnManager; metrics := zero_metrics; net := n;
     writers := {[ 0%N := rw ]} |}.

(** What either TLS handler does once the upstream answers: register the
    pair, pump both directions, remove the pair, close both sockets.  Here
    [client] is the connection the handler goes on with after the peek. *)
Definition tls_session (fd : N) (client : Conn) (addr : string) (meta : ConnMeta)
    (w : World) : World :=
  let up := nextFd (exec (peekClientHelloSNI fd) (net w)) in
  let w2 := exec (on_net (Dial addr)) (exec (on_net (peekClientHelloSNI fd)) w) in
  exec (on_net (Conn.Close (TCPConn fd)))
    (exec (on_net (Conn.Close (TCPConn up)))
       (exec (Remove (eval (Add client (TCPConn up) meta) w2))
          (exec (on_net (Conn.Copy client (FromConn (TCPConn up))))
             (exec (on_net (Conn.Copy (TCPConn up) (FromConn client)))
                (exec (Add client (TCPConn up) meta) w2))))).

End Upstreams.
Export Upstreams.

(* ================================================================== *)
(** ** events.go: the file watcher *)

Module Watcher.

Local Open Scope monad_scope.

Definition fsnotify_Remove : N := 4.
Definition fsnotify_Rename : N := 8.
Definition fsnotify_Chmod : N := 16.





End Watcher.
Export Watcher.

(* ================================================================== *)
(** * Theorems *)

(** ** The admission filter *)

Lemma EncodeRune_cons (r : N) : exists c t, EncodeRune r = String c t.
Proof.
  unfold EncodeRune. destruct (r <? RuneSelf)%N; [eauto |].
  destruct (r <=? 2047)%N; [eauto |].
  destruct (_ <=? 65535)%N; eauto.
Qed.

Lemma ToLower_empty_iff (s : string) : ToLower s = "" <-> s = "".
Proof.
  split; [| intros ->; reflexivity].
  destruct s as [| c rest]; [reflexivity |]. unfold ToLower.
  destruct (isASCII (String c rest)); [discriminate |].
  unfold Map. cbn [map_runes]. destruct (DecodeRuneInString (String c rest)) as [r width].
  destruct (EncodeRune_cons (unicode_ToLower r)) as (a & t & ->). discriminate.
Qed.

Lemma elem_of_fold_names (names : list string) (acc : gset string) (x : string) :
  x ∈ fold_left (fun set h => {[ ToLower h ]} ∪ set) names acc
  <-> x ∈ acc \/ exists h, In h names /\ ToLower h = x.
Proof.
  revert acc. induction names as [|h names IH]; intros acc; simpl.
  - split; [auto | intros [H | (h & [] & _)]; exact H].
  - rewrite IH, elem_of_union, elem_of_singleton. split.
    + intros [[-> | H] | (h' & Hin & Heq)]; eauto.
    + intros [H | (h' & [-> | Hin] & Heq)]; eauto.
Qed.

(** A name is in a reloaded set exactly when it is the lower-case form of
    one of the names given to [Reload]. *)
Lemma elem_of_load_names (names : list string) (x : string) :
  x ∈ load_names names <-> exists h, In h names /\ ToLower h = x.
Proof.
  unfold load_names. rewrite elem_of_fold_names. split.
  - intros [H | H]; [set_solver | exact H].
  - auto.
Qed.

Lemma AllowHTTP_true_iff (f : RequestFilter) (host path : string) :
  AllowHTTP f host path = true <-> ToLower host ∈ allowedHosts f.
Proof. unfold AllowHTTP. destruct (decide _); split; intros; try done. Qed.

Lemma AllowSNI_true_iff (f : RequestFilter) (sni : string) :
  AllowSNI f sni = true <-> ToLower sni ∈ allowedSNIs f.
Proof. unfold AllowSNI. destruct (decide _); split; intros; try done. Qed.

(** C6, as stated, fails: the host "example.com:80" names an allowed host
    once its port is stripped, and [AllowHTTP] denies it. *)
Lemma AllowHTTP_keeps_port :
  AllowHTTP NewRequestFilter "example.com:80" "/" = false
  /\ allow_http_spec NewRequestFilter "example.com:80" = true.
Proof. split; vm_compute; reflexivity. Qed.

(** C6, amended: for every host string, path and filter state, [AllowHTTP]
    returns true if and only if the host string as it is given, port suffix
    included, once lower-cased, is equal to a member of the HTTP allowlist;
    and the members of a reloaded allowlist are exactly the lower-cased
    names handed to [Reload], so the match is a case-insensitive exact one,
    without wildcards or suffixes. *)
Theorem AllowHTTP_exact_match (f : RequestFilter) (host path : string)
    (hosts snis : list string) (now : N) :
  (AllowHTTP f host path = true <-> ToLower host ∈ allowedHosts f)
  /\ (AllowHTTP (Reload f hosts snis now) host path = true
      <-> exists h, In h hosts /\ ToLower h = ToLower host).
Proof.
  split; [apply AllowHTTP_true_iff |].
  rewrite AllowHTTP_true_iff. simpl. apply elem_of_load_names.
Qed.

(** C9, as stated, fails: after [Reload] with lists that hold the empty
    string, a reachable state, both queries accept the empty input. *)
Lemma empty_input_allowed_after_reload :
  reachable (Reload NewRequestFilter [""] [""] 0)
  /\ AllowHTTP (Reload NewRequestFilter [""] [""] 0) "" "" = true
  /\ AllowSNI (Reload NewRequestFilter [""] [""] 0) "" = true.
Proof.
  split; [apply reach_reload, reach_new |].
  split; vm_compute; reflexivity.
Qed.

(** C9, amended: in the initial filter state [AllowHTTP] and [AllowSNI]
    return false for the empty string; after a [Reload], [AllowHTTP]
    returns false for the empty string exactly when the host list given to
    that [Reload] does not hold the empty string, and [AllowSNI] likewise
    for the SNI list. *)
Theorem empty_input_denied (f : RequestFilter) (hosts snis : list string)
    (now : N) (path : string) :
  AllowHTTP NewRequestFilter "" path = false
  /\ AllowSNI NewRequestFilter "" = false
  /\ (AllowHTTP (Reload f hosts snis now) "" path = false <-> ~ In "" hosts)
  /\ (AllowSNI (Reload f hosts snis now) "" = false <-> ~ In "" snis).
Proof.
  split; [reflexivity |]. split; [reflexivity |].
  split.
  - rewrite <- not_true_iff_false, AllowHTTP_true_iff. simpl.
    rewrite elem_of_load_names. split.
    + intros H Hin. apply H. exists "". auto.
    + intros H (h & Hin & Heq).
      apply (proj1 (ToLower_empty_iff h)) in Heq. subst h. exact (H Hin).
  - rewrite <- not_true_iff_false, AllowSNI_true_iff. simpl.
    rewrite elem_of_load_names. split.
    + intros H Hin. apply H. exists "". auto.
    + intros H (h & Hin & Heq).
      apply (proj1 (ToLower_empty_iff h)) in Heq. subst h. exact (H Hin).
Qed.

(** ** The registry and its counters *)

Section Registry.

Local Open Scope Z_scope.

Lemma wrap_int64_small (z : Z) : - 2 ^ 63 <= z < 2 ^ 63 -> wrap_int64 z = z.
Proof. intros H. unfold wrap_int64. rewrite Z.mod_small; lia. Qed.

Lemma wrap_uint64_small (n : N) : (n < 2 ^ 64)%N -> wrap_uint64 n = n.
Proof. intros H. unfold wrap_uint64. apply N.mod_small. exact H. Qed.

Lemma Add_unfold (client server : Conn) (meta : ConnMeta) (w : World) :
  Add client server meta w =
  (next_key w,
   {| cm := {| conns := <[next_key w := {| Client := client; Server := server;
                                           Meta := with_ID meta (next_key w) |}]>
                          (conns (cm w));
               idSeq := next_id w |};
      metrics := apply_deltas 1 meta (metrics w);
      net := net w; writers := writers w |}).
Proof.
  unfold Add, apply_deltas, next_key, next_id, NextID, conns_Store, atomic_AddInt64,
    bind, get, modify, ret, set_cm, set_metrics. simpl.
  destruct (HasPrefix (Protocol meta) "https"), (decide (HAProxyAddr meta = ""));
    reflexivity.
Qed.

Lemma Remove_unfold_absent (id : string) (w : World) :
  conns (cm w) !! id = None -> Remove id w = (tt, w).
Proof.
  intros H. unfold Remove, conns_Load, bind, get, ret. rewrite H. reflexivity.
Qed.

Lemma Remove_unfold_present (id : string) (pc : ProxyConnection) (w : World) :
  conns (cm w) !! id = Some pc ->
  Remove id w =
  (tt, {| cm := {| conns := delete id (conns (cm w)); idSeq := idSeq (cm w) |};
          metrics := apply_deltas (-1) (Meta pc) (metrics w);
          net := net w; writers := writers w |}).
Proof.
  intros H. unfold Remove, conns_Load, conns_Delete, apply_deltas, atomic_AddInt64,
    bind, get, modify, ret, set_cm, set_metrics. rewrite H. simpl.
  destruct (HasPrefix (Protocol (Meta pc)) "https"),
    (decide (HAProxyAddr (Meta pc) = "")); reflexivity.
Qed.

(** C10: for every metadata whose [Protocol] does not start with "https"
    (the empty string and any unknown value included), [Add] adds one to
    the http counter and leaves the https counter alone, and [Remove] of
    the id that [Add] returned takes one from the http counter and leaves
    the https counter alone. *)
Theorem non_https_counts_as_http (client server : Conn) (meta : ConnMeta) (w : World) :
  HasPrefix (Protocol meta) "https" = false ->
  let id := eval (Add client server meta) w in
  let w1 := exec (Add client server meta) w in
  let w2 := exec (Remove id) w1 in
  HTTPConnCount (metrics w1) = wrap_int64 (HTTPConnCount (metrics w) + 1)
  /\ HTTPSConnCount (metrics w1) = HTTPSConnCount (metrics w)
  /\ HTTPConnCount (metrics w2) = wrap_int64 (HTTPConnCount (metrics w1) - 1)
  /\ HTTPSConnCount (metrics w2) = HTTPSConnCount (metrics w1).
Proof.
  intros Hpre. unfold eval, exec. rewrite Add_unfold. simpl.
  erewrite Remove_unfold_present by (simpl; apply lookup_insert_eq).
  simpl. unfold apply_deltas. simpl. rewrite Hpre.
  destruct (decide (HAProxyAddr meta = "")); simpl; auto.
Qed.

(** The theorem at a protocol outside the documented set. *)
Lemma non_https_counts_as_http_witness :
  HasPrefix (Protocol ftp_meta) "https" = false
  /\ HTTPConnCount (metrics (exec (Add (TCPConn 0) (TCPConn 1) ftp_meta) (fresh no_network)))
     = wrap_int64 (HTTPConnCount (metrics (fresh no_network)) + 1).
Proof.
  split; [reflexivity |].
  apply (non_https_counts_as_http (TCPConn 0) (TCPConn 1) ftp_meta (fresh no_network)).
  reflexivity.
Defined.

End Registry.

Section RegistryInvariant.

Local Open Scope Z_scope.

Lemma count_if_Permutation (p : ConnMeta -> bool) (l1 l2 : list ConnMeta) :
  l1 ≡ₚ l2 -> count_if p l1 = count_if p l2.
Proof.
  unfold count_if. induction 1 as [| x l l' _ IH | x y l | l l' l'' _ IH1 _ IH2]; simpl.
  - reflexivity.
  - destruct (p x); simpl; congruence.
  - destruct (p x), (p y); reflexivity.
  - congruence.
Qed.

Lemma registered_unfold (p : ConnMeta -> bool) (w : World) :
  registered p w = Z.of_nat (count_if p (meta_of <$> map_to_list (conns (cm w)))).
Proof. reflexivity. Qed.

Lemma count_insert_fresh (p : ConnMeta -> bool) (m : gmap string ProxyConnection)
    (key : string) (pc : ProxyConnection) :
  m !! key = None ->
  count_if p (meta_of <$> map_to_list (<[key := pc]> m))
  = ((if p (Meta pc) then 1 else 0) + count_if p (meta_of <$> map_to_list m))%nat.
Proof.
  intros Hnone.
  rewrite (count_if_Permutation p _ (meta_of <$> (key, pc) :: map_to_list m)).
  - unfold count_if. simpl. unfold meta_of at 1. simpl. destruct (p (Meta pc)); reflexivity.
  - apply fmap_Permutation, map_to_list_insert, Hnone.
Qed.

Lemma count_delete (p : ConnMeta -> bool) (m : gmap string ProxyConnection)
    (key : string) (pc : ProxyConnection) :
  m !! key = Some pc ->
  count_if p (meta_of <$> map_to_list m)
  = ((if p (Meta pc) then 1 else 0) + count_if p (meta_of <$> map_to_list (delete key m)))%nat.
Proof.
  intros Hsome.
  rewrite (count_if_Permutation p _ (meta_of <$> (key, pc) :: map_to_list (delete key m))).
  - unfold count_if. simpl. unfold meta_of at 1. simpl. destruct (p (Meta pc)); reflexivity.
  - apply fmap_Permutation. symmetry. apply map_to_list_delete, Hsome.
Qed.

Lemma count_le_size (p : ConnMeta -> bool) (m : gmap string ProxyConnection) :
  (count_if p (meta_of <$> map_to_list m) <= size m)%nat.
Proof.
  unfold count_if. etransitivity; [apply filter_length_le |].
  rewrite length_fmap, length_map_to_list. reflexivity.
Qed.

Lemma conn_key_inj (a b : N) : "conn-" +:+ pretty a = "conn-" +:+ pretty b -> a = b.
Proof. intros H. apply String.app_inj in H. apply (inj pretty) in H. exact H. Qed.

(** Below the wrap-around of the id counter, the next key is not in use. *)
Lemma next_key_fresh (w : World) :
  keys_issued w -> (idSeq (cm w) + 1 < 2 ^ 64)%N -> conns (cm w) !! next_key w = None.
Proof.
  intros Hkeys Hlt. destruct (conns (cm w) !! next_key w) as [pc|] eqn:E; [| reflexivity].
  destruct (Hkeys _ _ E) as (n & Hkey & Hle).
  unfold next_key, next_id in Hkey. rewrite wrap_uint64_small in Hkey by exact Hlt.
  apply conn_key_inj in Hkey. lia.
Qed.

Lemma fresh_inv (n : Network) : registry_inv 0 (fresh n).
Proof.
  unfold registry_inv, counters_exact. split; [simpl; lia |]. split.
  - intros key pc H. simpl in H. rewrite lookup_empty in H. discriminate.
  - split; [simpl; rewrite map_size_empty; lia |]. repeat split.
Qed.

End RegistryInvariant.

Section RegistrySteps.

Local Open Scope Z_scope.

Lemma apply_deltas_fields (d : Z) (meta : ConnMeta) (m : Metrics) :
  ClientProxyConns (apply_deltas d meta m) = wrap_int64 (ClientProxyConns m + d)
  /\ ProxyServerConns (apply_deltas d meta m) = wrap_int64 (ProxyServerConns m + d)
  /\ HTTPSConnCount (apply_deltas d meta m)
     = (if is_https meta then wrap_int64 (HTTPSConnCount m + d) else HTTPSConnCount m)
  /\ HTTPConnCount (apply_deltas d meta m)
     = (if is_http meta then wrap_int64 (HTTPConnCount m + d) else HTTPConnCount m)
  /\ ProxyHAProxyConns (apply_deltas d meta m)
     = (if via_termination meta then wrap_int64 (ProxyHAProxyConns m + d)
        else ProxyHAProxyConns m).
Proof.
  unfold apply_deltas, is_http, is_https, via_termination.
  destruct (HasPrefix (Protocol meta) "https"), (decide (HAProxyAddr meta = ""));
    simpl; repeat split.
Qed.

Lemma counter_up (c : Z) (cnt k : nat) (b : bool) :
  c = Z.of_nat cnt -> (cnt <= k)%nat -> Z.of_nat (S k) < 2 ^ 63 ->
  (if b then wrap_int64 (c + 1) else c) = Z.of_nat ((if b then 1 else 0) + cnt).
Proof.
  intros -> Hle Hk. destruct b; [| reflexivity].
  rewrite wrap_int64_small; lia.
Qed.

Lemma counter_down (c : Z) (cnt k : nat) (b : bool) :
  c = Z.of_nat ((if b then 1 else 0) + cnt) -> ((if b then 1 else 0) + cnt <= k)%nat ->
  Z.of_nat k < 2 ^ 63 ->
  (if b then wrap_int64 (c + -1) else c) = Z.of_nat cnt.
Proof.
  intros -> Hle Hk. destruct b; [| reflexivity].
  rewrite wrap_int64_small; lia.
Qed.

(** [Add] keeps the invariant while the number of calls stays in the range
    of the counters. *)
Lemma Add_preserves_inv (k : nat) (client server : Conn) (meta : ConnMeta) (w : World) :
  registry_inv k w -> Z.of_nat (S k) < 2 ^ 63 ->
  registry_inv (S k) (exec (Add client server meta) w).
Proof.
  intros (Hid & Hkeys & Hsize & Hc1 & Hc2 & Hc3 & Hc4 & Hc5) Hk.
  assert (Hnext : (idSeq (cm w) + 1 < 2 ^ 64)%N) by lia.
  pose proof (next_key_fresh w Hkeys Hnext) as Hfresh.
  assert (Hnid : next_id w = (idSeq (cm w) + 1)%N)
    by (unfold next_id; apply wrap_uint64_small; exact Hnext).
  unfold exec. rewrite Add_unfold. simpl.
  unfold registry_inv, counters_exact. simpl.
  split; [rewrite Hnid; lia |]. split.
  - intros key pc. simpl. rewrite lookup_insert. case_decide as Hkey.
    + intros _. exists (next_id w). split; [symmetry; exact Hkey | lia].
    + intros Hl. destruct (Hkeys _ _ Hl) as (n & -> & Hle). exists n. split; [reflexivity | lia].
  - split; [rewrite map_size_insert_None by exact Hfresh; lia |].
    rewrite !registered_unfold in *. simpl.
    rewrite !count_insert_fresh by exact Hfresh. simpl.
    destruct (apply_deltas_fields 1 meta (metrics w)) as (-> & -> & -> & -> & ->).
    pose proof (count_le_size any_pair (conns (cm w))).
    pose proof (count_le_size is_https (conns (cm w))).
    pose proof (count_le_size is_http (conns (cm w))).
    pose proof (count_le_size via_termination (conns (cm w))).
    repeat split.
    + apply (counter_up _ _ k true); [assumption | lia | assumption].
    + apply (counter_up _ _ k true); [assumption | lia | assumption].
    + apply (counter_up _ _ k); [assumption | lia | assumption].
    + apply (counter_up _ _ k); [assumption | lia | assumption].
    + apply (counter_up _ _ k); [assumption | lia | assumption].
Qed.

Lemma Remove_preserves_inv (k : nat) (id : string) (w : World) :
  registry_inv k w -> Z.of_nat k < 2 ^ 63 -> registry_inv k (exec (Remove id) w).
Proof.
  intros Hinv Hk. unfold exec.
  destruct (conns (cm w) !! id) as [pc|] eqn:E.
  2: { rewrite Remove_unfold_absent by exact E. exact Hinv. }
  destruct Hinv as (Hid & Hkeys & Hsize & Hc1 & Hc2 & Hc3 & Hc4 & Hc5).
  rewrite (Remove_unfold_present id pc) by exact E. simpl.
  unfold registry_inv, counters_exact. simpl.
  split; [exact Hid |]. split.
  - intros key pc'. simpl. rewrite lookup_delete. case_decide; [discriminate |].
    apply Hkeys.
  - split; [rewrite map_size_delete_Some by eauto; lia |].
    rewrite !registered_unfold in *. simpl.
    rewrite (count_delete any_pair _ _ _ E) in Hc1, Hc2.
    rewrite (count_delete is_https _ _ _ E) in Hc3.
    rewrite (count_delete is_http _ _ _ E) in Hc4.
    rewrite (count_delete via_termination _ _ _ E) in Hc5.
    destruct (apply_deltas_fields (-1) (Meta pc) (metrics w)) as (-> & -> & -> & -> & ->).
    pose proof (count_delete any_pair _ _ _ E) as E1.
    pose proof (count_delete is_https _ _ _ E) as E2.
    pose proof (count_delete is_http _ _ _ E) as E3.
    pose proof (count_delete via_termination _ _ _ E) as E4.
    pose proof (count_le_size any_pair (conns (cm w))).
    pose proof (count_le_size is_https (conns (cm w))).
    pose proof (count_le_size is_http (conns (cm w))).
    pose proof (count_le_size via_termination (conns (cm w))).
    repeat split.
    + apply (counter_down _ _ k true); [assumption | simpl in *; lia | assumption].
    + apply (counter_down _ _ k true); [assumption | simpl in *; lia | assumption].
    + apply (counter_down _ _ k); [assumption | lia | assumption].
    + apply (counter_down _ _ k); [assumption | lia | assumption].
    + apply (counter_down _ _ k); [assumption | lia | assumption].
Qed.

Lemma registry_inv_mono (k k' : nat) (w : World) :
  registry_inv k w -> (k <= k')%nat -> registry_inv k' w.
Proof.
  intros (Hid & Hkeys & Hsize & Hc) Hle. unfold registry_inv.
  split; [lia |]. split; [exact Hkeys |]. split; [lia | exact Hc].
Qed.

Lemma run_preserves_inv (ops : list Op) (k : nat) (w : World) :
  forallb is_add_remove ops = true ->
  registry_inv k w ->
  Z.of_nat (k + count_adds ops) < 2 ^ 63 ->
  registry_inv (k + count_adds ops) (exec (run ops) w).
Proof.
  revert k w. induction ops as [| o ops IH]; intros k w Hops Hinv Hk.
  - unfold count_adds in *. simpl in *. rewrite Nat.add_0_r. exact Hinv.
  - simpl in Hops. apply andb_true_iff in Hops as [Ho Hops].
    unfold exec, run. simpl. unfold bind at 1.
    destruct (step o w) as [u w1] eqn:Estep. fold (run ops). fold (exec (run ops) w1).
    assert (Hw1 : w1 = exec (step o) w) by (unfold exec; rewrite Estep; reflexivity).
    destruct o as [client server meta | id | filter]; [| | discriminate].
    + assert (Hc : count_adds (OpAdd client server meta :: ops) = S (count_adds ops))
        by reflexivity.
      rewrite Hc in *. replace (k + S (count_adds ops))%nat with (S k + count_adds ops)%nat by lia.
      apply IH; [exact Hops | | lia].
      subst w1. unfold exec, step, bind. 
      pose proof (Add_preserves_inv k client server meta w Hinv ltac:(lia)) as H.
      unfold exec in H. destruct (Add client server meta w). exact H.
    + assert (Hc : count_adds (OpRemove id :: ops) = count_adds ops) by reflexivity.
      rewrite Hc in *. apply IH; [exact Hops | | exact Hk].
      subst w1. apply Remove_preserves_inv; [exact Hinv | lia].
Qed.

End RegistrySteps.

(** ** Running monadic code *)

Section MonadLaws.

Context {S A B : Type}.

Lemma exec_bind (c : State S A) (k : A -> State S B) (s : S) :
  exec (bind c k) s = exec (k (eval c s)) (exec c s).
Proof. unfold exec, eval, bind. destruct (c s). reflexivity. Qed.

Lemma eval_bind (c : State S A) (k : A -> State S B) (s : S) :
  eval (bind c k) s = eval (k (eval c s)) (exec c s).
Proof. unfold exec, eval, bind. destruct (c s). reflexivity. Qed.

Lemma exec_ret (a : A) (s : S) : exec (ret a) s = s.
Proof. reflexivity. Qed.

Lemma run_pair (c : State S A) (s : S) : c s = (eval c s, exec c s).
Proof. unfold exec, eval. destruct (c s). reflexivity. Qed.

End MonadLaws.

Section OnNet.

Context {A : Type}.

Lemma on_net_cm (c : State Network A) (w : World) : cm (exec (on_net c) w) = cm w.
Proof. unfold exec, on_net. destruct (c (net w)). reflexivity. Qed.

Lemma on_net_metrics (c : State Network A) (w : World) :
  metrics (exec (on_net c) w) = metrics w.
Proof. unfold exec, on_net. destruct (c (net w)). reflexivity. Qed.

Lemma on_net_writers (c : State Network A) (w : World) :
  writers (exec (on_net c) w) = writers w.
Proof. unfold exec, on_net. destruct (c (net w)). reflexivity. Qed.

Lemma on_net_net (c : State Network A) (w : World) :
  net (exec (on_net c) w) = exec c (net w).
Proof. unfold exec, on_net. destruct (c (net w)). reflexivity. Qed.

Lemma on_net_eval (c : State Network A) (w : World) :
  eval (on_net c) w = eval c (net w).
Proof. unfold eval, on_net. destruct (c (net w)). reflexivity. Qed.

End OnNet.

(** ** Beyond the range of the counters *)

Section BeyondTheRange.

Local Open Scope Z_scope.

Lemma run_cons (o : Op) (ops : list Op) (w : World) :
  exec (run (o :: ops)) w = exec (run ops) (exec (step o) w).
Proof. unfold run. cbn [forEach]. apply exec_bind. Qed.

Lemma run_app (ops1 ops2 : list Op) (w : World) :
  exec (run (ops1 ++ ops2)) w = exec (run ops2) (exec (run ops1) w).
Proof.
  revert w. induction ops1 as [| o ops1 IH]; intros w.
  - reflexivity.
  - rewrite <- app_comm_cons, !run_cons. apply IH.
Qed.

Lemma Add_ClientProxyConns (client server : Conn) (meta : ConnMeta) (w : World) :
  ClientProxyConns (metrics (exec (step (OpAdd client server meta)) w))
  = wrap_int64 (ClientProxyConns (metrics w) + 1).
Proof.
  unfold step. rewrite exec_bind, exec_ret. unfold exec. rewrite Add_unfold. simpl.
  apply apply_deltas_fields.
Qed.

(** While the counter stays in range, [k] calls of [Add] add [k] to it. *)
Lemma adds_count_up (k : nat) (client server : Conn) (meta : ConnMeta) (w : World) :
  0 <= ClientProxyConns (metrics w) ->
  ClientProxyConns (metrics w) + Z.of_nat k < 2 ^ 63 ->
  ClientProxyConns (metrics (exec (run (repeat (OpAdd client server meta) k)) w))
  = ClientProxyConns (metrics w) + Z.of_nat k.
Proof.
  revert w. induction k as [| k IH]; intros w H0 Hk.
  - cbn [repeat]. unfold run. cbn [forEach]. rewrite exec_ret. lia.
  - cbn [repeat]. rewrite run_cons.
    pose proof (Add_ClientProxyConns client server meta w) as Hadd.
    rewrite wrap_int64_small in Hadd by lia.
    rewrite IH; rewrite Hadd; lia.
Qed.

(** One call of [Add] more than the signed 64-bit counter can count: the
    counter is negative, and no count is. *)
Lemma counters_wrap (k : nat) (client server : Conn) (meta : ConnMeta) (n : Network) :
  Z.of_nat k = 2 ^ 63 - 1 ->
  ~ counters_exact
      (exec (run (repeat (OpAdd client server meta) k ++ [OpAdd client server meta]))
         (fresh n)).
Proof.
  intros Hk (Hc & _). rewrite run_app, run_cons in Hc.
  unfold run at 1 in Hc. cbn [forEach] in Hc. rewrite exec_ret in Hc.
  rewrite Add_ClientProxyConns in Hc.
  rewrite adds_count_up in Hc by (cbn [fresh metrics zero_metrics ClientProxyConns]; lia).
  cbn [fresh metrics zero_metrics ClientProxyConns] in Hc. rewrite Hk in Hc.
  assert (Hw : wrap_int64 (0 + (2 ^ 63 - 1) + 1) = - 2 ^ 63) by reflexivity.
  rewrite Hw in Hc. unfold registered in Hc. lia.
Qed.

End BeyondTheRange.

(** ** The counters within the bounds of the registry *)

Section RegistryBounds.

Local Open Scope Z_scope.

Lemma wrap_int64_there_and_back (c : Z) :
  int64 c -> wrap_int64 (wrap_int64 (c + 1) + -1) = c.
Proof.
  unfold int64. intros Hc. destruct (Z.eq_dec c (2 ^ 63 - 1)) as [-> | Hne].
  - reflexivity.
  - rewrite (wrap_int64_small (c + 1)) by lia. rewrite wrap_int64_small by lia. lia.
Qed.

Lemma apply_deltas_there_and_back (meta : ConnMeta) (id : string) (m : Metrics) :
  int64_metrics m ->
  apply_deltas (-1) (with_ID meta id) (apply_deltas 1 meta m) = m.
Proof.
  intros (H1 & H2 & H3 & H4 & H5). unfold apply_deltas. cbn [with_ID Protocol HAProxyAddr].
  destruct m as [a b c d e]. cbn in H1, H2, H3, H4, H5.
  destruct (HasPrefix (Protocol meta) "https"), (decide (HAProxyAddr meta = ""));
    unfold add_ClientProxyConns, add_ProxyServerConns, add_ProxyHAProxyConns,
      add_HTTPConnCount, add_HTTPSConnCount; cbn;
    rewrite ?wrap_int64_there_and_back by assumption; reflexivity.
Qed.

Lemma step_Add (client server : Conn) (meta : ConnMeta) (w : World) :
  exec (step (OpAdd client server meta)) w = exec (Add client server meta) w.
Proof. unfold step. rewrite exec_bind, exec_ret. reflexivity. Qed.




(** Every run with fewer than 2^63 calls of [Add] stays within the bounds. *)
Lemma few_adds_within_bounds (ops : list Op) (k : nat) (w : World) :
  forallb is_add_remove ops = true ->
  registry_inv k w ->
  Z.of_nat (k + count_adds ops) < 2 ^ 63 ->
  within_bounds ops w.
Proof.
  revert k w. induction ops as [| o ops IH]; intros k w Hops Hinv Hk; [exact I |].
  cbn [forallb] in Hops. apply andb_true_iff in Hops as [Ho Hops].
  cbn [within_bounds].
  destruct o as [client server meta | id | filter]; [| | discriminate Ho].
  - assert (Hc : count_adds (OpAdd client server meta :: ops) = S (count_adds ops))
      by reflexivity.
    rewrite Hc in Hk.
    pose proof Hinv as (Hid & Hkeys & Hsize & _).
    split.
    + split; [apply next_key_fresh; [exact Hkeys | lia] | lia].
    + rewrite step_Add. apply (IH (S k)); [exact Hops | | lia].
      apply Add_preserves_inv; [exact Hinv | lia].
  - assert (Hc : count_adds (OpRemove id :: ops) = count_adds ops) by reflexivity.
    rewrite Hc in Hk. split; [exact I |].
    cbn [step]. apply (IH k); [exact Hops | | exact Hk].
    apply Remove_preserves_inv; [exact Hinv | lia].
Qed.

End RegistryBounds.

Section IdComesRound.

Local Open Scope Z_scope.

Lemma wrap_uint64_add (a b : N) :
  wrap_uint64 (wrap_uint64 a + b) = wrap_uint64 (a + b).
Proof. unfold wrap_uint64. apply N.Div0.add_mod_idemp_l. Qed.



(** A pair that comes and goes leaves the registry map and the counters as
    they were, and moves the id counter on by one. *)
Lemma come_and_go (client server : Conn) (meta : ConnMeta) (w : World) :
  conns (cm w) !! next_key w = None ->
  int64_metrics (metrics w) ->
  let w' := exec (Remove (next_key w)) (exec (Add client server meta) w) in
  conns (cm w') = conns (cm w) /\ metrics w' = metrics w /\ idSeq (cm w') = next_id w.
Proof.
  intros Hfresh Hrange. cbn zeta. unfold exec. rewrite Add_unfold. cbn [snd].
  erewrite Remove_unfold_present by (cbn [cm conns]; apply lookup_insert_eq).
  cbn [snd cm conns idSeq metrics Meta].
  split; [| split; [| reflexivity]].
  - rewrite delete_insert_eq. apply delete_id. exact Hfresh.
  - apply apply_deltas_there_and_back. exact Hrange.
Qed.











(** In particular every run with fewer than 2^63 calls of [Add] is within
    the bounds, however the calls of [Remove] fall. *)
Lemma few_adds_fit (ops : list Op) (n : Network) :
  forallb is_add_remove ops = true ->
  Z.of_nat (count_adds ops) < 2 ^ 63 ->
  within_bounds ops (fresh n).
Proof.
  intros Hops Hk. apply (few_adds_within_bounds ops 0); [exact Hops | apply fresh_inv | exact Hk].
Qed.

(** And so is every run in which pairs only come and go one after the
    other, as long as the id counter has not come round: 2^63 of them, for
    one. *)
Lemma churn_within_bounds (k : nat) (from : N) (w : World) :
  idSeq (cm w) = from ->
  (from < 2 ^ 64)%N ->
  int64_metrics (metrics w) ->
  (forall j : N, (1 <= j <= N.of_nat k)%N ->
     conns (cm w) !! ("conn-" +:+ pretty (wrap_uint64 (from + j))) = None) ->
  Z.of_nat (size (conns (cm w))) < 2 ^ 63 - 1 ->
  within_bounds (churn k from) w.
Proof.
  revert from w. induction k as [| k IH]; intros from w Hid Hlt Hrange Hfree Hsize; [exact I |].
  cbn [churn within_bounds].
  assert (Hkey : next_key w = "conn-" +:+ pretty (wrap_uint64 (from + 1)))
    by (unfold next_key, next_id; rewrite Hid; reflexivity).
  assert (Hfresh : conns (cm w) !! next_key w = None)
    by (rewrite Hkey; apply Hfree; lia).
  split; [split; [exact Hfresh | exact Hsize] |]. split; [exact I |].
  rewrite step_Add. cbn [step]. rewrite <- Hkey.
  destruct (come_and_go (TCPConn 2) (TCPConn 3) http_meta w Hfresh Hrange)
    as (Hc & Hm & Hi).
  cbn zeta in Hc, Hm, Hi.
  apply IH.
  - rewrite Hi. unfold next_id. rewrite Hid. reflexivity.
  - unfold wrap_uint64. apply N.mod_lt. discriminate.
  - rewrite Hm. exact Hrange.
  - intros j Hj. rewrite Hc, wrap_uint64_add.
    replace (from + 1 + j)%N with (from + (j + 1))%N by lia. apply Hfree. lia.
  - rewrite Hc. exact Hsize.
Qed.

End IdComesRound.

(** ** [CloseByFilter] *)

Section CloseByFilter.

Variable filter : ConnMeta -> bool.

Lemma conns_Delete_exec (key : string) (w : World) :
  exec (conns_Delete key) w
  = {| cm := {| conns := delete key (conns (cm w)); idSeq := idSeq (cm w) |};
       metrics := metrics w; net := net w; writers := writers w |}.
Proof. reflexivity. Qed.

(** One visit of [Range] in [CloseByFilter]: the entry leaves the map when
    the filter matches it; the counters are not touched. *)
Lemma close_visit (key : string) (pc : ProxyConnection) (w : World) :
  let w' := exec (if filter (Meta pc) then
                    bind (sendHTTPConnectionClose (Client pc)) (fun _ =>
                    bind (sendHTTPConnectionClose (Server pc)) (fun _ =>
                    bind (on_net (Conn.Close (Client pc))) (fun _ =>
                    bind (on_net (Conn.Close (Server pc))) (fun _ =>
                    conns_Delete key))))
                  else ret tt) w in
  metrics w' = metrics w
  /\ idSeq (cm w') = idSeq (cm w)
  /\ conns (cm w') = if filter (Meta pc) then delete key (conns (cm w)) else conns (cm w).
Proof.
  destruct (filter (Meta pc)); simpl; [| auto].
  unfold sendHTTPConnectionClose.
  rewrite !exec_bind, !exec_ret, conns_Delete_exec. simpl.
  rewrite !on_net_metrics, !on_net_cm. auto.
Qed.

Lemma close_visits (l : list (string * ProxyConnection)) (w : World) :
  let w' := exec (forEach l (fun '(key, pc) =>
                    if filter (Meta pc) then
                      bind (sendHTTPConnectionClose (Client pc)) (fun _ =>
                      bind (sendHTTPConnectionClose (Server pc)) (fun _ =>
                      bind (on_net (Conn.Close (Client pc))) (fun _ =>
                      bind (on_net (Conn.Close (Server pc))) (fun _ =>
                      conns_Delete key))))
                    else ret tt)) w in
  metrics w' = metrics w
  /\ idSeq (cm w') = idSeq (cm w)
  /\ conns (cm w')
     = fold_left (fun m kv => if filter (Meta (snd kv)) then delete (fst kv) m else m)
         l (conns (cm w)).
Proof.
  revert w. induction l as [| [key pc] l IH]; intros w; simpl; [auto |].
  rewrite exec_bind.
  destruct (close_visit key pc w) as (Hm & Hi & Hc).
  destruct (IH (exec (if filter (Meta pc) then
                    bind (sendHTTPConnectionClose (Client pc)) (fun _ =>
                    bind (sendHTTPConnectionClose (Server pc)) (fun _ =>
                    bind (on_net (Conn.Close (Client pc))) (fun _ =>
                    bind (on_net (Conn.Close (Server pc))) (fun _ =>
                    conns_Delete key))))
                  else ret tt) w)) as (Hm' & Hi' & Hc').
  rewrite Hm', Hi', Hc', Hm, Hi, Hc. auto.
Qed.

(** [CloseByFilter] changes no counter. *)
Lemma CloseByFilter_metrics (w : World) :
  metrics (exec (CloseByFilter filter) w) = metrics w.
Proof.
  unfold CloseByFilter. rewrite exec_bind. unfold get at 2, eval at 1, exec at 2. simpl.
  apply close_visits.
Qed.

Lemma CloseByFilter_conns (w : World) :
  conns (cm (exec (CloseByFilter filter) w))
  = fold_left (fun m kv => if filter (Meta (snd kv)) then delete (fst kv) m else m)
      (map_to_list (conns (cm w))) (conns (cm w)).
Proof.
  unfold CloseByFilter. rewrite exec_bind. unfold get at 2, eval at 1, exec at 2. simpl.
  apply close_visits.
Qed.

End CloseByFilter.

Lemma lookup_fold_delete (l : list (string * ProxyConnection))
    (m : gmap string ProxyConnection) (k : string) :
  fold_left (fun m kv => delete (fst kv) m) l m !! k
  = if decide (k ∈ l.*1) then None else m !! k.
Proof.
  revert m. induction l as [| [key pc] l IH]; intros m.
  - destruct (decide (k ∈ ([] : list (string * ProxyConnection)).*1)) as [H | H];
      [inversion H | reflexivity].
  - cbn [fold_left fst]. rewrite IH, lookup_delete. rewrite fmap_cons. cbn [fst].
    destruct (decide (k ∈ l.*1)) as [Hin | Hin],
      (decide (k ∈ key :: l.*1)) as [Hin' | Hin'],
      (decide (key = k)) as [Heq | Hne]; try reflexivity.
    + exfalso. apply Hin'. right. exact Hin.
    + exfalso. apply Hin'. right. exact Hin.
    + apply elem_of_cons in Hin' as [Heq | Hin']; [congruence | contradiction].
    + exfalso. apply Hin'. rewrite Heq. left.
Qed.

(** After [CloseByFilter] with the always-true predicate the registry is
    empty. *)
Lemma CloseByFilter_all_empties (w : World) :
  eval Stats (exec (CloseByFilter (fun _ => true)) w) = [].
Proof.
  unfold Stats. rewrite eval_bind. unfold get, eval, exec, ret. simpl.
  fold (exec (CloseByFilter (fun _ => true)) w).
  rewrite CloseByFilter_conns.
  assert (E : fold_left (fun m (kv : string * ProxyConnection) => delete (fst kv) m)
                (map_to_list (conns (cm w))) (conns (cm w)) = ∅).
  { apply map_eq. intros k. rewrite lookup_fold_delete, lookup_empty.
    case_decide as H; [reflexivity |].
    destruct (conns (cm w) !! k) as [pc|] eqn:E; [| reflexivity].
    exfalso. apply H. apply list_elem_of_fmap. exists (k, pc).
    split; [reflexivity |]. apply elem_of_map_to_list. exact E. }
  rewrite E, map_to_list_empty. reflexivity.
Qed.

(** C1 at a failing input: a fresh manager, one [Add] of an http pair, then
    [CloseByFilter] with the always-true predicate.  The registry is empty
    and three of the five counters are still 1: [CloseByFilter] deletes the
    entry from the map itself and never applies the deltas [Remove] does. *)
Theorem close_all_leaves_counters :
  eval Stats (exec (run [OpAdd (TCPConn 0) (TCPConn 1) http_meta;
                         OpCloseByFilter (fun _ => true)]) (fresh no_network)) = []
  /\ metrics (exec (run [OpAdd (TCPConn 0) (TCPConn 1) http_meta;
                         OpCloseByFilter (fun _ => true)]) (fresh no_network))
     = {| ClientProxyConns := 1; ProxyServerConns := 1; ProxyHAProxyConns := 0;
          HTTPConnCount := 1; HTTPSConnCount := 0 |}.
Proof. split; vm_compute; reflexivity. Qed.

(** ** The SNI parser *)

(** C3 at a failing input: the peeked bytes open with content type 0x17,
    which is no handshake record, and the extraction returns the host name
    "example.com" with a nil error, as it does for every input. *)
Theorem extractSNI_accepts_invalid_header :
  extractSNIFromTLSClientHello not_a_handshake = ("example.com", None)
  /\ fst (fst (eval (peekClientHelloSNI 0) (accepted [not_a_handshake] [])))
     = "example.com"
  /\ forall data, extractSNIFromTLSClientHello data = ("example.com", None).
Proof.
  split; [reflexivity |]. split; [vm_compute; reflexivity |]. reflexivity.
Qed.

(** ** The HTTP front door *)

(** On a dial failure after a successful hijack, for every request and
    state: the 502 is not delivered and the registry is as before. *)
Lemma dial_failure_after_hijack (w : N) (r : Request) (filter : RequestFilter)
    (now : N) (s : World) (rw : ResponseWriter) :
  AllowHTTP filter (Host r) (URL_Path r) = true ->
  writers s !! w = Some rw ->
  w_hijacker rw = true -> w_hijacked rw = false -> w_hijack_err rw = None ->
  origins (net s) !! (Host r +:+ ":80") = None ->
  replies_on w (exec (handleHTTPProxy w r filter now) s) = Some (w_replies rw)
  /\ cm (exec (handleHTTPProxy w r filter now) s) = cm s
  /\ metrics (exec (handleHTTPProxy w r filter now) s) = metrics s.
Proof.
  intros Hallow Hw Hhj Hnot Hok Hdial.
  unfold handleHTTPProxy. rewrite Hallow. cbn [negb].
  unfold is_Hijacker, Hijack, defer, Flush, http_Error, on_net, Bufio.NewReader,
    Bufio.put_reader, Dial, Conn.Close, sock_Close, bind, get, modify, ret, exec,
    replies_on, set_writers, set_readers.
  repeat first [ rewrite Hw | rewrite Hhj | rewrite Hnot | rewrite Hok | rewrite Hdial
               | progress cbn -[lookup insert alter] ].
  destruct (socks (net s) !! w_conn rw) as [sk |]; [destruct (closed sk) |];
    cbn -[lookup insert alter];
    rewrite lookup_alter_eq, lookup_insert_eq; cbn; auto.
Qed.

(** C7 at a failing input: the host is allowed and nothing listens on
    example.com:80.  The handler has hijacked the connection before it
    dials, so the 502 it then writes through the response writer is
    dropped: no reply reaches the client, no byte is written to its socket,
    and the socket is closed.  No registry entry remains. *)
Theorem dial_failure_sends_no_502 :
  dialed (net (exec (handleHTTPProxy 0 (get_request "example.com") NewRequestFilter 0)
                 (serving [])))
  = ["example.com:80"]
  /\ replies_on 0 (exec (handleHTTPProxy 0 (get_request "example.com") NewRequestFilter 0)
                     (serving [])) = Some []
  /\ sent_to 0 (exec (handleHTTPProxy 0 (get_request "example.com") NewRequestFilter 0)
                  (serving [])) = Some []
  /\ is_closed 0 (exec (handleHTTPProxy 0 (get_request "example.com") NewRequestFilter 0)
                    (serving [])) = Some true
  /\ eval Stats (exec (handleHTTPProxy 0 (get_request "example.com") NewRequestFilter 0)
                   (serving [])) = [].
Proof. repeat split; vm_compute; reflexivity. Qed.

(** C8, as stated, fails: for a denied host the handler replies and
    returns; the client socket is not closed. *)
Lemma denied_request_leaves_client_open :
  AllowHTTP NewRequestFilter (Host (get_request "evil.test"))
    (URL_Path (get_request "evil.test")) = false
  /\ replies_on 0 (exec (handleHTTPProxy 0 (get_request "evil.test") NewRequestFilter 0)
                     (serving ["evil.test:80"]))
     = Some [(403%Z, "Blocked by proxy filter")]
  /\ is_closed 0 (exec (handleHTTPProxy 0 (get_request "evil.test") NewRequestFilter 0)
                    (serving ["evil.test:80"])) = Some false.
Proof. repeat split; vm_compute; reflexivity. Qed.

(** C8, amended: when the filter denies the Host of a request, the handler
    replies 403 Forbidden with the text "Blocked by proxy filter" and does
    nothing else: no socket is touched (no dial, and the client connection
    is not closed by the handler), the registry and the counters are as
    before. *)
Theorem denied_request_gets_403 (w : N) (r : Request) (filter : RequestFilter)
    (now : N) (s : World) (rw : ResponseWriter) :
  AllowHTTP filter (Host r) (URL_Path r) = false ->
  writers s !! w = Some rw ->
  w_hijacked rw = false ->
  replies_on w (exec (handleHTTPProxy w r filter now) s)
  = Some ((w_replies rw ++ [(StatusForbidden, "Blocked by proxy filter")])%list)
  /\ net (exec (handleHTTPProxy w r filter now) s) = net s
  /\ cm (exec (handleHTTPProxy w r filter now) s) = cm s
  /\ metrics (exec (handleHTTPProxy w r filter now) s) = metrics s.
Proof.
  intros Hdeny Hw Hhj. unfold handleHTTPProxy. rewrite Hdeny. simpl.
  unfold http_Error, modify, exec, replies_on, set_writers. simpl.
  rewrite lookup_alter_eq, Hw. simpl. rewrite Hhj. simpl. auto.
Qed.

Lemma denied_request_gets_403_witness :
  AllowHTTP NewRequestFilter (Host (get_request "evil.test"))
    (URL_Path (get_request "evil.test")) = false
  /\ net (exec (handleHTTPProxy 0 (get_request "evil.test") NewRequestFilter 0)
            (serving ["evil.test:80"]))
     = net (serving ["evil.test:80"]).
Proof.
  split; [reflexivity |].
  apply (denied_request_gets_403 0 (get_request "evil.test") NewRequestFilter 0
           (serving ["evil.test:80"]) server_writer); reflexivity.
Defined.

(** ** The TLS front door *)

(** C2 at a failing input: the client sends a 1024-byte ClientHello and
    then "ABC"; the allowlist holds the SNI and both upstreams answer.  In
    passthrough mode the upstream is sent the ClientHello and "ABC".  In
    termination mode the pair is registered and pumped with the raw socket,
    whose first 1024 bytes the peek has taken into its buffer, and the
    back end is sent "ABC" only. *)
Theorem termination_mode_drops_peeked_bytes :
  sent_to 1 (exec (serveTLS false 0 NewRequestFilter "127.0.0.1:8443" 0)
               (fresh (accepted [client_hello; ABC] ["127.0.0.1:8443"; "example.com:443"])))
  = Some ((client_hello ++ ABC)%list)
  /\ dialed (net (exec (serveTLS true 0 NewRequestFilter "127.0.0.1:8443" 0)
               (fresh (accepted [client_hello; ABC] ["127.0.0.1:8443"; "example.com:443"]))))
     = ["127.0.0.1:8443"]
  /\ sent_to 1 (exec (serveTLS true 0 NewRequestFilter "127.0.0.1:8443" 0)
               (fresh (accepted [client_hello; ABC] ["127.0.0.1:8443"; "example.com:443"])))
     = Some ABC.
Proof. repeat split; vm_compute; reflexivity. Qed.

(** ** Reading sockets and buffered readers *)

Section Streams.

Implicit Types (n : Network) (fd r : N) (segs : list (list byte)) (buf data : list byte).

Lemma recv_spec (cap : nat) segs :
  (0 < cap)%nat ->
  (fst (recv cap segs) ++ concat (snd (recv cap segs)))%list = concat segs
  /\ (length (fst (recv cap segs)) <= cap)%nat
  /\ (fst (recv cap segs) = [] -> concat segs = []).
Proof.
  intros Hcap. induction segs as [| seg segs IH]; simpl.
  - split; [reflexivity |]. split; [lia | reflexivity].
  - destruct seg as [| b seg]; [exact IH |].
    cbn [fst snd concat]. split; [| split].
    + rewrite app_assoc, take_drop. reflexivity.
    + rewrite length_take. lia.
    + destruct cap; [lia | discriminate].
Qed.

Lemma open_with_set_socks n fd (s : Socket) :
  closed s = false -> open_with (set_socks <[fd := s]> n) fd (inbound s).
Proof.
  intros Hc. exists s. simpl. rewrite lookup_insert_eq. auto.
Qed.

(** A read of an open socket: some of the pending bytes, or [EOF] when
    there are none. *)
Lemma sock_Read_open n fd segs (cap : nat) :
  open_with n fd segs -> (0 < cap)%nat ->
  exists data segs' n',
    sock_Read fd cap n = ((data, eof_if_empty data), n')
    /\ open_with n' fd segs'
    /\ readers n' = readers n
    /\ (data ++ concat segs')%list = concat segs
    /\ (data = [] -> concat segs = []).
Proof.
  intros (s & Hs & Hc & Hin) Hcap. unfold sock_Read. rewrite Hs, Hc.
  destruct (Nat.eqb_spec cap 0) as [-> | _]; [lia |].
  destruct (recv_spec cap (inbound s) Hcap) as (Hcat & _ & Hnil).
  destruct (recv cap (inbound s)) as [data segs'] eqn:E. simpl in Hcat, Hnil.
  exists data, segs'. rewrite Hin in Hcat, Hnil.
  destruct data as [| b data]; eexists; (split; [reflexivity |]);
    (split; [apply (open_with_set_socks n fd
                      {| remote := remote s; inbound := segs'; outbound := outbound s;
                         closed := false |}); reflexivity |]); auto.
Qed.

Lemma the_reader_with n r fd buf e :
  reader_with n r fd buf e ->
  Bufio.the_reader r n = ({| rd := fd; buffered := buf; rerr := e |}, n).
Proof. unfold reader_with, Bufio.the_reader. intros ->. reflexivity. Qed.

Lemma put_reader_with n r fd segs (b : Reader) :
  open_with n fd segs ->
  reader_with (exec (Bufio.put_reader r b) n) r (rd b) (buffered b) (rerr b)
  /\ open_with (exec (Bufio.put_reader r b) n) fd segs.
Proof.
  intros Ho. unfold Bufio.put_reader, modify, exec, reader_with. simpl.
  rewrite lookup_insert_eq. destruct b. split; [reflexivity | exact Ho].
Qed.

Lemma reader_with_same_readers n n' r fd buf e :
  readers n' = readers n -> reader_with n r fd buf e -> reader_with n' r fd buf e.
Proof. unfold reader_with. intros ->. auto. Qed.

(** A read through a buffered reader with no pending error over an open
    socket: the buffered bytes first, then the socket's. *)
Lemma Bufio_Read_open n r fd buf segs (cap : nat) :
  reader_with n r fd buf None -> open_with n fd segs -> (0 < cap)%nat ->
  exists data buf' segs' n',
    Bufio.Read r cap n = ((data, eof_if_empty data), n')
    /\ reader_with n' r fd buf' None
    /\ open_with n' fd segs'
    /\ (data ++ buf' ++ concat segs')%list = (buf ++ concat segs)%list
    /\ (data = [] -> (buf ++ concat segs)%list = []).
Proof.
  intros Hr Ho Hcap. unfold Bufio.Read, bind.
  rewrite (the_reader_with _ _ _ _ _ Hr). cbn [rd buffered rerr].
  destruct buf as [| b buf].
  - destruct (Nat.eqb_spec cap 0) as [-> | _]; [lia |].
    destruct (Nat.leb Bufio.defaultBufSize cap).
    + destruct (sock_Read_open n fd segs cap Ho Hcap)
        as (data & segs' & n' & -> & Ho' & Hrd & Hcat & Hnil).
      exists data, [], segs', n'. cbn [ret]. split; [reflexivity |].
      split; [exact (reader_with_same_readers _ _ _ _ _ _ Hrd Hr) |].
      split; [exact Ho' |]. split; [exact Hcat | exact Hnil].
    + assert (H4096 : (0 < Bufio.defaultBufSize)%nat) by (unfold Bufio.defaultBufSize; lia).
      destruct (sock_Read_open n fd segs Bufio.defaultBufSize Ho H4096)
        as (data & segs' & n' & -> & Ho' & Hrd & Hcat & Hnil).
      destruct data as [| b data].
      * exists [], [], segs', n'. cbn [eof_if_empty ret]. split; [reflexivity |].
        split; [exact (reader_with_same_readers _ _ _ _ _ _ Hrd Hr) |].
        split; [exact Ho' |]. split; [exact Hcat | exact Hnil].
      * cbn [eof_if_empty].
        destruct (put_reader_with n' r fd segs'
                    {| rd := fd; buffered := drop cap (b :: data); rerr := None |} Ho')
          as [Hr'' Ho''].
        exists (take cap (b :: data)), (drop cap (b :: data)), segs'.
        eexists. rewrite (run_pair (Bufio.put_reader _ _) n'). cbn [ret].
        split; [destruct cap as [| cap]; [lia | reflexivity] |].
        split; [exact Hr'' |]. split; [exact Ho'' |].
        split; [rewrite app_assoc, take_drop; exact Hcat |].
        destruct cap; [lia | discriminate].
  - destruct (put_reader_with n r fd segs
                {| rd := fd; buffered := drop cap (b :: buf); rerr := None |} Ho)
      as [Hr'' Ho''].
    exists (take cap (b :: buf)), (drop cap (b :: buf)), segs.
    eexists. rewrite (run_pair (Bufio.put_reader _ _) n). cbn [ret].
    split; [destruct cap as [| cap]; [lia | reflexivity] |].
    split; [exact Hr'' |]. split; [exact Ho'' |].
    split; [rewrite app_assoc, take_drop; reflexivity |].
    destruct cap; [lia | discriminate].
Qed.

End Streams.

Section ReadToEnd.

Implicit Types (n : Network) (fd r : N) (segs : list (list byte)) (buf data : list byte).

Lemma eof_if_empty_cases data :
  (data = [] /\ eof_if_empty data = Some EOF)
  \/ ((0 < length data)%nat /\ eof_if_empty data = None).
Proof. destruct data; simpl; [left | right]; split; auto; lia. Qed.

(** Reading an open socket to its end gives all the pending bytes. *)
Lemma read_loop_socket (rounds cap : nat) n fd segs :
  open_with n fd segs -> (0 < cap)%nat -> (length (concat segs) < rounds)%nat ->
  eval (Conn.read_loop rounds cap (FromConn (TCPConn fd))) n = Some (concat segs, EOF).
Proof.
  revert n segs. induction rounds as [| rounds IH]; intros n segs Ho Hcap Hlen; [lia |].
  cbn [Conn.read_loop]. rewrite eval_bind. cbn [Conn.source_Read Conn.Read].
  destruct (sock_Read_open n fd segs cap Ho Hcap)
    as (data & segs' & n' & E & Ho' & _ & Hcat & Hnil).
  unfold eval at 2, exec at 1. rewrite E. cbn [fst snd].
  destruct (eof_if_empty_cases data) as [[-> ->] | [Hpos ->]].
  - rewrite Hnil by reflexivity. reflexivity.
  - rewrite eval_bind.
    assert (Hlt : (length (concat segs') < rounds)%nat).
    { apply (f_equal (@length byte)) in Hcat. rewrite length_app in Hcat. lia. }
    rewrite (IH n' segs' Ho' Hcap Hlt). unfold eval, ret. simpl. rewrite Hcat. reflexivity.
Qed.

(** Reading a buffered reader over an open socket to its end gives the
    buffered bytes and then all the pending bytes of the socket. *)
Lemma read_loop_reader (rounds cap : nat) (src : Source) n fd r buf segs :
  src = FromReader r \/ (exists c, src = FromConn (connWithBufferedReader c r)) ->
  reader_with n r fd buf None -> open_with n fd segs -> (0 < cap)%nat ->
  (length buf + length (concat segs) < rounds)%nat ->
  eval (Conn.read_loop rounds cap src) n = Some ((buf ++ concat segs)%list, EOF).
Proof.
  intros Hsrc. revert n buf segs.
  induction rounds as [| rounds IH]; intros n buf segs Hr Ho Hcap Hlen; [lia |].
  cbn [Conn.read_loop]. rewrite eval_bind.
  assert (Hread : Conn.source_Read src cap = Bufio.Read r cap)
    by (destruct Hsrc as [-> | [c ->]]; reflexivity).
  rewrite Hread.
  destruct (Bufio_Read_open n r fd buf segs cap Hr Ho Hcap)
    as (data & buf' & segs' & n' & E & Hr' & Ho' & Hcat & Hnil).
  unfold eval at 2, exec at 1. rewrite E. cbn [fst snd].
  destruct (eof_if_empty_cases data) as [[-> ->] | [Hpos ->]].
  - rewrite Hnil by reflexivity. reflexivity.
  - rewrite eval_bind.
    assert (Hlt : (length buf' + length (concat segs') < rounds)%nat).
    { apply (f_equal (@length byte)) in Hcat. rewrite !length_app in Hcat. lia. }
    rewrite (IH n' buf' segs' Hr' Ho' Hcap Hlt). unfold eval, ret. simpl.
    rewrite Hcat. reflexivity.
Qed.

End ReadToEnd.

(** ** The peek *)

Section Peek.

Implicit Types (n : Network) (fd r : N) (segs : list (list byte)) (buf data : list byte).

Lemma peek_fill_stops (rounds k : nat) n r (b : Reader) :
  Bufio.the_reader r n = (b, n) -> Bufio.peek_wants_more k b = false ->
  Bufio.peek_fill rounds k r n = (tt, n).
Proof.
  intros Hb Hstop. destruct rounds; [reflexivity |].
  cbn [Bufio.peek_fill]. unfold bind. rewrite Hb, Hstop. reflexivity.
Qed.

(** One [fill] of a reader with room over an open socket. *)
Lemma fill_open n r fd buf segs :
  reader_with n r fd buf None -> open_with n fd segs ->
  (length buf < Bufio.defaultBufSize)%nat ->
  exists data segs' n',
    Bufio.fill r n = (tt, n')
    /\ reader_with n' r fd (buf ++ data) (eof_if_empty data)
    /\ open_with n' fd segs'
    /\ (data ++ concat segs')%list = concat segs.
Proof.
  intros Hr Ho Hroom. unfold Bufio.fill, bind.
  rewrite (the_reader_with _ _ _ _ _ Hr). cbn [rd buffered rerr].
  destruct (sock_Read_open n fd segs (Bufio.defaultBufSize - length buf) Ho ltac:(lia))
    as (data & segs' & n' & -> & Ho' & _ & Hcat & _).
  destruct (put_reader_with n' r fd segs'
              {| rd := fd; buffered := buf ++ data;
                 rerr := match eof_if_empty data with Some e => Some e | None => None end |}
              Ho') as [Hr'' Ho''].
  exists data, segs'. eexists. rewrite (run_pair (Bufio.put_reader _ _) n').
  split; [reflexivity |]. split; [| split; [exact Ho'' | exact Hcat]].
  cbn [rd buffered rerr] in Hr''. destruct (eof_if_empty data); exact Hr''.
Qed.

(** The loop of [Peek] over an open socket: the bytes it buffers are the
    first pending ones, in order; an error is pending only when fewer than
    [k] bytes are buffered; and the loop is left by its condition when it
    is given [k] rounds. *)
Lemma peek_fill_open (rounds k : nat) n r fd buf e segs :
  reader_with n r fd buf e -> open_with n fd segs ->
  e = None \/ (length buf < k)%nat ->
  exists buf' e' segs' n',
    Bufio.peek_fill rounds k r n = (tt, n')
    /\ reader_with n' r fd buf' e'
    /\ open_with n' fd segs'
    /\ (buf' ++ concat segs')%list = (buf ++ concat segs)%list
    /\ (e' = None \/ (length buf' < k)%nat)
    /\ (Bufio.peek_wants_more k {| rd := fd; buffered := buf'; rerr := e' |} = false
        \/ (length buf + rounds <= length buf')%nat).
Proof.
  revert n buf e segs. induction rounds as [| rounds IH]; intros n buf e segs Hr Ho He.
  - exists buf, e, segs, n. repeat split; auto. right. lia.
  - destruct (Bufio.peek_wants_more k {| rd := fd; buffered := buf; rerr := e |}) eqn:Ewant.
    2: { exists buf, e, segs, n.
         rewrite (peek_fill_stops _ _ _ _ _ (the_reader_with _ _ _ _ _ Hr) Ewant).
         repeat split; auto. }
    cbn [Bufio.peek_fill]. unfold bind at 1.
    rewrite (the_reader_with _ _ _ _ _ Hr), Ewant.
    unfold Bufio.peek_wants_more in Ewant. cbn [buffered rerr] in Ewant.
    apply andb_true_iff in Ewant as [Ewant Herr].
    apply andb_true_iff in Ewant as [Hk Hroom].
    apply Nat.ltb_lt in Hk, Hroom. destruct e as [e |]; [discriminate |].
    destruct (fill_open n r fd buf segs Hr Ho Hroom)
      as (data & segs1 & n1 & Efill & Hr1 & Ho1 & Hcat1).
    unfold bind. rewrite Efill.
    destruct (eof_if_empty_cases data) as [[-> Eeof] | [Hpos Eeof]].
    + (* the socket is at its end: the error is recorded and the loop stops *)
      rewrite Eeof in Hr1. rewrite app_nil_r in Hr1.
      exists buf, (Some EOF), segs1, n1.
      rewrite (peek_fill_stops rounds k n1 r _ (the_reader_with _ _ _ _ _ Hr1))
        by (unfold Bufio.peek_wants_more; cbn [rerr]; apply andb_false_r).
      split; [reflexivity |]. split; [exact Hr1 |]. split; [exact Ho1 |].
      split; [simpl in Hcat1; rewrite Hcat1; reflexivity |].
      split; [right; exact Hk |]. left.
      unfold Bufio.peek_wants_more. cbn [rerr]. apply andb_false_r.
    + rewrite Eeof in Hr1.
      destruct (IH n1 (buf ++ data)%list None segs1 Hr1 Ho1 (or_introl eq_refl))
        as (buf' & e' & segs' & n' & -> & Hr' & Ho' & Hcat' & He' & Hdone).
      exists buf', e', segs', n'. split; [reflexivity |].
      split; [exact Hr' |]. split; [exact Ho' |].
      split; [rewrite Hcat', <- app_assoc, Hcat1; reflexivity |].
      split; [exact He' |].
      destruct Hdone as [Hdone | Hdone]; [left; exact Hdone |].
      right. rewrite length_app in Hdone. lia.
Qed.

Lemma NewReader_open n fd segs :
  open_with n fd segs ->
  reader_with (exec (Bufio.NewReader fd) n) (eval (Bufio.NewReader fd) n) fd [] None
  /\ open_with (exec (Bufio.NewReader fd) n) fd segs.
Proof.
  intros Ho. unfold Bufio.NewReader, exec, eval, reader_with. simpl.
  rewrite lookup_insert_eq. split; [reflexivity | exact Ho].
Qed.

(** A successful [Peek] over an open socket, from an empty reader: the
    reader then holds the first bytes of the stream with no error pending,
    and the rest is still with the socket. *)
Lemma Peek_open (k : nat) n r fd segs data n' :
  reader_with n r fd [] None -> open_with n fd segs ->
  Bufio.Peek r k n = ((data, None), n') ->
  exists buf' segs',
    reader_with n' r fd buf' None
    /\ open_with n' fd segs'
    /\ (buf' ++ concat segs')%list = concat segs
    /\ data = take k buf'
    /\ (k <= length buf')%nat.
Proof.
  intros Hr Ho. unfold Bufio.Peek, bind at 1.
  destruct (peek_fill_open k k n r fd [] None segs Hr Ho (or_introl eq_refl))
    as (buf' & e' & segs' & n1 & -> & Hr1 & Ho1 & Hcat & He' & _).
  unfold bind at 1. rewrite (the_reader_with _ _ _ _ _ Hr1). cbn [buffered].
  destruct (Nat.ltb_spec (length buf') k) as [Hshort | Hfull].
  - unfold bind. destruct (Bufio.readErr r n1) as [err n2]. cbn [ret]. discriminate.
  - cbn [ret]. intros E. injection E as <- <-.
    destruct He' as [-> | Hlt]; [| lia].
    exists buf', segs'. auto.
Qed.

End Peek.

(** ** The loops end by themselves *)

Section Totality.

Implicit Types (n : Network) (fd r : N) (segs : list (list byte)) (buf data : list byte).

Lemma recv_length (cap : nat) segs :
  (0 < cap)%nat ->
  (length (fst (recv cap segs)) + length (concat (snd (recv cap segs))))%nat
  = length (concat segs).
Proof.
  intros Hcap. destruct (recv_spec cap segs Hcap) as (Hcat & _ & _).
  apply (f_equal (@length byte)) in Hcat. rewrite length_app in Hcat. exact Hcat.
Qed.

(** Any read of any socket, in any state: an error, or at least one byte
    taken from what is pending. *)
Lemma sock_Read_progress fd (cap : nat) n :
  (0 < cap)%nat ->
  exists data err n',
    sock_Read fd cap n = ((data, err), n')
    /\ readers n' = readers n
    /\ ((err <> None /\ data = [])
        \/ (err = None /\ (0 < length data)%nat
            /\ (length data + Conn.pending_fd fd n')%nat = Conn.pending_fd fd n)).
Proof.
  intros Hcap. unfold sock_Read.
  destruct (socks n !! fd) as [s |] eqn:Es.
  2: { exists [], (Some ErrClosed), n. split; [reflexivity |]. split; [reflexivity |].
       left. split; [discriminate | reflexivity]. }
  destruct (closed s).
  { exists [], (Some ErrClosed), n. split; [reflexivity |]. split; [reflexivity |].
    left. split; [discriminate | reflexivity]. }
  destruct (Nat.eqb_spec cap 0) as [-> | _]; [lia |].
  pose proof (recv_length cap (inbound s) Hcap) as Hlen.
  destruct (recv cap (inbound s)) as [data segs'] eqn:E. cbn [fst snd] in Hlen.
  destruct data as [| b data].
  - eexists [], (Some EOF), _. split; [reflexivity |]. split; [reflexivity |].
    left. split; [discriminate | reflexivity].
  - eexists (b :: data), None, _. split; [reflexivity |]. split; [reflexivity |].
    right. split; [reflexivity |]. split; [simpl; lia |].
    unfold Conn.pending_fd. simpl. rewrite lookup_insert_eq, Es. simpl in *. exact Hlen.
Qed.

Lemma the_reader_pure r n : Bufio.the_reader r n = (eval (Bufio.the_reader r) n, n).
Proof. reflexivity. Qed.

Lemma the_reader_after_put r (b : Reader) n :
  eval (Bufio.the_reader r) (exec (Bufio.put_reader r b) n) = b.
Proof.
  unfold Bufio.the_reader, Bufio.put_reader, modify, eval, exec. simpl.
  rewrite lookup_insert_eq. reflexivity.
Qed.

Lemma peek_fill_step (rounds k : nat) r n :
  exec (Bufio.peek_fill (S rounds) k r) n
  = if Bufio.peek_wants_more k (eval (Bufio.the_reader r) n)
    then exec (Bufio.peek_fill rounds k r) (exec (Bufio.fill r) n)
    else n.
Proof.
  cbn [Bufio.peek_fill]. rewrite exec_bind.
  replace (exec (Bufio.the_reader r) n) with n by reflexivity.
  destruct (Bufio.peek_wants_more k (eval (Bufio.the_reader r) n)); [| reflexivity].
  rewrite exec_bind. reflexivity.
Qed.

(** What [fill] leaves in the reader, in any state. *)
Lemma fill_reader r n :
  (length (buffered (eval (Bufio.the_reader r) n)) < Bufio.defaultBufSize)%nat ->
  exists data err,
    eval (Bufio.the_reader r) (exec (Bufio.fill r) n)
    = {| rd := rd (eval (Bufio.the_reader r) n);
         buffered := buffered (eval (Bufio.the_reader r) n) ++ data;
         rerr := match err with
                 | Some e => Some e
                 | None => rerr (eval (Bufio.the_reader r) n)
                 end |}
    /\ ((err <> None /\ data = []) \/ (err = None /\ (0 < length data)%nat)).
Proof.
  intros Hroom. set (b := eval (Bufio.the_reader r) n) in *.
  unfold Bufio.fill. rewrite exec_bind.
  replace (exec (Bufio.the_reader r) n) with n by reflexivity. fold b.
  destruct (sock_Read_progress (rd b) (Bufio.defaultBufSize - length (buffered b)) n
              ltac:(lia)) as (data & err & n' & E & _ & Hcase).
  exists data, err. rewrite exec_bind. unfold eval at 2, exec at 2. rewrite E.
  cbn [fst snd]. rewrite the_reader_after_put. split; [reflexivity |].
  destruct Hcase as [[H1 H2] | (H1 & H2 & _)]; auto.
Qed.

(** The loop of [Peek], in any state, given [rounds] rounds: its condition
    has become false, or every round has added a byte to the buffer. *)
Lemma peek_fill_progress (rounds k : nat) r n :
  Bufio.peek_wants_more k (eval (Bufio.the_reader r) (exec (Bufio.peek_fill rounds k r) n))
  = false
  \/ (length (buffered (eval (Bufio.the_reader r) n)) + rounds
      <= length (buffered (eval (Bufio.the_reader r) (exec (Bufio.peek_fill rounds k r) n))))%nat.
Proof.
  revert n. induction rounds as [| rounds IH]; intros n.
  - right. cbn [Bufio.peek_fill]. rewrite exec_ret. lia.
  - rewrite peek_fill_step.
    destruct (Bufio.peek_wants_more k (eval (Bufio.the_reader r) n)) eqn:Ewant.
    2: { left. exact Ewant. }
    assert (Hroom : (length (buffered (eval (Bufio.the_reader r) n))
                     < Bufio.defaultBufSize)%nat).
    { unfold Bufio.peek_wants_more in Ewant.
      apply andb_true_iff in Ewant as [Ewant _]. apply andb_true_iff in Ewant as [_ H].
      apply Nat.ltb_lt in H. exact H. }
    destruct (fill_reader r n Hroom) as (data & err & Hb' & Hcase).
    destruct (IH (exec (Bufio.fill r) n)) as [Hdone | Hgrow]; [left; exact Hdone |].
    rewrite Hb' in Hgrow. cbn [buffered] in Hgrow. rewrite length_app in Hgrow.
    destruct Hcase as [[Herr ->] | [-> Hpos]].
    + left. destruct err as [e |]; [| congruence].
      assert (Hstop : Bufio.peek_wants_more k
                        (eval (Bufio.the_reader r) (exec (Bufio.fill r) n)) = false).
      { rewrite Hb'. unfold Bufio.peek_wants_more. cbn [rerr]. apply andb_false_r. }
      unfold exec at 1.
      rewrite (peek_fill_stops rounds k (exec (Bufio.fill r) n) r _
                 (the_reader_pure r _) Hstop).
      exact Hstop.
    + right. lia.
Qed.

(** [Peek] gives its loop as many rounds as bytes are asked for: the loop
    always ends because its condition fails, never for lack of rounds. *)
Lemma peek_fill_settles (k : nat) r n :
  Bufio.peek_wants_more k (eval (Bufio.the_reader r) (exec (Bufio.peek_fill k k r) n))
  = false.
Proof.
  destruct (peek_fill_progress k k r n) as [H | H]; [exact H |].
  unfold Bufio.peek_wants_more.
  assert (Hk : Nat.ltb (length (buffered (eval (Bufio.the_reader r)
                 (exec (Bufio.peek_fill k k r) n)))) k = false)
    by (apply Nat.ltb_ge; lia).
  rewrite Hk. reflexivity.
Qed.

End Totality.

Section CopyTotality.

Implicit Types (n : Network) (fd r : N) (segs : list (list byte)) (buf data : list byte).

Lemma pending_reader_put r (b : Reader) n :
  Conn.pending_reader r (exec (Bufio.put_reader r b) n)
  = (length (buffered b) + Conn.pending_fd (rd b) n)%nat.
Proof.
  unfold Conn.pending_reader, Conn.pending_fd, Bufio.put_reader, modify, exec. simpl.
  rewrite lookup_insert_eq. reflexivity.
Qed.

Lemma readErr_eval r n :
  eval (Bufio.readErr r) n = rerr (eval (Bufio.the_reader r) n).
Proof. reflexivity. Qed.

Lemma reader_present r n :
  buffered (eval (Bufio.the_reader r) n) <> [] \/ rerr (eval (Bufio.the_reader r) n) = None ->
  readers n !! r = Some (eval (Bufio.the_reader r) n).
Proof.
  unfold Bufio.the_reader, eval. simpl. destruct (readers n !! r); [reflexivity |].
  simpl. intros [H | H]; [congruence | discriminate].
Qed.

(** Any read through any buffered reader, in any state: an error, or fewer
    bytes left for later. *)
Lemma Bufio_Read_progress r (cap : nat) n :
  (0 < cap)%nat ->
  exists data err n',
    Bufio.Read r cap n = ((data, err), n')
    /\ (err <> None
        \/ (err = None /\ (Conn.pending_reader r n' < Conn.pending_reader r n)%nat)).
Proof.
  intros Hcap. unfold Bufio.Read, bind at 1. rewrite the_reader_pure.
  pose proof (reader_present r n) as Hpres.
  set (b := eval (Bufio.the_reader r) n) in *.
  destruct (buffered b) as [| x xs] eqn:Ebuf.
  - destruct (Nat.eqb_spec cap 0); [lia |].
    destruct (rerr b) as [e |] eqn:Eerr.
    { rewrite (run_pair (bind (Bufio.readErr r) _) n). eexists _, _, _.
      split; [rewrite eval_bind; reflexivity |]. left.
      rewrite readErr_eval. fold b. rewrite Eerr. discriminate. }
    specialize (Hpres (or_intror eq_refl)).
    destruct (Nat.leb Bufio.defaultBufSize cap).
    + destruct (sock_Read_progress (rd b) cap n Hcap)
        as (data & err & n' & E & Hrd & Hcase).
      unfold bind. rewrite E. cbn [ret]. exists data, err, n'. split; [reflexivity |].
      destruct Hcase as [[Herr _] | (-> & Hpos & Hpend)]; [left; exact Herr | right].
      split; [reflexivity |]. unfold Conn.pending_reader. rewrite Hrd, Hpres, Ebuf.
      simpl. lia.
    + assert (H4096 : (0 < Bufio.defaultBufSize)%nat) by (unfold Bufio.defaultBufSize; lia).
      destruct (sock_Read_progress (rd b) Bufio.defaultBufSize n H4096)
        as (data & err & n' & E & Hrd & Hcase).
      unfold bind at 1. rewrite E.
      destruct Hcase as [[Herr ->] | (-> & Hpos & Hpend)].
      * cbn [ret]. eexists _, _, _. split; [reflexivity |]. left. exact Herr.
      * destruct data as [| y ys]; [simpl in Hpos; lia |].
        unfold bind. rewrite (run_pair (Bufio.put_reader _ _) n'). cbn [ret].
        eexists _, _, _. split; [reflexivity |]. right. split; [reflexivity |].
        rewrite pending_reader_put. cbn [buffered rd].
        unfold Conn.pending_reader at 1. rewrite Hpres, Ebuf.
        rewrite length_drop. simpl in Hpend |- *. lia.
  - assert (Hp : readers n !! r = Some b) by (apply Hpres; left; discriminate).
    unfold bind. rewrite (run_pair (Bufio.put_reader _ _) n). cbn [ret].
    eexists _, _, _. split; [reflexivity |]. right. split; [reflexivity |].
    rewrite pending_reader_put. cbn [buffered rd].
    unfold Conn.pending_reader at 1. rewrite Hp, Ebuf.
    rewrite length_drop. simpl. lia.
Qed.

Lemma source_Read_progress (src : Source) (cap : nat) n :
  (0 < cap)%nat ->
  exists data err n',
    Conn.source_Read src cap n = ((data, err), n')
    /\ (err <> None
        \/ (err = None /\ (Conn.pending src n' < Conn.pending src n)%nat)).
Proof.
  intros Hcap. destruct src as [[fd | c r] | r]; cbn [Conn.source_Read Conn.Read Conn.pending].
  - destruct (sock_Read_progress fd cap n Hcap) as (data & err & n' & E & _ & Hcase).
    exists data, err, n'. split; [exact E |].
    destruct Hcase as [[Herr _] | (-> & Hpos & Hpend)]; [left; exact Herr | right].
    split; [reflexivity | lia].
  - apply Bufio_Read_progress, Hcap.
  - apply Bufio_Read_progress, Hcap.
Qed.

Lemma pending_fd_Write fd' (dst : Conn) data n :
  Conn.pending_fd fd' (exec (Conn.Write dst data) n) = Conn.pending_fd fd' n.
Proof.
  unfold Conn.Write, sock_Write, exec, Conn.pending_fd.
  destruct (socks n !! conn_fd dst) as [s |] eqn:Es; [| reflexivity].
  destruct (closed s); [reflexivity |]. simpl.
  destruct (decide (conn_fd dst = fd')) as [<- | Hne].
  - rewrite lookup_insert_eq, Es. reflexivity.
  - rewrite lookup_insert_ne by exact Hne. reflexivity.
Qed.

Lemma readers_Write (dst : Conn) data n :
  readers (exec (Conn.Write dst data) n) = readers n.
Proof.
  unfold Conn.Write, sock_Write, exec.
  destruct (socks n !! conn_fd dst) as [s |]; [| reflexivity].
  destruct (closed s); reflexivity.
Qed.

Lemma pending_Write (src : Source) (dst : Conn) data n :
  Conn.pending src (exec (Conn.Write dst data) n) = Conn.pending src n.
Proof.
  destruct src as [[fd | c r] | r]; cbn [Conn.pending];
    unfold Conn.pending_reader; rewrite ?readers_Write;
    try destruct (readers n !! r); rewrite ?pending_fd_Write; reflexivity.
Qed.

Lemma copyBufSize_pos : (0 < Conn.copyBufSize)%nat.
Proof. apply Nat.ltb_lt. vm_compute. reflexivity. Qed.

(** The loop of [io.Copy] ends by itself, whatever the state, when it is
    given more rounds than the source has bytes pending. *)
Lemma copy_loop_total (rounds : nat) (dst : Conn) (src : Source) n :
  (Conn.pending src n < rounds)%nat ->
  eval (Conn.copy_loop rounds dst src) n <> None.
Proof.
  revert n. induction rounds as [| rounds IH]; intros n Hlt; [lia |].
  cbn [Conn.copy_loop]. rewrite eval_bind.
  destruct (source_Read_progress src Conn.copyBufSize n copyBufSize_pos)
    as (data & err & n' & E & Hcase).
  unfold eval at 2, exec at 1. rewrite E. cbn [fst snd].
  rewrite eval_bind.
  set (wr := match data with [] => ret None | _ :: _ => Conn.Write dst data end).
  assert (Hpend : Conn.pending src (exec wr n') = Conn.pending src n').
  { subst wr. destruct data; [reflexivity | apply pending_Write]. }
  destruct (eval wr n') as [e |]; [discriminate |].
  destruct Hcase as [Herr | [-> Hless]].
  - destruct err as [[] |]; try discriminate. congruence.
  - apply IH. lia.
Qed.

(** [io.Copy] always returns. *)
Lemma Copy_returns (dst : Conn) (src : Source) n :
  eval (Conn.Copy dst src) n <> None.
Proof.
  unfold Conn.Copy, eval.
  fold (eval (Conn.copy_loop (2 + Conn.pending src n) dst src) n).
  apply copy_loop_total. lia.
Qed.

Lemma read_loop_total (rounds cap : nat) (src : Source) n :
  (0 < cap)%nat -> (Conn.pending src n < rounds)%nat ->
  eval (Conn.read_loop rounds cap src) n <> None.
Proof.
  intros Hcap. revert n. induction rounds as [| rounds IH]; intros n Hlt; [lia |].
  cbn [Conn.read_loop]. rewrite eval_bind.
  destruct (source_Read_progress src cap n Hcap) as (data & err & n' & E & Hcase).
  unfold eval at 2, exec at 1. rewrite E. cbn [fst snd].
  destruct Hcase as [Herr | [-> Hless]].
  - destruct err as [e |]; [discriminate | congruence].
  - rewrite eval_bind. specialize (IH n' ltac:(lia)).
    destruct (eval (Conn.read_loop rounds cap src) n') as [[rest e] |]; [discriminate |].
    congruence.
Qed.

(** Reading a source to its end always returns, for a buffer that is not
    empty. *)
Lemma ReadAll_returns (cap : nat) (src : Source) n :
  (0 < cap)%nat -> eval (Conn.ReadAll cap src) n <> None.
Proof.
  intros Hcap. unfold Conn.ReadAll, eval.
  fold (eval (Conn.read_loop (2 + Conn.pending src n) cap src) n).
  apply read_loop_total; [exact Hcap | lia].
Qed.

End CopyTotality.

(** ** The wrapped connection *)

(** C5: for every open client socket, when the SNI peeker returns a
    wrapped connection, reading that connection to its end yields exactly
    the bytes the socket had to deliver from its first byte on, the peeked
    ones included: the same bytes a read of the socket to its end would
    have yielded had there been no peek. *)
Theorem wrapped_stream_is_whole_stream (n : Network) (fd : N) (segs : list (list byte))
    (cap : nat) (sni : string) (wrapped : Conn) :
  open_with n fd segs ->
  (0 < cap)%nat ->
  eval (peekClientHelloSNI fd) n = (sni, Some wrapped, None) ->
  eval (Conn.ReadAll cap (FromConn wrapped)) (exec (peekClientHelloSNI fd) n)
  = Some (concat segs, EOF)
  /\ eval (Conn.ReadAll cap (FromConn (TCPConn fd))) n = Some (concat segs, EOF).
Proof.
  intros Ho Hcap Hpeek. split.
  2: { unfold Conn.ReadAll, eval. fold (eval (Conn.read_loop
         (2 + Conn.pending (FromConn (TCPConn fd)) n) cap (FromConn (TCPConn fd))) n).
       apply read_loop_socket; [exact Ho | exact Hcap |].
       destruct Ho as (s & Hs & _ & Hin). cbn [Conn.pending]. unfold Conn.pending_fd.
       rewrite Hs, Hin. lia. }
  destruct (NewReader_open n fd segs Ho) as [Hr0 Ho0].
  unfold eval, exec in Hpeek |- *. unfold peekClientHelloSNI, bind in Hpeek |- *.
  rewrite (run_pair (Bufio.NewReader fd) n) in Hpeek |- *.
  set (r := eval (Bufio.NewReader fd) n) in *.
  set (n0 := exec (Bufio.NewReader fd) n) in *.
  destruct (Bufio.Peek r 1024 n0) as [[data err] n1] eqn:Epeek.
  destruct err as [e |]; [discriminate Hpeek |].
  destruct (Peek_open 1024 n0 r fd segs data n1 Hr0 Ho0 Epeek)
    as (buf' & segs' & Hr1 & Ho1 & Hcat & _ & _).
  unfold extractSNIFromTLSClientHello in Hpeek |- *.
  destruct (decide ("example.com" = "")) as [Hempty | _]; [discriminate Hempty |].
  cbn [ret fst snd] in Hpeek |- *. injection Hpeek as _ <-.
  unfold Conn.ReadAll.
  fold (eval (Conn.read_loop
          (2 + Conn.pending (FromConn (connWithBufferedReader fd r)) n1) cap
          (FromConn (connWithBufferedReader fd r))) n1).
  rewrite <- Hcat.
  apply (read_loop_reader _ cap _ n1 fd r buf' segs'); auto.
  - right. exists fd. reflexivity.
  - cbn [Conn.pending]. unfold Conn.pending_reader, Conn.pending_fd.
    unfold reader_with in Hr1. rewrite Hr1. cbn [buffered rd].
    destruct Ho1 as (s & Hs & _ & Hin). rewrite Hs, Hin. lia.
Qed.

Lemma wrapped_stream_is_whole_stream_witness :
  open_with (accepted [client_hello; ABC] []) 0 [client_hello; ABC]
  /\ eval (Conn.ReadAll 512 (FromConn (connWithBufferedReader 0 0)))
       (exec (peekClientHelloSNI 0) (accepted [client_hello; ABC] []))
     = Some (concat [client_hello; ABC], EOF).
Proof.
  assert (Ho : open_with (accepted [client_hello; ABC] []) 0 [client_hello; ABC]).
  { eexists. split; [reflexivity |]. split; reflexivity. }
  split; [exact Ho |].
  apply (wrapped_stream_is_whole_stream (accepted [client_hello; ABC] []) 0
           [client_hello; ABC] 512 "example.com" (connWithBufferedReader 0 0)).
  - exact Ho.
  - lia.
  - vm_compute. reflexivity.
Defined.

(** In termination mode the wrapped connection is dropped and the raw
    socket is used on: after a successful [parseClientHelloSNI] over an open
    socket, at least the 1024 peeked bytes are with the dropped reader, and
    reading the socket to its end yields only what follows them. *)
Lemma raw_socket_misses_peeked_bytes (n : Network) (fd : N) (segs : list (list byte))
    (cap : nat) (sni : string) :
  open_with n fd segs ->
  (0 < cap)%nat ->
  eval (parseClientHelloSNI fd) n = (true, sni) ->
  exists peeked rest,
    concat segs = (peeked ++ rest)%list
    /\ (1024 <= length peeked)%nat
    /\ eval (Conn.ReadAll cap (FromConn (TCPConn fd))) (exec (parseClientHelloSNI fd) n)
       = Some (rest, EOF).
Proof.
  intros Ho Hcap Hparse.
  destruct (NewReader_open n fd segs Ho) as [Hr0 Ho0].
  unfold eval, exec in Hparse |- *.
  unfold parseClientHelloSNI, peekClientHelloSNI, bind in Hparse |- *.
  rewrite (run_pair (Bufio.NewReader fd) n) in Hparse |- *.
  set (r := eval (Bufio.NewReader fd) n) in *.
  set (n0 := exec (Bufio.NewReader fd) n) in *.
  destruct (Bufio.Peek r 1024 n0) as [[data err] n1] eqn:Epeek.
  destruct err as [e |]; [discriminate Hparse |].
  destruct (Peek_open 1024 n0 r fd segs data n1 Hr0 Ho0 Epeek)
    as (buf' & segs' & _ & Ho1 & Hcat & _ & Hlen).
  unfold extractSNIFromTLSClientHello in Hparse |- *.
  destruct (decide ("example.com" = "")) as [Hempty | _]; [discriminate Hempty |].
  cbn [ret fst snd] in Hparse |- *.
  exists buf', (concat segs'). split; [symmetry; exact Hcat |]. split; [exact Hlen |].
  unfold Conn.ReadAll.
  fold (eval (Conn.read_loop (2 + Conn.pending (FromConn (TCPConn fd)) n1) cap
          (FromConn (TCPConn fd))) n1).
  apply read_loop_socket; [exact Ho1 | exact Hcap |].
  destruct Ho1 as (s & Hs & _ & Hin). cbn [Conn.pending]. unfold Conn.pending_fd.
  rewrite Hs, Hin. lia.
Qed.

(* ================================================================== *)
(** * Further properties of the code *)

(** * More of the code *)

(** ** Ids *)

Section Ids.

Lemma issue_lookup (k : nat) (w : World) (j : nat) (id : string) :
  (idSeq (cm w) + N.of_nat k < 2 ^ 64)%N ->
  eval (issue k) w !! j = Some id ->
  id = "conn-" +:+ pretty (idSeq (cm w) + 1 + N.of_nat j)%N.
Proof.
  revert w j. induction k as [| k IH]; intros w j Hk Hj.
  - cbn [issue] in Hj. discriminate Hj.
  - cbn [issue] in Hj. rewrite eval_bind, eval_bind in Hj.
    assert (Hid : eval NextID w = "conn-" +:+ pretty (idSeq (cm w) + 1)%N).
    { unfold NextID, eval, bind, get, modify, ret. simpl.
      rewrite wrap_uint64_small by lia. reflexivity. }
    assert (Hseq : idSeq (cm (exec NextID w)) = (idSeq (cm w) + 1)%N).
    { unfold NextID, exec, bind, get, modify, ret. simpl.
      apply wrap_uint64_small. lia. }
    destruct j as [| j].
    + unfold eval at 1, ret in Hj. simpl in Hj. injection Hj as <-.
      rewrite Hid, N.add_0_r. reflexivity.
    + unfold eval at 1, ret in Hj. simpl in Hj.
      apply IH in Hj; [| rewrite Hseq; lia].
      rewrite Hj, Hseq. f_equal. f_equal. lia.
Qed.

(** X1: below the wrap-around of the id counter, the ids that successive
    calls of [NextID] hand out are "conn-" followed by the successive
    values of the counter in decimal, and no id is handed out twice. *)
Theorem NextID_never_repeats (k : nat) (w : World) :
  (idSeq (cm w) + N.of_nat k < 2 ^ 64)%N ->
  NoDup (eval (issue k) w)
  /\ forall j id, eval (issue k) w !! j = Some id ->
       id = "conn-" +:+ pretty (idSeq (cm w) + 1 + N.of_nat j)%N.
Proof.
  intros Hk. split; [| intros j id; apply issue_lookup; exact Hk].
  apply NoDup_alt. intros i j id Hi Hj.
  apply (issue_lookup k w i id Hk) in Hi. apply (issue_lookup k w j id Hk) in Hj.
  rewrite Hi in Hj. apply String.app_inj in Hj. apply (inj pretty) in Hj. lia.
Qed.

Lemma NextID_never_repeats_witness :
  (idSeq (cm (fresh no_network)) + N.of_nat 3 < 2 ^ 64)%N
  /\ NoDup (eval (issue 3) (fresh no_network)).
Proof.
  split; [reflexivity |].
  apply (NextID_never_repeats 3 (fresh no_network)). reflexivity.
Defined.

End Ids.

(** ** Insert, look up, remove *)

Section AddRemove.

Local Open Scope Z_scope.

(** X2: after [Add], the registry holds, under the id that [Add] returned,
    the two connections given and the metadata given with that id filled
    in; what is stored under any other id is as before. *)
Theorem Add_then_Load (client server : Conn) (meta : ConnMeta) (w : World) (other : string) :
  eval (conns_Load (eval (Add client server meta) w)) (exec (Add client server meta) w)
  = Some {| Client := client; Server := server;
            Meta := with_ID meta (eval (Add client server meta) w) |}
  /\ (other <> eval (Add client server meta) w ->
      eval (conns_Load other) (exec (Add client server meta) w)
      = eval (conns_Load other) w).
Proof.
  unfold eval, exec. rewrite Add_unfold. cbn [fst snd].
  unfold conns_Load, bind, get, ret. cbn [fst snd cm conns].
  split; [apply lookup_insert_eq |].
  intros Hne. apply lookup_insert_ne. congruence.
Qed.

(** X3: [Remove] of an id that is not registered changes nothing, and so a
    second [Remove] of the same id changes nothing after the first. *)
Theorem Remove_twice (id : string) (w : World) :
  (conns (cm w) !! id = None -> exec (Remove id) w = w)
  /\ exec (Remove id) (exec (Remove id) w) = exec (Remove id) w.
Proof.
  split.
  - intros H. unfold exec. rewrite Remove_unfold_absent by exact H. reflexivity.
  - destruct (conns (cm w) !! id) as [pc |] eqn:E.
    + unfold exec at 2 3. rewrite (Remove_unfold_present id pc w E). cbn [snd].
      unfold exec. rewrite Remove_unfold_absent; [reflexivity |].
      cbn [cm conns]. apply lookup_delete_eq.
    + assert (H : exec (Remove id) w = w)
        by (unfold exec; rewrite Remove_unfold_absent by exact E; reflexivity).
      rewrite !H. reflexivity.
Qed.

(** X4: [Add] followed by [Remove] of the id it returned puts the registry
    map and all five counters back to what they were, when the id was not
    in use and the counters hold 64-bit values; the id counter has moved
    on by one. *)
Theorem Add_then_Remove (client server : Conn) (meta : ConnMeta) (w : World) :
  conns (cm w) !! next_key w = None ->
  int64_metrics (metrics w) ->
  conns (cm (exec (Remove (eval (Add client server meta) w))
               (exec (Add client server meta) w))) = conns (cm w)
  /\ metrics (exec (Remove (eval (Add client server meta) w))
                (exec (Add client server meta) w)) = metrics w
  /\ idSeq (cm (exec (Remove (eval (Add client server meta) w))
                  (exec (Add client server meta) w))) = next_id w.
Proof.
  intros Hfresh Hrange. unfold eval, exec. rewrite Add_unfold. cbn [fst snd].
  erewrite Remove_unfold_present by (cbn [cm conns]; apply lookup_insert_eq).
  cbn [snd cm conns idSeq metrics Meta].
  split; [| split; [| reflexivity]].
  - rewrite delete_insert_eq. apply delete_id. exact Hfresh.
  - apply apply_deltas_there_and_back. exact Hrange.
Qed.

Lemma Add_then_Remove_witness :
  conns (cm (fresh no_network)) !! next_key (fresh no_network) = None
  /\ metrics (exec (Remove (eval (Add (TCPConn 0) (TCPConn 1) terminated_meta)
                              (fresh no_network)))
                (exec (Add (TCPConn 0) (TCPConn 1) terminated_meta) (fresh no_network)))
     = metrics (fresh no_network).
Proof.
  split; [reflexivity |].
  apply (Add_then_Remove (TCPConn 0) (TCPConn 1) terminated_meta (fresh no_network)).
  - reflexivity.
  - unfold int64_metrics, int64. simpl. lia.
Defined.

End AddRemove.

(** ** More about [CloseByFilter] *)

Section CloseMore.

Variable p : ConnMeta -> bool.

Lemma lookup_fold_close (l : list (string * ProxyConnection))
    (m : gmap string ProxyConnection) (k : string) (pc : ProxyConnection) :
  fold_left (fun m kv => if p (Meta (snd kv)) then delete (fst kv) m else m) l m !! k
  = Some pc
  <-> m !! k = Some pc
      /\ ~ exists pc', (k, pc') ∈ l /\ p (Meta pc') = true.
Proof.
  revert m. induction l as [| [key pc0] l IH]; intros m.
  - cbn [fold_left]. split; [| tauto]. intros H. split; [exact H |].
    intros (pc' & Hin & _). inversion Hin.
  - cbn [fold_left fst snd]. rewrite IH. split.
    + intros [Hl Hno]. destruct (p (Meta pc0)) eqn:Ep.
      * rewrite lookup_delete in Hl. case_decide as Hk; [discriminate |].
        split; [exact Hl |]. intros (pc' & Hin & Hp).
        apply elem_of_cons in Hin as [Heq | Hin]; [congruence | eauto].
      * split; [exact Hl |]. intros (pc' & Hin & Hp).
        apply elem_of_cons in Hin as [Heq | Hin]; [congruence | eauto].
    + intros [Hl Hno]. split.
      * destruct (p (Meta pc0)) eqn:Ep; [| exact Hl].
        rewrite lookup_delete. case_decide as Hk; [| exact Hl].
        exfalso. apply Hno. exists pc0. split; [subst; left | exact Ep].
      * intros (pc' & Hin & Hp). apply Hno. exists pc'. split; [right; exact Hin | exact Hp].
Qed.

(** What is registered after [CloseByFilter]: the pairs that were
    registered and that the filter does not match. *)
Lemma CloseByFilter_lookup (w : World) (key : string) (pc : ProxyConnection) :
  conns (cm (exec (CloseByFilter p) w)) !! key = Some pc
  <-> conns (cm w) !! key = Some pc /\ p (Meta pc) = false.
Proof.
  rewrite CloseByFilter_conns, lookup_fold_close. split.
  - intros [Hl Hno]. split; [exact Hl |].
    destruct (p (Meta pc)) eqn:Ep; [| reflexivity].
    exfalso. apply Hno. exists pc. split; [| exact Ep].
    apply elem_of_map_to_list. exact Hl.
  - intros [Hl Hp]. split; [exact Hl |]. intros (pc' & Hin & Hp').
    apply elem_of_map_to_list in Hin. congruence.
Qed.

Lemma CloseByFilter_idSeq (w : World) :
  idSeq (cm (exec (CloseByFilter p) w)) = idSeq (cm w).
Proof.
  unfold CloseByFilter. rewrite exec_bind. unfold get at 2, eval at 1, exec at 2. simpl.
  apply close_visits.
Qed.

Lemma CloseByFilter_submap (w : World) :
  conns (cm (exec (CloseByFilter p) w)) ⊆ conns (cm w).
Proof.
  apply map_subseteq_spec. intros key pc H. apply CloseByFilter_lookup in H. tauto.
Qed.

End CloseMore.

(** X5: after [CloseByFilter], a pair is registered under an id exactly when
    it was registered under that id before and the filter does not match
    its metadata: the filter's matches are gone, all others stay. *)
Theorem CloseByFilter_keeps_the_rest (p : ConnMeta -> bool) (w : World)
    (key : string) (pc : ProxyConnection) :
  eval (conns_Load key) (exec (CloseByFilter p) w) = Some pc
  <-> eval (conns_Load key) w = Some pc /\ p (Meta pc) = false.
Proof. apply CloseByFilter_lookup. Qed.

Lemma forEach_skips {S A : Type} (l : list A) (body : A -> State S unit) (s : S) :
  (forall x s', x ∈ l -> body x s' = (tt, s')) -> forEach l body s = (tt, s).
Proof.
  revert s. induction l as [| x l IH]; intros s H; [reflexivity |].
  cbn [forEach]. unfold bind. rewrite H by left. apply IH.
  intros y s' Hy. apply H. right. exact Hy.
Qed.

(** X7: [CloseByFilter] with a filter that matches no registered pair does
    nothing at all: no socket is written to or closed, and the registry
    and the counters are as before. *)
Theorem CloseByFilter_without_match (p : ConnMeta -> bool) (w : World) :
  (forall key pc, conns (cm w) !! key = Some pc -> p (Meta pc) = false) ->
  exec (CloseByFilter p) w = w.
Proof.
  intros Hno. unfold CloseByFilter, exec, bind, get.
  rewrite forEach_skips; [reflexivity |].
  intros [key pc] s' Hin. apply elem_of_map_to_list in Hin.
  rewrite (Hno key pc Hin). reflexivity.
Qed.

Lemma CloseByFilter_without_match_witness :
  (forall key pc,
      conns (cm (exec (Add (TCPConn 0) (TCPConn 1) http_meta) (fresh no_network))) !! key
      = Some pc -> is_https (Meta pc) = false)
  /\ exec (CloseByFilter is_https)
       (exec (Add (TCPConn 0) (TCPConn 1) http_meta) (fresh no_network))
     = exec (Add (TCPConn 0) (TCPConn 1) http_meta) (fresh no_network).
Proof.
  assert (H : forall key pc,
      conns (cm (exec (Add (TCPConn 0) (TCPConn 1) http_meta) (fresh no_network))) !! key
      = Some pc -> is_https (Meta pc) = false).
  { intros key pc. unfold exec. rewrite Add_unfold. cbn [snd cm conns fresh NewConnManager].
    rewrite lookup_insert. case_decide; [| rewrite lookup_empty; discriminate].
    intros E. injection E as <-. reflexivity. }
  split; [exact H |].
  apply (CloseByFilter_without_match is_https
           (exec (Add (TCPConn 0) (TCPConn 1) http_meta) (fresh no_network))).
  exact H.
Defined.

(** A [Remove] or [closeConnPair] that runs after [CloseByFilter] has
    returned, for an id whose pair the filter matched (or that was not
    registered), does nothing. *)
Lemma Remove_after_CloseByFilter (p : ConnMeta -> bool) (id : string) (w : World) :
  (forall pc, conns (cm w) !! id = Some pc -> p (Meta pc) = true) ->
  exec (Remove id) (exec (CloseByFilter p) w) = exec (CloseByFilter p) w
  /\ exec (closeConnPair id) (exec (CloseByFilter p) w) = exec (CloseByFilter p) w.
Proof.
  intros Hp.
  assert (Hgone : conns (cm (exec (CloseByFilter p) w)) !! id = None).
  { destruct (conns (cm (exec (CloseByFilter p) w)) !! id) as [pc |] eqn:E; [| reflexivity].
    apply CloseByFilter_lookup in E as [E Hf]. rewrite (Hp pc E) in Hf. discriminate. }
  split.
  - unfold exec at 1. rewrite Remove_unfold_absent by exact Hgone. reflexivity.
  - unfold closeConnPair, conns_Load, exec at 1, bind, get, ret. cbn [fst snd].
    rewrite Hgone. reflexivity.
Qed.

(** ** A forced close and the owner of the pair *)

Section ForcedCloseRace.

Lemma close_both_keeps (pc : ProxyConnection) (w : World) :
  cm (exec (close_both pc) w) = cm w /\ metrics (exec (close_both pc) w) = metrics w.
Proof.
  unfold close_both, sendHTTPConnectionClose.
  rewrite !exec_bind, !exec_ret, !on_net_cm, !on_net_metrics. auto.
Qed.

(** [CloseByFilter] over a registry that holds one pair, which the filter
    matches, is [close_both] and then the deletion. *)
Lemma CloseByFilter_one (p : ConnMeta -> bool) (key : string) (pc : ProxyConnection)
    (w : World) :
  conns (cm w) = {[ key := pc ]} -> p (Meta pc) = true ->
  exec (CloseByFilter p) w = exec (conns_Delete key) (exec (close_both pc) w).
Proof.
  intros Hc Hp. unfold CloseByFilter. rewrite exec_bind.
  change (eval get w) with w. change (exec get w) with w.
  rewrite Hc, map_to_list_singleton. cbn [forEach]. rewrite Hp.
  unfold close_both. rewrite !exec_bind, !exec_ret. reflexivity.
Qed.

End ForcedCloseRace.

(** X9: a forced close races with the owner of the pair.  [CloseByFilter]
    closes both sockets of a matched pair and only then deletes the entry,
    under no lock; the handler that owns the pair wakes up when its sockets
    are closed and calls [Remove].  If the owner's [Remove] comes before the
    deletion it finds the entry and gives the counters back; if it comes
    after, it finds nothing and the counters stay as they were.  Either way
    the entry is gone and the sockets are the same. *)
Theorem forced_close_races_owner (key : string) (pc : ProxyConnection) (w : World) :
  conns (cm w) !! key = Some pc ->
  let closed := exec (close_both pc) w in
  let owner_first := exec (conns_Delete key) (exec (Remove key) closed) in
  let sweep_first := exec (Remove key) (exec (conns_Delete key) closed) in
  metrics owner_first = apply_deltas (-1) (Meta pc) (metrics w)
  /\ metrics sweep_first = metrics w
  /\ conns (cm owner_first) = delete key (conns (cm w))
  /\ conns (cm sweep_first) = delete key (conns (cm w))
  /\ net owner_first = net sweep_first.
Proof.
  intros Hpc. cbn zeta.
  destruct (close_both_keeps pc w) as [Hcm Hm].
  set (closed := exec (close_both pc) w) in *.
  assert (Hpc' : conns (cm closed) !! key = Some pc) by (rewrite Hcm; exact Hpc).
  assert (Hgone : conns (cm (exec (conns_Delete key) closed)) !! key = None)
    by (rewrite conns_Delete_exec; cbn [cm conns]; apply lookup_delete_eq).
  assert (Eo : exec (Remove key) closed = snd (Remove key closed)) by reflexivity.
  rewrite (Remove_unfold_present key pc closed Hpc') in Eo. cbn [snd] in Eo.
  assert (Es : exec (Remove key) (exec (conns_Delete key) closed)
               = exec (conns_Delete key) closed).
  { unfold exec at 1. rewrite (Remove_unfold_absent key _ Hgone). reflexivity. }
  rewrite Eo, Es, !conns_Delete_exec. cbn [cm conns metrics net idSeq].
  rewrite Hcm, Hm, delete_delete_eq.
  repeat split; reflexivity.
Qed.

Lemma forced_close_races_owner_witness :
  metrics (exec (conns_Delete "conn-1")
             (exec (Remove "conn-1")
                (exec (close_both {| Client := TCPConn 0; Server := TCPConn 1;
                                     Meta := with_ID http_meta "conn-1" |})
                   (exec (Add (TCPConn 0) (TCPConn 1) http_meta) (fresh (accepted [] []))))))
  = zero_metrics
  /\ ClientProxyConns
       (metrics (exec (Remove "conn-1")
                   (exec (conns_Delete "conn-1")
                      (exec (close_both {| Client := TCPConn 0; Server := TCPConn 1;
                                           Meta := with_ID http_meta "conn-1" |})
                         (exec (Add (TCPConn 0) (TCPConn 1) http_meta)
                            (fresh (accepted [] []))))))) = 1%Z.
Proof.
  destruct (forced_close_races_owner "conn-1"
              {| Client := TCPConn 0; Server := TCPConn 1;
                 Meta := with_ID http_meta "conn-1" |}
              (exec (Add (TCPConn 0) (TCPConn 1) http_meta) (fresh (accepted [] []))))
    as (H1 & H2 & _).
  - vm_compute. reflexivity.
  - split; [rewrite H1 | rewrite H2]; vm_compute; reflexivity.
Defined.

(** ** Forced close *)

Section ForcedClose.

Implicit Types (n : Network) (fd : N).

Lemma sock_Write_keeps n fd (data : list byte) fd' :
  (closed_in n fd' -> closed_in (exec (sock_Write fd data) n) fd')
  /\ (is_Some (socks n !! fd') -> is_Some (socks (exec (sock_Write fd data) n) !! fd')).
Proof.
  unfold sock_Write, exec, closed_in.
  destruct (socks n !! fd) as [s |] eqn:Es; [| auto].
  destruct (closed s) eqn:Ec; [auto |]. cbn [snd set_socks socks].
  destruct (decide (fd = fd')) as [<- | Hne].
  - rewrite lookup_insert_eq. split; [| eauto].
    intros (s' & Hs & Hc). congruence.
  - rewrite lookup_insert_ne by exact Hne. auto.
Qed.

Lemma sock_Close_keeps n fd fd' :
  (closed_in n fd' -> closed_in (exec (sock_Close fd) n) fd')
  /\ (is_Some (socks n !! fd') -> is_Some (socks (exec (sock_Close fd) n) !! fd')).
Proof.
  unfold sock_Close, exec, closed_in.
  destruct (socks n !! fd) as [s |] eqn:Es; [| auto].
  destruct (closed s) eqn:Ec; [auto |]. cbn [snd set_socks socks].
  destruct (decide (fd = fd')) as [<- | Hne].
  - rewrite lookup_insert_eq. split; [| eauto]. intros _. eexists. split; reflexivity.
  - rewrite lookup_insert_ne by exact Hne. auto.
Qed.

Lemma sock_Close_closes n fd :
  is_Some (socks n !! fd) -> closed_in (exec (sock_Close fd) n) fd.
Proof.
  intros [s Es]. unfold sock_Close, exec, closed_in. rewrite Es.
  destruct (closed s) eqn:Ec; [eauto |]. cbn [snd set_socks socks].
  rewrite lookup_insert_eq. eexists. split; reflexivity.
Qed.

Lemma Conn_Close_net (c : Conn) n : exec (Conn.Close c) n = exec (sock_Close (conn_fd c)) n.
Proof. unfold Conn.Close. rewrite exec_bind. reflexivity. Qed.

Variable p : ConnMeta -> bool.

(** The sockets after one visit of [CloseByFilter]. *)
Lemma close_visit_net (key : string) (pc : ProxyConnection) (w : World) :
  net (exec (if p (Meta pc) then
               bind (sendHTTPConnectionClose (Client pc)) (fun _ =>
               bind (sendHTTPConnectionClose (Server pc)) (fun _ =>
               bind (on_net (Conn.Close (Client pc))) (fun _ =>
               bind (on_net (Conn.Close (Server pc))) (fun _ =>
               conns_Delete key))))
             else ret tt) w)
  = if p (Meta pc) then
      exec (sock_Close (conn_fd (Server pc)))
        (exec (sock_Close (conn_fd (Client pc)))
           (exec (sock_Write (conn_fd (Server pc)) close_preamble)
              (exec (sock_Write (conn_fd (Client pc)) close_preamble) (net w))))
    else net w.
Proof.
  destruct (p (Meta pc)); [| reflexivity].
  unfold sendHTTPConnectionClose.
  rewrite !exec_bind, !exec_ret, conns_Delete_exec. cbn [net].
  rewrite !on_net_net, !Conn_Close_net. reflexivity.
Qed.

Lemma close_visits_net (l : list (string * ProxyConnection)) (w : World) (fd : N) :
  let w' := exec (forEach l (fun '(key, pc) =>
                    if p (Meta pc) then
                      bind (sendHTTPConnectionClose (Client pc)) (fun _ =>
                      bind (sendHTTPConnectionClose (Server pc)) (fun _ =>
                      bind (on_net (Conn.Close (Client pc))) (fun _ =>
                      bind (on_net (Conn.Close (Server pc))) (fun _ =>
                      conns_Delete key))))
                    else ret tt)) w in
  (closed_in (net w) fd -> closed_in (net w') fd)
  /\ (is_Some (socks (net w) !! fd) -> is_Some (socks (net w') !! fd))
  /\ (is_Some (socks (net w) !! fd) ->
      (exists key pc, (key, pc) ∈ l /\ p (Meta pc) = true
                      /\ (fd = conn_fd (Client pc) \/ fd = conn_fd (Server pc))) ->
      closed_in (net w') fd).
Proof.
  revert w. induction l as [| [key pc] l IH]; intros w; cbn zeta.
  - cbn [forEach]. rewrite exec_ret. split; [auto |]. split; [auto |].
    intros _ (key & pc & Hin & _). inversion Hin.
  - cbn [forEach]. rewrite exec_bind.
    set (w1 := exec (if p (Meta pc) then _ else ret tt) w).
    destruct (IH w1) as (IHc & IHk & IHm). fold w1 in IHc, IHk, IHm.
    assert (Hstep : (closed_in (net w) fd -> closed_in (net w1) fd)
                    /\ (is_Some (socks (net w) !! fd) -> is_Some (socks (net w1) !! fd))
                    /\ (is_Some (socks (net w) !! fd) -> p (Meta pc) = true ->
                        fd = conn_fd (Client pc) \/ fd = conn_fd (Server pc) ->
                        closed_in (net w1) fd)).
    { subst w1. rewrite close_visit_net. destruct (p (Meta pc)).
      2: { split; [auto |]. split; [auto |]. intros _ Hf. discriminate Hf. }
      set (n1 := exec (sock_Write (conn_fd (Client pc)) close_preamble) (net w)).
      set (n2 := exec (sock_Write (conn_fd (Server pc)) close_preamble) n1).
      set (n3 := exec (sock_Close (conn_fd (Client pc))) n2).
      pose proof (sock_Write_keeps (net w) (conn_fd (Client pc)) close_preamble fd) as [A1 B1].
      pose proof (sock_Write_keeps n1 (conn_fd (Server pc)) close_preamble fd) as [A2 B2].
      pose proof (sock_Close_keeps n2 (conn_fd (Client pc)) fd) as [A3 B3].
      pose proof (sock_Close_keeps n3 (conn_fd (Server pc)) fd) as [A4 B4].
      fold n1 in A1, B1. fold n2 in A2, B2. fold n3 in A3, B3.
      split; [auto |]. split; [auto |].
      intros Hk _ [-> | ->].
      - apply A4. apply sock_Close_closes. auto.
      - apply sock_Close_closes. auto. }
    destruct Hstep as (Sc & Sk & Sm).
    split; [auto |]. split; [auto |].
    intros Hk (key' & pc' & Hin & Hp & Hfd).
    apply elem_of_cons in Hin as [Heq | Hin].
    + injection Heq as -> ->. apply IHc. apply Sm; assumption.
    + apply IHm; [auto |]. exists key', pc'. auto.
Qed.

(** X6: after [CloseByFilter], both sockets of every registered pair that
    the filter matches are closed, and no socket that was closed has been
    reopened. *)
Theorem CloseByFilter_closes_both_sides (w : World) (key : string)
    (pc : ProxyConnection) (fd : N) :
  conns (cm w) !! key = Some pc ->
  p (Meta pc) = true ->
  fd = conn_fd (Client pc) \/ fd = conn_fd (Server pc) ->
  is_Some (socks (net w) !! fd) ->
  closed_in (net (exec (CloseByFilter p) w)) fd
  /\ forall fd', closed_in (net w) fd' -> closed_in (net (exec (CloseByFilter p) w)) fd'.
Proof.
  intros Hl Hp Hfd Hk.
  unfold CloseByFilter. rewrite exec_bind. unfold get at 2, eval at 1, exec at 2. cbn [fst snd].
  split.
  - apply close_visits_net; [exact Hk |].
    exists key, pc. split; [apply elem_of_map_to_list; exact Hl | auto].
  - intros fd'. apply close_visits_net.
Qed.

End ForcedClose.

Lemma CloseByFilter_closes_both_sides_witness :
  conns (cm (exec (Add (TCPConn 0) (TCPConn 1) http_meta) (fresh (accepted [] []))))
    !! "conn-1"
  = Some {| Client := TCPConn 0; Server := TCPConn 1; Meta := with_ID http_meta "conn-1" |}
  /\ closed_in (net (exec (CloseByFilter any_pair)
                       (exec (Add (TCPConn 0) (TCPConn 1) http_meta)
                          (fresh (accepted [] []))))) 0.
Proof.
  split; [vm_compute; reflexivity |].
  refine (proj1 (CloseByFilter_closes_both_sides any_pair
           (exec (Add (TCPConn 0) (TCPConn 1) http_meta) (fresh (accepted [] [])))
           "conn-1"
           {| Client := TCPConn 0; Server := TCPConn 1; Meta := with_ID http_meta "conn-1" |}
           0 _ _ _ _)).
  - vm_compute. reflexivity.
  - reflexivity.
  - left. reflexivity.
  - eexists. vm_compute. reflexivity.
Defined.

(** ** Snapshots *)

Section Snapshots.

Lemma step_keeps_ids (o : Op) (w : World) :
  ids_are_keys w -> ids_are_keys (exec (step o) w).
Proof.
  intros Hinv. destruct o as [client server meta | id | filter]; cbn [step].
  - rewrite exec_bind, exec_ret. unfold exec. rewrite Add_unfold. cbn [snd].
    intros key pc. cbn [cm conns]. rewrite lookup_insert. case_decide as Hk.
    + intros E. injection E as <-. cbn [Meta with_ID ID]. exact Hk.
    + apply Hinv.
  - destruct (conns (cm w) !! id) as [pc0 |] eqn:E.
    + unfold exec. rewrite (Remove_unfold_present id pc0 w E). cbn [snd].
      intros key pc. cbn [cm conns]. rewrite lookup_delete. case_decide; [discriminate |].
      apply Hinv.
    + unfold exec. rewrite Remove_unfold_absent by exact E. exact Hinv.
  - intros key pc H. apply CloseByFilter_lookup in H as [H _]. apply (Hinv _ _ H).
Qed.

Lemma run_keeps_ids (ops : list Op) (w : World) :
  ids_are_keys w -> ids_are_keys (exec (run ops) w).
Proof.
  revert w. induction ops as [| o ops IH]; intros w Hinv.
  - exact Hinv.
  - rewrite run_cons. apply IH, step_keeps_ids, Hinv.
Qed.

(** X8: whatever [Add], [Remove] and [CloseByFilter] operations a fresh
    manager has gone through, every entry of the snapshot [Stats] carries
    the id its pair is registered under, and no two entries of the snapshot
    carry the same id. *)
Theorem Stats_ids_distinct (ops : list Op) (n : Network) :
  ids_are_keys (exec (run ops) (fresh n))
  /\ NoDup (ID <$> eval Stats (exec (run ops) (fresh n))).
Proof.
  assert (Hinv : ids_are_keys (exec (run ops) (fresh n))).
  { apply run_keeps_ids. intros key pc H. cbn in H. rewrite lookup_empty in H. discriminate. }
  split; [exact Hinv |].
  set (w := exec (run ops) (fresh n)) in *.
  assert (E : ID <$> eval Stats w = (map_to_list (conns (cm w))).*1).
  { unfold Stats, eval, bind, get, ret. cbn [fst snd].
    rewrite <- list_fmap_compose. apply list_fmap_ext.
    intros i [key pc] Hi. cbn. apply Hinv. apply elem_of_map_to_list.
    apply list_elem_of_lookup. eauto. }
  rewrite E. apply NoDup_fst_map_to_list.
Qed.

End Snapshots.

(** ** Counters under forced close *)

Section CountersCover.

Local Open Scope Z_scope.

Lemma count_if_submseteq (q : ConnMeta -> bool) (l1 l2 : list ConnMeta) :
  l1 ⊆+ l2 -> (count_if q l1 <= count_if q l2)%nat.
Proof.
  unfold count_if. induction 1 as [| x l1 l2 _ IH | x y l | x l1 l2 _ IH | l1 l2 l3 _ IH1 _ IH2];
    cbn [List.filter].
  - lia.
  - destruct (q x); cbn [length]; lia.
  - destruct (q x), (q y); cbn [length]; lia.
  - destruct (q x); cbn [length]; lia.
  - lia.
Qed.

Lemma registered_CloseByFilter (q filter : ConnMeta -> bool) (w : World) :
  registered q (exec (CloseByFilter filter) w) <= registered q w.
Proof.
  rewrite !registered_unfold. apply inj_le. apply count_if_submseteq.
  apply fmap_submseteq, map_to_list_submseteq, CloseByFilter_submap.
Qed.

Lemma registered_nonneg (q : ConnMeta -> bool) (w : World) : 0 <= registered q w.
Proof. unfold registered. lia. Qed.

Lemma cover_up (c : Z) (cnt k : nat) (b : bool) :
  Z.of_nat cnt <= c <= Z.of_nat k -> Z.of_nat (S k) < 2 ^ 63 ->
  Z.of_nat ((if b then 1 else 0) + cnt)
  <= (if b then wrap_int64 (c + 1) else c) <= Z.of_nat (S k).
Proof.
  intros Hc Hk. destruct b; [rewrite wrap_int64_small by lia |]; lia.
Qed.

Lemma cover_down (c : Z) (cnt k : nat) (b : bool) :
  Z.of_nat ((if b then 1 else 0) + cnt) <= c <= Z.of_nat k -> Z.of_nat k < 2 ^ 63 ->
  Z.of_nat cnt <= (if b then wrap_int64 (c + -1) else c) <= Z.of_nat k.
Proof.
  intros Hc Hk. destruct b; [rewrite wrap_int64_small by lia |]; lia.
Qed.

(** One operation keeps the ids issued, the keys and the cover of the
    counters, [k] being the calls of [Add] so far. *)
Lemma step_keeps_cover (o : Op) (k : nat) (w : World) :
  (N.to_nat (idSeq (cm w)) <= k)%nat -> keys_issued w -> counters_cover k w ->
  Z.of_nat (k + count_adds [o]) < 2 ^ 63 ->
  (N.to_nat (idSeq (cm (exec (step o) w))) <= k + count_adds [o])%nat
  /\ keys_issued (exec (step o) w)
  /\ counters_cover (k + count_adds [o]) (exec (step o) w).
Proof.
  intros Hid Hkeys (Hc1 & Hc2 & Hc3 & Hc4 & Hc5) Hk.
  destruct o as [client server meta | id | filter].
  - assert (Hone : count_adds [OpAdd client server meta] = 1%nat) by reflexivity.
    rewrite Hone in *. replace (k + 1)%nat with (S k) in * by lia.
    assert (Hnext : (idSeq (cm w) + 1 < 2 ^ 64)%N) by lia.
    pose proof (next_key_fresh w Hkeys Hnext) as Hfresh.
    assert (Hnid : next_id w = (idSeq (cm w) + 1)%N)
      by (unfold next_id; apply wrap_uint64_small; exact Hnext).
    cbn [step]. rewrite exec_bind, exec_ret. unfold exec. rewrite Add_unfold. cbn [snd].
    split; [cbn [cm idSeq]; rewrite Hnid; lia |]. split.
    + intros key pc. cbn [cm conns idSeq]. rewrite lookup_insert. case_decide as Hkey.
      * intros _. exists (next_id w). split; [symmetry; exact Hkey | lia].
      * intros Hl. destruct (Hkeys _ _ Hl) as (n & -> & Hle). exists n.
        split; [reflexivity | lia].
    + unfold counters_cover. rewrite !registered_unfold in *. cbn [cm conns metrics].
      rewrite !count_insert_fresh by exact Hfresh. cbn [Meta].
      destruct (apply_deltas_fields 1 meta (metrics w)) as (-> & -> & -> & -> & ->).
      split; [apply (cover_up _ _ k true); assumption |].
      split; [apply (cover_up _ _ k true); assumption |].
      split; [apply (cover_up _ _ k); assumption |].
      split; apply (cover_up _ _ k); assumption.
  - assert (Hzero : count_adds [OpRemove id] = 0%nat) by reflexivity.
    rewrite Hzero in *. rewrite Nat.add_0_r in *. cbn [step].
    destruct (conns (cm w) !! id) as [pc |] eqn:E.
    2: { unfold exec. rewrite Remove_unfold_absent by exact E.
         split; [exact Hid |]. split; [exact Hkeys |]. repeat split; tauto. }
    unfold exec. rewrite (Remove_unfold_present id pc w E). cbn [snd].
    split; [exact Hid |]. split.
    + intros key pc'. cbn [cm conns idSeq]. rewrite lookup_delete.
      case_decide; [discriminate |]. apply Hkeys.
    + unfold counters_cover. rewrite !registered_unfold in *. cbn [cm conns metrics].
      rewrite (count_delete any_pair _ _ _ E) in Hc1, Hc2.
      rewrite (count_delete is_https _ _ _ E) in Hc3.
      rewrite (count_delete is_http _ _ _ E) in Hc4.
      rewrite (count_delete via_termination _ _ _ E) in Hc5.
      destruct (apply_deltas_fields (-1) (Meta pc) (metrics w)) as (-> & -> & -> & -> & ->).
      split; [apply (cover_down _ _ k true); assumption |].
      split; [apply (cover_down _ _ k true); assumption |].
      split; [apply (cover_down _ _ k); assumption |].
      split; apply (cover_down _ _ k); assumption.
  - assert (Hzero : count_adds [OpCloseByFilter filter] = 0%nat) by reflexivity.
    rewrite Hzero in *. rewrite Nat.add_0_r in *. cbn [step].
    split; [rewrite CloseByFilter_idSeq; exact Hid |]. split.
    + intros key pc H. apply CloseByFilter_lookup in H as [H _].
      destruct (Hkeys _ _ H) as (n & -> & Hle). exists n.
      rewrite CloseByFilter_idSeq. auto.
    + unfold counters_cover. rewrite CloseByFilter_metrics.
      pose proof (registered_CloseByFilter any_pair filter w).
      pose proof (registered_CloseByFilter is_https filter w).
      pose proof (registered_CloseByFilter is_http filter w).
      pose proof (registered_CloseByFilter via_termination filter w).
      repeat split; lia.
Qed.

Lemma count_adds_cons (o : Op) (ops : list Op) :
  count_adds (o :: ops) = (count_adds [o] + count_adds ops)%nat.
Proof. unfold count_adds. cbn [List.filter]. destruct o; reflexivity. Qed.

Lemma run_keeps_cover (ops : list Op) (k : nat) (w : World) :
  (N.to_nat (idSeq (cm w)) <= k)%nat -> keys_issued w -> counters_cover k w ->
  Z.of_nat (k + count_adds ops) < 2 ^ 63 ->
  counters_cover (k + count_adds ops) (exec (run ops) w).
Proof.
  revert k w. induction ops as [| o ops IH]; intros k w Hid Hkeys Hc Hk.
  - unfold count_adds. cbn [List.filter length]. rewrite Nat.add_0_r. exact Hc.
  - rewrite count_adds_cons in *. rewrite run_cons, Nat.add_assoc.
    destruct (step_keeps_cover o k w Hid Hkeys Hc ltac:(lia)) as (Hid' & Hkeys' & Hc').
    apply IH; [exact Hid' | exact Hkeys' | exact Hc' | lia].
Qed.

(** X10: through any sequence of [Add], [Remove] and [CloseByFilter]
    operations on a fresh manager with fewer than 2^63 calls of [Add], no
    counter is ever below the count of registered pairs it stands for
    (so none is negative), and none is above the number of calls of
    [Add]. *)
Theorem counters_never_undercount (ops : list Op) (n : Network) :
  Z.of_nat (count_adds ops) < 2 ^ 63 ->
  counters_cover (count_adds ops) (exec (run ops) (fresh n)).
Proof.
  intros Hk.
  apply (run_keeps_cover ops 0 (fresh n)); [cbn; lia | | | exact Hk].
  - intros key pc H. cbn in H. rewrite lookup_empty in H. discriminate.
  - unfold counters_cover. repeat split; vm_compute; discriminate.
Qed.

Lemma counters_never_undercount_witness :
  Z.of_nat (count_adds [OpAdd (TCPConn 0) (TCPConn 1) http_meta;
                        OpCloseByFilter any_pair]) < 2 ^ 63
  /\ counters_cover
       (count_adds [OpAdd (TCPConn 0) (TCPConn 1) http_meta; OpCloseByFilter any_pair])
       (exec (run [OpAdd (TCPConn 0) (TCPConn 1) http_meta; OpCloseByFilter any_pair])
          (fresh no_network)).
Proof.
  split; [reflexivity |].
  apply (counters_never_undercount
           [OpAdd (TCPConn 0) (TCPConn 1) http_meta; OpCloseByFilter any_pair] no_network).
  reflexivity.
Defined.

End CountersCover.

(** ** More about the admission filter *)

Section FilterMore.

(** ** Lower-casing twice *)

Section LowerTwice.

Implicit Types (r x : N) (s p rest : string) (rs : list N).

Lemma all_from_spec (q : N -> bool) (k : nat) (r0 stride : N) :
  all_from q r0 stride k = true ->
  forall i, (i < N.of_nat k)%N -> q (r0 + stride * i)%N = true.
Proof.
  revert r0. induction k as [| k IH]; intros r0 H i Hi; [lia |].
  cbn [all_from] in H. destruct (q r0) eqn:Eq; [| discriminate].
  destruct (N.eq_dec i 0%N) as [-> | Hne].
  - rewrite N.mul_0_r, N.add_0_r. exact Eq.
  - replace (r0 + stride * i)%N with ((r0 + stride) + stride * (i - 1))%N
      by (rewrite <- N.add_assoc; f_equal; rewrite <- (N.mul_1_r stride) at 1;
          rewrite <- N.mul_add_distr_l; f_equal; lia).
    apply IH; [exact H | lia].
Qed.

Lemma sane_idem r : sane (sane r) = sane r.
Proof.
  unfold sane. destruct ((MaxRune <? r)%N || between 55296 57343 r) eqn:E; [reflexivity |].
  rewrite E. reflexivity.
Qed.

Lemma EncodeRune_sane r : EncodeRune (sane r) = EncodeRune r.
Proof.
  unfold EncodeRune, sane.
  destruct ((MaxRune <? r)%N || between 55296 57343 r) eqn:E; [| rewrite E; reflexivity].
  assert (Hr : (2047 < r)%N).
  { apply orb_true_iff in E as [E | E].
    - apply N.ltb_lt in E. unfold MaxRune in E. lia.
    - apply andb_true_iff in E as [E _]. apply N.leb_le in E. lia. }
  assert (H1 : (r <? RuneSelf)%N = false) by (apply N.ltb_ge; unfold RuneSelf; lia).
  assert (H2 : (r <=? 2047)%N = false) by (apply N.leb_gt; lia).
  rewrite H1, H2. reflexivity.
Qed.

Lemma encodings_decode : all_from rune_round_trip 0 1 (N.to_nat 1114112) = true.
Proof. vm_compute. reflexivity. Qed.

Lemma round_trip_checked r : rune_round_trip r = true.
Proof.
  destruct (N.lt_ge_cases r 1114112%N) as [Hlt | Hge].
  - pose proof (all_from_spec _ _ _ _ encodings_decode r ltac:(lia)) as H.
    rewrite N.add_0_l, N.mul_1_l in H. exact H.
  - unfold rune_round_trip.
    assert (Hs : sane r = RuneError) by (unfold sane;
      replace (MaxRune <? r)%N with true by (symmetry; apply N.ltb_lt; unfold MaxRune; lia);
      reflexivity).
    rewrite <- (EncodeRune_sane r), Hs.
    replace (r <? RuneSelf)%N with false by (symmetry; apply N.ltb_ge; unfold RuneSelf; lia).
    replace (RuneError =? r)%N with false
      by (symmetry; apply N.eqb_neq; unfold RuneError; lia).
    vm_compute. reflexivity.
Qed.

(** *** The table *)

Lemma lower_delta_Some (table : list (N * N * N * Z)) r (d : Z) :
  lower_delta table r = Some d ->
  exists lo hi stride,
    In (lo, hi, stride, d) table /\ (lo <= r <= hi)%N /\ ((r - lo) mod stride = 0)%N.
Proof.
  induction table as [| [[[lo hi] stride] delta] table IH]; [discriminate |].
  cbn [lower_delta]. destruct (between lo hi r) eqn:Eb.
  - destruct ((r - lo) mod stride =? 0)%N eqn:Em.
    + intros [= <-]. exists lo, hi, stride. split; [left; reflexivity |].
      unfold between in Eb. apply andb_true_iff in Eb as [E1 E2].
      apply N.leb_le in E1, E2. apply N.eqb_eq in Em. auto.
    + intros H. destruct (IH H) as (lo' & hi' & st' & Hin & Hr). eauto 10 using in_cons.
  - intros H. destruct (IH H) as (lo' & hi' & st' & Hin & Hr). eauto 10 using in_cons.
Qed.

Lemma table_settles : forallb entry_settles lower_ranges = true.
Proof. vm_compute. reflexivity. Qed.

Lemma ascii_settles :
  all_from (fun r => settled (sane (unicode_ToLower r))) 0 1 128 = true.
Proof. vm_compute. reflexivity. Qed.

Lemma sane_cases r : sane r = r \/ sane r = RuneError.
Proof. unfold sane. destruct (_ || _); auto. Qed.

Lemma settled_RuneError : settled RuneError = true.
Proof. vm_compute. reflexivity. Qed.

(** Whatever the rune, its lower-case form as it is written is settled. *)
Lemma lower_settles r : settled (sane (unicode_ToLower r)) = true.
Proof.
  destruct (N.lt_ge_cases r 128%N) as [Hlt | Hge].
  - pose proof (all_from_spec _ _ _ _ ascii_settles r ltac:(lia)) as H.
    cbn beta in H. rewrite N.add_0_l, N.mul_1_l in H. exact H.
  - unfold unicode_ToLower.
    replace (r <? RuneSelf)%N with false by (symmetry; apply N.ltb_ge; unfold RuneSelf; lia).
    destruct (lower_delta lower_ranges r) as [d |] eqn:Ed.
    + destruct (lower_delta_Some _ _ _ Ed) as (lo & hi & stride & Hin & [Hlo Hhi] & Hmod).
      pose proof (proj1 (forallb_forall _ _) table_settles _ Hin) as He.
      cbn beta iota in He. unfold entry_settles in He.
      apply andb_true_iff in He as [He Hall]. apply andb_true_iff in He as [Hst _].
      apply N.ltb_lt in Hst.
      pose proof (N.div_mod (r - lo) stride ltac:(lia)) as Hdm. rewrite Hmod, N.add_0_r in Hdm.
      assert (Hi : ((r - lo) / stride < N.of_nat (N.to_nat ((hi - lo) / stride + 1)))%N).
      { rewrite N2Nat.id.
        pose proof (N.Div0.div_le_mono (r - lo) (hi - lo) stride ltac:(lia)). lia. }
      pose proof (all_from_spec _ _ _ _ Hall _ Hi) as H. cbn beta in H.
      rewrite <- Hdm in H. replace (lo + (r - lo))%N with r in H by lia. exact H.
    + destruct (sane_cases r) as [Hs | Hs]; rewrite Hs; [| exact settled_RuneError].
      unfold settled. rewrite Hs, N.eqb_refl.
      unfold unicode_ToLower.
      replace (r <? RuneSelf)%N with false
        by (symmetry; apply N.ltb_ge; unfold RuneSelf; lia).
      rewrite Ed, N.eqb_refl. cbn [andb]. unfold between.
      replace (r <=? 90)%N with false by (symmetry; apply N.leb_gt; lia).
      rewrite andb_false_r. reflexivity.
Qed.

Lemma settled_spec x :
  settled x = true ->
  unicode_ToLower x = x /\ sane x = x /\ between 65 90 x = false.
Proof.
  unfold settled. intros H. apply andb_true_iff in H as [H H3].
  apply andb_true_iff in H as [H1 H2]. apply N.eqb_eq in H1, H2.
  apply negb_true_iff in H3. auto.
Qed.

(** *** Strings of encodings *)

Lemma app_cons (c : ascii) s rest : String c s +:+ rest = String c (s +:+ rest).
Proof. reflexivity. Qed.

Lemma str_app_assoc s p rest : (s +:+ p) +:+ rest = s +:+ (p +:+ rest).
Proof. induction s as [| c s IH]; [reflexivity |]. rewrite !app_cons, IH. reflexivity. Qed.

Lemma isASCII_app s rest : isASCII (s +:+ rest) = isASCII s && isASCII rest.
Proof.
  induction s as [| c s IH]; [reflexivity |].
  rewrite app_cons. cbn [isASCII]. rewrite IH, andb_assoc. reflexivity.
Qed.

Ltac decode_failed Hd Hne :=
  injection Hd as <- <-; exfalso; apply Hne; reflexivity.

(** A rune decoded over the whole of [p] is decoded the same with more
    bytes after [p]. *)
Lemma decode_prefix p rest r (w : nat) :
  DecodeRuneInString p = (r, w) ->
  w = String.length p ->
  (1 <= w)%nat ->
  (r = RuneError -> w <> 1%nat) ->
  DecodeRuneInString (p +:+ rest) = (r, w).
Proof.
  intros Hd Hw Hpos Hne.
  destruct p as [| c0 p]; [cbn [String.length] in Hw; lia |].
  rewrite app_cons. unfold DecodeRuneInString in *.
  destruct (N_of_ascii c0 <? RuneSelf)%N.
  { injection Hd as <- <-. reflexivity. }
  destruct (leading (N_of_ascii c0)) as [[[sz lo] hi] |]; [| decode_failed Hd Hne].
  destruct p as [| c1 p]; [decode_failed Hd Hne |].
  rewrite app_cons.
  destruct (negb (between lo hi (N_of_ascii c1))); [decode_failed Hd Hne |].
  destruct (sz =? 2)%N; [exact Hd |].
  destruct p as [| c2 p]; [decode_failed Hd Hne |].
  rewrite app_cons.
  destruct (negb (between 128 191 (N_of_ascii c2))); [decode_failed Hd Hne |].
  destruct (sz =? 3)%N; [exact Hd |].
  destruct p as [| c3 p]; [decode_failed Hd Hne |].
  rewrite app_cons.
  destruct (negb (between 128 191 (N_of_ascii c3))); [decode_failed Hd Hne |].
  exact Hd.
Qed.

Lemma length_app_str s rest :
  String.length (s +:+ rest) = (String.length s + String.length rest)%nat.
Proof. induction s as [| c s IH]; [reflexivity |]. rewrite app_cons. cbn. rewrite IH. reflexivity. Qed.

Lemma map_runes_skip (f : N -> N) p rest :
  map_runes f (String.length p) (p +:+ rest) = map_runes f 0 rest.
Proof.
  induction p as [| c p IH]; [reflexivity |].
  rewrite app_cons. cbn [String.length map_runes]. exact IH.
Qed.

Lemma length_RuneError : String.length (EncodeRune RuneError) = 3%nat.
Proof. reflexivity. Qed.

(** [Map] over one encoded rune and what follows it. *)
Lemma map_runes_encode (f : N -> N) r rest :
  sane r = r ->
  map_runes f 0 (EncodeRune r +:+ rest) = EncodeRune (f r) +:+ map_runes f 0 rest.
Proof.
  intros Hs. pose proof (round_trip_checked r) as Hrt. unfold rune_round_trip in Hrt.
  cbn zeta in Hrt. apply andb_true_iff in Hrt as [_ Hrt].
  rewrite Hs, N.eqb_refl in Hrt.
  destruct (DecodeRuneInString (EncodeRune r)) as [r' w] eqn:Ed.
  apply andb_true_iff in Hrt as [Hrt Hpos]. apply andb_true_iff in Hrt as [Hr Hw].
  apply N.eqb_eq in Hr. apply Nat.eqb_eq in Hw. apply Nat.leb_le in Hpos. subst r'.
  assert (Hne : r = RuneError -> w <> 1%nat).
  { intros ->. rewrite Hw, length_RuneError. lia. }
  pose proof (decode_prefix _ rest _ _ Ed Hw Hpos Hne) as Hd.
  destruct (EncodeRune_cons r) as (c & t & Ee). rewrite Ee in *.
  rewrite app_cons in *. cbn [map_runes]. rewrite Hd. f_equal.
  cbn [String.length] in Hw. rewrite Hw.
  replace (S (String.length t) - 1)%nat with (String.length t) by lia.
  apply map_runes_skip.
Qed.

(** A string of settled runes is left as it is by [Map unicode.ToLower]. *)
Lemma Map_settled rs :
  Forall (fun x => settled x = true) rs ->
  Map unicode_ToLower (encode_all rs) = encode_all rs.
Proof.
  unfold Map. induction 1 as [| x rs Hx _ IH]; [reflexivity |].
  destruct (settled_spec x Hx) as (Hl & Hs & _).
  cbn [encode_all]. rewrite (map_runes_encode _ x _ Hs), Hl, IH. reflexivity.
Qed.

(** What [Map unicode.ToLower] returns is a string of settled runes. *)
Lemma map_runes_settles s (k : nat) :
  exists rs, Forall (fun x => settled x = true) rs
             /\ map_runes unicode_ToLower k s = encode_all rs.
Proof.
  revert k. induction s as [| c s IH]; intros k.
  - exists []. split; [constructor | reflexivity].
  - cbn [map_runes]. destruct k as [| k]; [| apply IH].
    destruct (DecodeRuneInString (String c s)) as [r w].
    destruct (IH (w - 1)%nat) as (rs & Hrs & ->).
    exists (sane (unicode_ToLower r) :: rs). split.
    + constructor; [apply lower_settles | exact Hrs].
    + cbn [encode_all]. rewrite EncodeRune_sane. reflexivity.
Qed.

(** *** The ASCII branch *)

Lemma lower_ascii_idem (c : ascii) : lower_ascii (lower_ascii c) = lower_ascii c.
Proof. destruct c as [[] [] [] [] [] [] [] []]; reflexivity. Qed.

Lemma lower_ascii_below (c : ascii) :
  (N_of_ascii c <? RuneSelf)%N = true -> (N_of_ascii (lower_ascii c) <? RuneSelf)%N = true.
Proof. destruct c as [[] [] [] [] [] [] [] []]; intros H; first [exact H | reflexivity]. Qed.

Lemma lower_bytes_idem s : lower_bytes (lower_bytes s) = lower_bytes s.
Proof.
  induction s as [| c s IH]; [reflexivity |].
  cbn [lower_bytes]. rewrite lower_ascii_idem, IH. reflexivity.
Qed.

Lemma isASCII_lower_bytes s : isASCII s = true -> isASCII (lower_bytes s) = true.
Proof.
  induction s as [| c s IH]; [reflexivity |]. cbn [isASCII lower_bytes].
  intros H. apply andb_true_iff in H as [Hc Hs].
  rewrite (lower_ascii_below c Hc), (IH Hs). reflexivity.
Qed.

(** A string of settled runes that is all ASCII has no letter of [A-Z]. *)
Lemma lower_bytes_settled rs :
  Forall (fun x => settled x = true) rs ->
  isASCII (encode_all rs) = true ->
  lower_bytes (encode_all rs) = encode_all rs.
Proof.
  induction 1 as [| x rs Hx _ IH]; [reflexivity |].
  cbn [encode_all]. rewrite isASCII_app. intros H. apply andb_true_iff in H as [Hx' Hrs].
  destruct (settled_spec x Hx) as (_ & _ & Hup).
  pose proof (round_trip_checked x) as Hrt. unfold rune_round_trip in Hrt. cbn zeta in Hrt.
  apply andb_true_iff in Hrt as [Hrt _].
  destruct (x <? RuneSelf)%N eqn:Elt; [| rewrite Hx' in Hrt; discriminate].
  unfold EncodeRune. rewrite Elt. rewrite !app_cons. cbn [String.append lower_bytes].
  change ("" +:+ encode_all rs) with (encode_all rs).
  rewrite (IH Hrs). f_equal.
  unfold lower_ascii. apply N.ltb_lt in Elt. unfold RuneSelf in Elt.
  rewrite N_ascii_embedding by lia.
  unfold between in Hup. rewrite Hup. reflexivity.
Qed.

(** [strings.ToLower] of a lower-cased string is that string. *)
Lemma ToLower_idem s : ToLower (ToLower s) = ToLower s.
Proof.
  unfold ToLower at 2 3. destruct (isASCII s) eqn:Ea.
  - unfold ToLower. rewrite (isASCII_lower_bytes s Ea). apply lower_bytes_idem.
  - unfold Map. destruct (map_runes_settles s 0) as (rs & Hrs & ->).
    unfold ToLower. destruct (isASCII (encode_all rs)) eqn:Eb.
    + apply lower_bytes_settled; assumption.
    + apply Map_settled. exact Hrs.
Qed.

End LowerTwice.

(** X11: after [Reload(hosts, snis)], [AllowSNI] returns true exactly for
    the names whose lower-case form is the lower-case form of a member of
    [snis]; the host list and the filter's earlier state play no part. *)
Theorem AllowSNI_exact_match (f : RequestFilter) (hosts snis : list string) (now : N)
    (sni : string) :
  AllowSNI (Reload f hosts snis now) sni = true
  <-> exists s, In s snis /\ ToLower s = ToLower sni.
Proof.
  rewrite AllowSNI_true_iff. cbn [Reload allowedSNIs]. apply elem_of_load_names.
Qed.

(** X12: the answers of [AllowHTTP] and [AllowSNI] do not depend on letter
    case, and [AllowHTTP]'s not on the path: a name and its lower-case form
    (as [strings.ToLower] gives it, for every letter of Unicode) get the
    same answer in every filter state. *)
Theorem filter_ignores_case_and_path (f : RequestFilter) (name path path' : string) :
  AllowHTTP f (ToLower name) path' = AllowHTTP f name path
  /\ AllowSNI f (ToLower name) = AllowSNI f name.
Proof.
  unfold AllowHTTP, AllowSNI. rewrite ToLower_idem. split; reflexivity.
Qed.

(** X13: every name handed to [Reload] is admitted afterwards, however it
    is spelled in upper and lower case in the list or in the query. *)
Theorem Reload_admits_listed (f : RequestFilter) (hosts snis : list string) (now : N)
    (name query path : string) :
  ToLower query = ToLower name ->
  (In name hosts -> AllowHTTP (Reload f hosts snis now) query path = true)
  /\ (In name snis -> AllowSNI (Reload f hosts snis now) query = true).
Proof.
  intros Hq. split; intros Hin.
  - apply AllowHTTP_true_iff. cbn [Reload allowedHosts]. apply elem_of_load_names.
    exists name. auto.
  - apply AllowSNI_true_iff. cbn [Reload allowedSNIs]. apply elem_of_load_names.
    exists name. auto.
Qed.

Lemma Reload_admits_listed_witness :
  ToLower e_acute_com = ToLower E_acute_com
  /\ (In E_acute_com [E_acute_com] ->
      AllowHTTP (Reload NewRequestFilter [E_acute_com] [] 5) e_acute_com "/" = true).
Proof.
  split; [vm_compute; reflexivity |].
  apply (Reload_admits_listed NewRequestFilter [E_acute_com] [] 5
           E_acute_com e_acute_com "/").
  vm_compute. reflexivity.
Defined.

End FilterMore.

(** ** What a copy moves *)

Section CopyMoves.

Implicit Types (n : Network) (fd r : N) (data : list byte).

Lemma same_ends_refl n : same_ends n n.
Proof. unfold same_ends. auto 10. Qed.

Lemma same_ends_trans n1 n2 n3 : same_ends n1 n2 -> same_ends n2 n3 -> same_ends n1 n3.
Proof.
  intros (A1 & A2 & A3 & A4) (B1 & B2 & B3 & B4). unfold same_ends.
  repeat split; try congruence.
  - rewrite (proj1 (B4 fd)). apply A4.
  - rewrite (proj2 (B4 fd)). apply A4.
Qed.

(** Replacing a socket by one that differs in its data only. *)
Lemma set_socks_same_ends n fd (s s' : Socket) :
  socks n !! fd = Some s -> remote s' = remote s -> closed s' = closed s ->
  same_ends n (set_socks <[fd := s']> n).
Proof.
  intros Es Hr Hc. unfold same_ends. cbn [set_socks socks nextFd origins dialed].
  repeat split; intros;
    (destruct (decide (fd = fd0)) as [<- | Hne];
     [rewrite lookup_insert_eq, Es; cbn; congruence
     | rewrite lookup_insert_ne by exact Hne; reflexivity]).
Qed.

Lemma set_readers_same_ends n (f : gmap N Reader -> gmap N Reader) :
  same_ends n (set_readers f n).
Proof. unfold same_ends. cbn. auto 10. Qed.

Lemma sent_set_socks n fd (s s' : Socket) fd' :
  socks n !! fd = Some s -> outbound s' = outbound s ->
  sent fd' (set_socks <[fd := s']> n) = sent fd' n.
Proof.
  intros Es Ho. unfold sent. cbn [set_socks socks].
  destruct (decide (fd = fd')) as [<- | Hne];
    [rewrite lookup_insert_eq, Es; cbn; congruence
    | rewrite lookup_insert_ne by exact Hne; reflexivity].
Qed.

(** A read of a socket moves pending data only. *)
Lemma payload_fd_set_socks n fd (s' : Socket) fd' :
  fd' <> fd -> payload_fd fd' (set_socks <[fd := s']> n) = payload_fd fd' n.
Proof.
  intros Hne. unfold payload_fd. cbn [set_socks socks].
  rewrite lookup_insert_ne by congruence. reflexivity.
Qed.

Lemma sock_Read_frame fd (cap : nat) n :
  same_ends n (exec (sock_Read fd cap) n)
  /\ readers (exec (sock_Read fd cap) n) = readers n
  /\ (forall fd', sent fd' (exec (sock_Read fd cap) n) = sent fd' n)
  /\ (forall fd', fd' <> fd -> payload_fd fd' (exec (sock_Read fd cap) n) = payload_fd fd' n).
Proof.
  unfold sock_Read, exec.
  destruct (socks n !! fd) as [s |] eqn:Es;
    [| split; [apply same_ends_refl | auto]].
  destruct (closed s) eqn:Ec; [split; [apply same_ends_refl | auto] |].
  destruct (Nat.eqb cap 0); [split; [apply same_ends_refl | auto] |].
  destruct (recv cap (inbound s)) as [data segs].
  destruct data; cbn [snd];
    (split; [apply (set_socks_same_ends n fd s); [exact Es | reflexivity | cbn; congruence] |]);
    (split; [reflexivity |]);
    (split; [intros fd'; apply (sent_set_socks n fd s); auto
            | intros fd' Hne; apply payload_fd_set_socks; exact Hne]).
Qed.

(** A write to an open socket succeeds, appends to what that socket has
    been sent and leaves everything else. *)
Lemma sock_Write_frame fd data n :
  is_open n fd ->
  eval (sock_Write fd data) n = None
  /\ same_ends n (exec (sock_Write fd data) n)
  /\ readers (exec (sock_Write fd data) n) = readers n
  /\ sent fd (exec (sock_Write fd data) n) = (fun out => (out ++ data)%list) <$> sent fd n
  /\ (forall fd', fd' <> fd -> sent fd' (exec (sock_Write fd data) n) = sent fd' n)
  /\ (forall fd', payload_fd fd' (exec (sock_Write fd data) n) = payload_fd fd' n).
Proof.
  intros (s & Es & Ec). unfold sock_Write, eval, exec. rewrite Es, Ec. cbn [fst snd].
  split; [reflexivity |].
  split; [apply (set_socks_same_ends n fd s); [exact Es | reflexivity | cbn; congruence] |].
  split; [reflexivity |]. unfold sent, payload_fd. cbn [set_socks socks].
  split; [rewrite lookup_insert_eq, Es; reflexivity |]. split.
  - intros fd' Hne. rewrite lookup_insert_ne by congruence. reflexivity.
  - intros fd'. destruct (decide (fd = fd')) as [<- | Hne];
      [rewrite lookup_insert_eq, Es; reflexivity
      | rewrite lookup_insert_ne by exact Hne; reflexivity].
Qed.

Lemma is_open_same_ends n n' fd : same_ends n n' -> is_open n fd -> is_open n' fd.
Proof.
  intros (_ & _ & _ & H) (s & Es & Ec). destruct (H fd) as [Hc _].
  rewrite Es in Hc. cbn in Hc. unfold is_open.
  destruct (socks n' !! fd) as [s' |]; [| discriminate].
  exists s'. cbn in Hc. split; [reflexivity | congruence].
Qed.

Lemma put_reader_frame r (b : Reader) n :
  same_ends n (exec (Bufio.put_reader r b) n)
  /\ socks (exec (Bufio.put_reader r b) n) = socks n.
Proof.
  unfold Bufio.put_reader, modify, exec. cbn [snd].
  split; [apply set_readers_same_ends | reflexivity].
Qed.

End CopyMoves.

Section CopyMoves2.

Implicit Types (n : Network) (fd r : N) (data : list byte).

Lemma sent_socks_eq n n' : socks n' = socks n -> forall fd, sent fd n' = sent fd n.
Proof. intros H fd. unfold sent. rewrite H. reflexivity. Qed.

Lemma readErr_frame r n :
  same_ends n (exec (Bufio.readErr r) n)
  /\ (forall fd, sent fd (exec (Bufio.readErr r) n) = sent fd n).
Proof.
  unfold Bufio.readErr. rewrite !exec_bind, exec_ret.
  replace (exec (Bufio.the_reader r) n) with n by reflexivity.
  destruct (put_reader_frame r
              {| rd := rd (eval (Bufio.the_reader r) n);
                 buffered := buffered (eval (Bufio.the_reader r) n); rerr := None |} n)
    as [H1 H2].
  split; [exact H1 | apply sent_socks_eq, H2].
Qed.

Lemma payload_socks_eq n n' : socks n' = socks n -> forall fd, payload_fd fd n' = payload_fd fd n.
Proof. intros H fd. unfold payload_fd. rewrite H. reflexivity. Qed.

(** A read through a buffered reader moves pending data only, and only its
    own socket's, in any state. *)
Lemma Bufio_Read_frame r (cap : nat) n :
  same_ends n (exec (Bufio.Read r cap) n)
  /\ (forall fd, sent fd (exec (Bufio.Read r cap) n) = sent fd n)
  /\ (forall fd, fd <> rd (eval (Bufio.the_reader r) n) ->
                 payload_fd fd (exec (Bufio.Read r cap) n) = payload_fd fd n).
Proof.
  unfold Bufio.Read. rewrite exec_bind.
  replace (exec (Bufio.the_reader r) n) with n by reflexivity.
  set (b := eval (Bufio.the_reader r) n).
  assert (Hput : forall x m, same_ends n m -> (forall fd, sent fd m = sent fd n) ->
             (forall fd, fd <> rd b -> payload_fd fd m = payload_fd fd n) ->
             same_ends n (exec (Bufio.put_reader r x) m)
             /\ (forall fd, sent fd (exec (Bufio.put_reader r x) m) = sent fd n)
             /\ (forall fd, fd <> rd b ->
                    payload_fd fd (exec (Bufio.put_reader r x) m) = payload_fd fd n)).
  { intros x m H1 H2 H3. destruct (put_reader_frame r x m) as [P1 P2].
    split; [exact (same_ends_trans _ _ _ H1 P1) |].
    split; [intros fd; rewrite (sent_socks_eq _ _ P2); apply H2 |].
    intros fd Hne. rewrite (payload_socks_eq _ _ P2). apply H3, Hne. }
  assert (Herr : forall k : option error -> State Network (list byte * option error),
             (forall e m, exec (k e) m = m) ->
             same_ends n (exec (bind (Bufio.readErr r) k) n)
             /\ (forall fd, sent fd (exec (bind (Bufio.readErr r) k) n) = sent fd n)
             /\ (forall fd, fd <> rd b ->
                    payload_fd fd (exec (bind (Bufio.readErr r) k) n) = payload_fd fd n)).
  { intros k Hk. rewrite exec_bind, Hk. unfold Bufio.readErr.
    rewrite !exec_bind, exec_ret.
    replace (exec (Bufio.the_reader r) n) with n by reflexivity.
    apply Hput; [apply same_ends_refl | auto | auto]. }
  destruct (buffered b) as [| x xs] eqn:Ebuf.
  - destruct (Nat.eqb cap 0); [apply Herr; reflexivity |].
    destruct (rerr b); [apply Herr; reflexivity |].
    destruct (Nat.leb Bufio.defaultBufSize cap).
    + rewrite exec_bind.
      destruct (eval (sock_Read (rd b) cap) n) as [data err]. rewrite exec_ret.
      destruct (sock_Read_frame (rd b) cap n) as (H1 & _ & H3 & H4). auto.
    + rewrite exec_bind.
      destruct (sock_Read_frame (rd b) Bufio.defaultBufSize n) as (H1 & _ & H3 & H4).
      destruct (eval (sock_Read (rd b) Bufio.defaultBufSize) n) as [data err].
      destruct data as [| y ys]; [rewrite exec_ret; auto |].
      rewrite exec_bind, exec_ret. apply Hput; auto.
  - rewrite exec_bind, exec_ret. apply Hput; [apply same_ends_refl | auto | auto].
Qed.

Lemma payload_fd_open n fd segs : open_with n fd segs -> payload_fd fd n = concat segs.
Proof. intros (s & Es & _ & Hin). unfold payload_fd. rewrite Es, Hin. reflexivity. Qed.

Lemma is_open_open_with n fd segs : open_with n fd segs -> is_open n fd.
Proof. intros (s & Es & Ec & _). exists s. auto. Qed.

Lemma open_with_is_open n fd : is_open n fd -> exists segs, open_with n fd segs.
Proof. intros (s & Es & Ec). exists (inbound s), s. auto. Qed.

(** One read of a readable source: some of the bytes it has to deliver, in
    order, with [EOF] exactly when none are left; only pending data moves. *)
Lemma source_Read_moves (src : Source) (cap : nat) n :
  readable src n -> (0 < cap)%nat ->
  exists data n',
    Conn.source_Read src cap n = ((data, eof_if_empty data), n')
    /\ (data ++ payload src n')%list = payload src n
    /\ (data = [] -> payload src n = [])
    /\ readable src n'
    /\ same_ends n n'
    /\ (forall fd, sent fd n' = sent fd n)
    /\ source_fd src n' = source_fd src n
    /\ (forall fd, fd <> source_fd src n -> payload_fd fd n' = payload_fd fd n).
Proof.
  intros [Hopen Hrd] Hcap.
  destruct (source_reader src) as [r |] eqn:Esrc.
  - (* through a buffered reader *)
    destruct Hrd as ([fd buf e] & Eb & He). cbn [rerr] in He. subst e.
    assert (Hfd : source_fd src n = fd).
    { unfold source_fd. rewrite Esrc, Eb. reflexivity. }
    rewrite Hfd in Hopen.
    destruct (open_with_is_open n fd Hopen) as [segs Ho].
    assert (Hread : Conn.source_Read src cap = Bufio.Read r cap).
    { destruct src as [[fd0 | c r0] | r0]; cbn in Esrc; try discriminate;
        injection Esrc as ->; reflexivity. }
    destruct (Bufio_Read_open n r fd buf segs cap Eb Ho Hcap)
      as (data & buf' & segs' & n' & E & Hr' & Ho' & Hcat & Hnil).
    destruct (Bufio_Read_frame r cap n) as (Hends & Hsent & Hpayl).
    assert (En' : exec (Bufio.Read r cap) n = n') by (unfold exec; rewrite E; reflexivity).
    rewrite En' in Hends, Hsent, Hpayl.
    assert (Hrdb : rd (eval (Bufio.the_reader r) n) = fd).
    { unfold Bufio.the_reader, eval. cbn. unfold reader_with in Eb. rewrite Eb. reflexivity. }
    rewrite Hrdb in Hpayl.
    assert (Hpay : forall m b' s', readers m !! r = Some {| rd := fd; buffered := b'; rerr := None |} ->
                     open_with m fd s' -> payload src m = (b' ++ concat s')%list).
    { intros m b' s' Hm Hs. unfold payload. rewrite Esrc. unfold payload_reader.
      rewrite Hm. cbn [buffered rd]. rewrite (payload_fd_open m fd s' Hs). reflexivity. }
    exists data, n'. rewrite Hread. split; [exact E |].
    rewrite (Hpay n' buf' segs' Hr' Ho'), (Hpay n buf segs Eb Ho).
    split; [exact Hcat |]. split; [exact Hnil |].
    assert (Hfd' : source_fd src n' = fd).
    { unfold source_fd. rewrite Esrc. unfold reader_with in Hr'. rewrite Hr'. reflexivity. }
    split; [| rewrite Hfd', Hfd; auto].
    split.
    + rewrite Hfd'. exact (is_open_open_with _ _ _ Ho').
    + rewrite Esrc. eexists. split; [exact Hr' | reflexivity].
  - (* a socket *)
    destruct src as [[fd | c r0] | r0]; cbn in Esrc; try discriminate.
    cbn [source_fd source_reader conn_fd] in Hopen.
    destruct (open_with_is_open n fd Hopen) as [segs Ho].
    destruct (sock_Read_open n fd segs cap Ho Hcap)
      as (data & segs' & n' & E & Ho' & _ & Hcat & Hnil).
    destruct (sock_Read_frame fd cap n) as (Hends & _ & Hsent & Hpayl).
    assert (En' : exec (sock_Read fd cap) n = n') by (unfold exec; rewrite E; reflexivity).
    rewrite En' in Hends, Hsent, Hpayl.
    exists data, n'. cbn [Conn.source_Read Conn.Read]. split; [exact E |].
    unfold payload. cbn [source_reader conn_fd].
    rewrite (payload_fd_open _ _ _ Ho'), (payload_fd_open _ _ _ Ho).
    split; [exact Hcat |]. split; [exact Hnil |].
    split; [split; [exact (is_open_open_with _ _ _ Ho') | exact I] |].
    cbn [source_fd source_reader conn_fd]. auto.
Qed.

(** A write to an open socket leaves every source as readable as it was,
    with the same bytes to deliver. *)
Lemma Write_keeps_source (src : Source) (dst : Conn) data n :
  is_open n (conn_fd dst) -> readable src n ->
  readable src (exec (Conn.Write dst data) n)
  /\ payload src (exec (Conn.Write dst data) n) = payload src n
  /\ source_fd src (exec (Conn.Write dst data) n) = source_fd src n.
Proof.
  intros Hdst [Hopen Hrd]. unfold Conn.Write.
  destruct (sock_Write_frame (conn_fd dst) data n Hdst) as (_ & Hends & Hreaders & _ & _ & Hpay).
  split; [| split; [| unfold source_fd; rewrite Hreaders; reflexivity]].
  - split.
    + unfold source_fd. rewrite Hreaders. exact (is_open_same_ends _ _ _ Hends Hopen).
    + destruct (source_reader src); [rewrite Hreaders; exact Hrd | exact I].
  - unfold payload, payload_reader. rewrite Hreaders.
    destruct (source_reader src) as [r |]; [destruct (readers n !! r) |
      destruct src as [c | r0]]; rewrite ?Hpay; try reflexivity.
    destruct (readers n !! r0); rewrite ?Hpay; reflexivity.
Qed.

(** The loop of [io.Copy] from a readable source to an open socket: all the
    bytes the source has to deliver are appended, in order, to what the
    destination has been sent; the copy returns no error; nothing is left
    at the source; nothing else moves. *)
Lemma copy_loop_moves (rounds : nat) (dst : Conn) (src : Source) n :
  readable src n -> is_open n (conn_fd dst) ->
  (length (payload src n) < rounds)%nat ->
  exists n',
    Conn.copy_loop rounds dst src n = (Some None, n')
    /\ sent (conn_fd dst) n'
       = (fun out => (out ++ payload src n)%list) <$> sent (conn_fd dst) n
    /\ (forall fd, fd <> conn_fd dst -> sent fd n' = sent fd n)
    /\ payload src n' = []
    /\ readable src n'
    /\ same_ends n n'
    /\ (forall fd, fd <> source_fd src n -> payload_fd fd n' = payload_fd fd n).
Proof.
  revert n. induction rounds as [| rounds IH]; intros n Hsrc Hdst Hlen; [lia |].
  cbn [Conn.copy_loop]. unfold bind at 1.
  destruct (source_Read_moves src Conn.copyBufSize n Hsrc copyBufSize_pos)
    as (data & n1 & -> & Hcat & Hnil & Hsrc1 & Hends1 & Hsent1 & Hfd1 & Hpayl1).
  pose proof (is_open_same_ends _ _ _ Hends1 Hdst) as Hdst1.
  destruct data as [| b data].
  - (* end of the source *)
    cbn [eof_if_empty]. unfold bind, ret. exists n1.
    split; [reflexivity |]. rewrite (Hnil eq_refl) in *.
    split; [rewrite Hsent1; destruct (sent (conn_fd dst) n); cbn; rewrite ?app_nil_r; reflexivity |].
    split; [intros fd _; apply Hsent1 |].
    split; [cbn in Hcat; exact Hcat |]. auto.
  - cbn [eof_if_empty]. unfold bind at 1.
    destruct (sock_Write_frame (conn_fd dst) (b :: data) n1 Hdst1)
      as (Hnil' & Hends2 & Hreaders2 & Hsent2 & Hother2 & Hpayl2).
    destruct (Write_keeps_source src dst (b :: data) n1 Hdst1 Hsrc1) as (Hsrc2 & Hpay2 & Hfd2).
    unfold Conn.Write at 1. rewrite (run_pair (sock_Write _ _) n1), Hnil'.
    set (n2 := exec (sock_Write (conn_fd dst) (b :: data)) n1) in *.
    unfold Conn.Write in Hsrc2, Hpay2, Hfd2. fold n2 in Hsrc2, Hpay2, Hfd2.
    assert (Hlen2 : (length (payload src n2) < rounds)%nat).
    { rewrite Hpay2. apply (f_equal (@length byte)) in Hcat.
      rewrite length_app in Hcat. cbn [length] in Hcat. lia. }
    destruct (IH n2 Hsrc2 (is_open_same_ends _ _ _ Hends2 Hdst1) Hlen2)
      as (n' & -> & Hsent' & Hother' & Hpay' & Hsrc' & Hends' & Hpayl').
    exists n'. split; [reflexivity |].
    split.
    { rewrite Hsent', Hsent2, Hsent1, Hpay2, <- Hcat.
      destruct (sent (conn_fd dst) n); cbn; [rewrite <- app_assoc |]; reflexivity. }
    split.
    { intros fd Hne. rewrite (Hother' fd Hne), (Hother2 fd Hne). apply Hsent1. }
    split; [exact Hpay' |]. split; [exact Hsrc' |].
    split; [exact (same_ends_trans _ _ _ Hends1 (same_ends_trans _ _ _ Hends2 Hends')) |].
    intros fd Hne. rewrite Hpayl' by (rewrite Hfd2, Hfd1; exact Hne).
    rewrite Hpayl2. apply Hpayl1, Hne.
Qed.

End CopyMoves2.

Lemma Copy_moves (dst : Conn) (src : Source) (n : Network) :
  readable src n ->
  is_open n (conn_fd dst) ->
  eval (Conn.Copy dst src) n = Some None
  /\ sent (conn_fd dst) (exec (Conn.Copy dst src) n)
     = (fun out => (out ++ payload src n)%list) <$> sent (conn_fd dst) n
  /\ (forall fd, fd <> conn_fd dst -> sent fd (exec (Conn.Copy dst src) n) = sent fd n)
  /\ payload src (exec (Conn.Copy dst src) n) = []
  /\ same_ends n (exec (Conn.Copy dst src) n)
  /\ readable src (exec (Conn.Copy dst src) n)
  /\ (forall fd, fd <> source_fd src n ->
        payload_fd fd (exec (Conn.Copy dst src) n) = payload_fd fd n).
Proof.
  intros Hsrc Hdst. unfold Conn.Copy, eval, exec.
  assert (Hlen : (length (payload src n) < 2 + Conn.pending src n)%nat).
  { enough (length (payload src n) = Conn.pending src n) by lia.
    unfold payload, Conn.pending, payload_reader, Conn.pending_reader, payload_fd,
      Conn.pending_fd.
    destruct src as [[fd | c r] | r]; cbn [source_reader conn_fd];
      try destruct (readers n !! r) as [b |]; rewrite ?length_app;
      try destruct (socks n !! _); reflexivity. }
  destruct (copy_loop_moves _ dst src n Hsrc Hdst Hlen)
    as (n' & -> & Hsent & Hother & Hpay & Hrd & Hends & Hpayl).
  cbn [fst snd]. auto 10.
Qed.


(** X14: [io.Copy], and so [proxyCopy], from a readable source (a socket,
    the wrapped connection or a hijacked buffer) to an open socket appends
    to what the destination has been sent exactly the bytes the source had
    to deliver, buffered ones first, and returns no error; afterwards the
    source has nothing left, no other socket has been sent anything, and no
    socket has been closed. *)
Theorem Copy_moves_everything (dst : Conn) (src : Source) (n : Network) :
  readable src n ->
  is_open n (conn_fd dst) ->
  eval (Conn.Copy dst src) n = Some None
  /\ sent (conn_fd dst) (exec (Conn.Copy dst src) n)
     = (fun out => (out ++ payload src n)%list) <$> sent (conn_fd dst) n
  /\ (forall fd, fd <> conn_fd dst -> sent fd (exec (Conn.Copy dst src) n) = sent fd n)
  /\ payload src (exec (Conn.Copy dst src) n) = []
  /\ same_ends n (exec (Conn.Copy dst src) n).
Proof.
  intros Hsrc Hdst.
  destruct (Copy_moves dst src n Hsrc Hdst) as (H1 & H2 & H3 & H4 & H5 & _). auto.
Qed.

Lemma Copy_moves_everything_witness :
  readable (FromConn (connWithBufferedReader 0 0))
    (exec (Dial "example.com:443")
       (exec (peekClientHelloSNI 0) (accepted [client_hello; ABC] ["example.com:443"])))
  /\ sent 1 (exec (Conn.Copy (TCPConn 1) (FromConn (connWithBufferedReader 0 0)))
               (exec (Dial "example.com:443")
                  (exec (peekClientHelloSNI 0)
                     (accepted [client_hello; ABC] ["example.com:443"]))))
     = Some (client_hello ++ ABC)%list.
Proof.
  assert (Hr : readable (FromConn (connWithBufferedReader 0 0))
    (exec (Dial "example.com:443")
       (exec (peekClientHelloSNI 0) (accepted [client_hello; ABC] ["example.com:443"])))).
  { split; [eexists; split; vm_compute; reflexivity |].
    eexists. split; vm_compute; reflexivity. }
  split; [exact Hr |].
  destruct (Copy_moves_everything (TCPConn 1) (FromConn (connWithBufferedReader 0 0))
              (exec (Dial "example.com:443")
                 (exec (peekClientHelloSNI 0)
                    (accepted [client_hello; ABC] ["example.com:443"]))) Hr)
    as (_ & Hsent & _).
  - eexists. split; vm_compute; reflexivity.
  - cbn [conn_fd] in Hsent. rewrite Hsent. vm_compute. reflexivity.
Defined.

(** ** The TLS front door turning a client away *)

Section TLSRefusal.

Implicit Types (n : Network) (fd r : N).

Lemma exec_defer {S A : Type} (cleanup : State S unit) (body : State S A) (s : S) :
  exec (defer cleanup body) s = exec cleanup (exec body s).
Proof. unfold defer. rewrite !exec_bind, exec_ret. reflexivity. Qed.

Lemma NewReader_frame fd n :
  same_ends n (exec (Bufio.NewReader fd) n)
  /\ socks (exec (Bufio.NewReader fd) n) = socks n.
Proof. unfold Bufio.NewReader, exec, same_ends. cbn. auto 10. Qed.

Lemma fill_frame r n :
  same_ends n (exec (Bufio.fill r) n)
  /\ (forall fd, sent fd (exec (Bufio.fill r) n) = sent fd n).
Proof.
  unfold Bufio.fill. rewrite exec_bind.
  replace (exec (Bufio.the_reader r) n) with n by reflexivity.
  set (b := eval (Bufio.the_reader r) n). rewrite exec_bind.
  destruct (sock_Read_frame (rd b) (Bufio.defaultBufSize - length (buffered b)) n)
    as (H1 & _ & H3 & _).
  destruct (eval (sock_Read (rd b) (Bufio.defaultBufSize - length (buffered b))) n)
    as [data err].
  match goal with |- context [exec (Bufio.put_reader r ?x) ?m] =>
    destruct (put_reader_frame r x m) as [P1 P2] end.
  split; [exact (same_ends_trans _ _ _ H1 P1) |].
  intros fd. rewrite (sent_socks_eq _ _ P2). apply H3.
Qed.

Lemma peek_fill_frame (rounds k : nat) r n :
  same_ends n (exec (Bufio.peek_fill rounds k r) n)
  /\ (forall fd, sent fd (exec (Bufio.peek_fill rounds k r) n) = sent fd n).
Proof.
  revert n. induction rounds as [| rounds IH]; intros n.
  - cbn [Bufio.peek_fill]. rewrite exec_ret. split; [apply same_ends_refl | auto].
  - rewrite peek_fill_step.
    destruct (Bufio.peek_wants_more k (eval (Bufio.the_reader r) n));
      [| split; [apply same_ends_refl | auto]].
    destruct (fill_frame r n) as [F1 F2].
    destruct (IH (exec (Bufio.fill r) n)) as [I1 I2].
    split; [exact (same_ends_trans _ _ _ F1 I1) |].
    intros fd. rewrite I2. apply F2.
Qed.

Lemma Peek_frame (k : nat) r n :
  same_ends n (exec (Bufio.Peek r k) n)
  /\ (forall fd, sent fd (exec (Bufio.Peek r k) n) = sent fd n).
Proof.
  unfold Bufio.Peek. rewrite !exec_bind.
  destruct (peek_fill_frame k k r n) as [F1 F2].
  set (n1 := exec (Bufio.peek_fill k k r) n) in *.
  replace (exec (Bufio.the_reader r) n1) with n1 by reflexivity.
  destruct (Nat.ltb (length (buffered (eval (Bufio.the_reader r) n1))) k).
  - rewrite exec_bind, exec_ret. destruct (readErr_frame r n1) as [R1 R2].
    split; [exact (same_ends_trans _ _ _ F1 R1) |].
    intros fd. rewrite R2. apply F2.
  - rewrite exec_ret. auto.
Qed.

(** The SNI peek moves pending data into its buffer and does nothing else
    to the network, in any state. *)
Lemma peek_frame fd n :
  same_ends n (exec (peekClientHelloSNI fd) n)
  /\ (forall fd', sent fd' (exec (peekClientHelloSNI fd) n) = sent fd' n).
Proof.
  unfold peekClientHelloSNI. rewrite !exec_bind.
  destruct (NewReader_frame fd n) as [N1 N2].
  set (n0 := exec (Bufio.NewReader fd) n) in *.
  set (r := eval (Bufio.NewReader fd) n).
  destruct (Peek_frame 1024 r n0) as [P1 P2].
  assert (Hend : forall c : State Network (string * option Conn * option error),
             (forall m, exec c m = m) ->
             same_ends n (exec c (exec (Bufio.Peek r 1024) n0))
             /\ (forall fd', sent fd' (exec c (exec (Bufio.Peek r 1024) n0)) = sent fd' n)).
  { intros c Hc. rewrite Hc. split; [exact (same_ends_trans _ _ _ N1 P1) |].
    intros fd'. rewrite P2. apply sent_socks_eq, N2. }
  destruct (eval (Bufio.Peek r 1024) n0) as [data [e |]]; [apply Hend; reflexivity |].
  unfold extractSNIFromTLSClientHello.
  destruct (decide ("example.com" = "")); apply Hend; reflexivity.
Qed.

(** What the peek returns: an error with no name and no connection, or the
    placeholder's name with the wrapped connection. *)
Lemma peek_shape fd n :
  (exists e, eval (peekClientHelloSNI fd) n = ("", None, Some e))
  \/ eval (peekClientHelloSNI fd) n
     = ("example.com", Some (connWithBufferedReader fd (nextReader n)), None).
Proof.
  unfold peekClientHelloSNI. rewrite !eval_bind.
  replace (eval (Bufio.NewReader fd) n) with (nextReader n) by reflexivity.
  destruct (eval (Bufio.Peek (nextReader n) 1024) (exec (Bufio.NewReader fd) n))
    as [data [e |]]; [left; exists e; reflexivity |].
  unfold extractSNIFromTLSClientHello.
  destruct (decide ("example.com" = "")) as [H | _]; [discriminate H |].
  right. reflexivity.
Qed.

(** A client that sends fewer than 1024 bytes before it closes makes the
    peek fail. *)
Lemma peek_short fd n segs :
  open_with n fd segs -> (length (concat segs) < 1024)%nat ->
  exists e, eval (peekClientHelloSNI fd) n = ("", None, Some e).
Proof.
  intros Ho Hshort. destruct (peek_shape fd n) as [H | H]; [exact H | exfalso].
  destruct (NewReader_open n fd segs Ho) as [Hr0 Ho0].
  unfold peekClientHelloSNI in H. rewrite !eval_bind in H.
  set (r := eval (Bufio.NewReader fd) n) in *.
  set (n0 := exec (Bufio.NewReader fd) n) in *.
  destruct (Bufio.Peek r 1024 n0) as [[data err] n1] eqn:Epeek.
  unfold eval at 2 in H. rewrite Epeek in H. cbn [fst] in H.
  destruct err as [e |]; [discriminate H |].
  destruct (Peek_open 1024 n0 r fd segs data n1 Hr0 Ho0 Epeek)
    as (buf' & segs' & _ & _ & Hcat & _ & Hlen).
  apply (f_equal (@length byte)) in Hcat. rewrite length_app in Hcat. lia.
Qed.

Lemma parse_exec fd n : exec (parseClientHelloSNI fd) n = exec (peekClientHelloSNI fd) n.
Proof.
  unfold parseClientHelloSNI. rewrite exec_bind.
  destruct (eval (peekClientHelloSNI fd) n) as [[sni wr] err]. reflexivity.
Qed.

Lemma parse_eval fd n :
  eval (parseClientHelloSNI fd) n
  = match eval (peekClientHelloSNI fd) n with
    | (sni, _, None) => (if decide (sni = "") then false else true, sni)
    | (sni, _, Some _) => (false, sni)
    end.
Proof.
  unfold parseClientHelloSNI. rewrite eval_bind.
  destruct (eval (peekClientHelloSNI fd) n) as [[sni wr] [e |]]; reflexivity.
Qed.

Lemma sock_Close_frame fd n :
  nextFd (exec (sock_Close fd) n) = nextFd n
  /\ origins (exec (sock_Close fd) n) = origins n
  /\ dialed (exec (sock_Close fd) n) = dialed n
  /\ (forall fd', sent fd' (exec (sock_Close fd) n) = sent fd' n).
Proof.
  unfold sock_Close, exec. destruct (socks n !! fd) as [s |] eqn:Es; [| auto].
  destruct (closed s); [auto |]. cbn [snd set_socks nextFd origins dialed].
  repeat split. intros fd'. apply (sent_set_socks n fd s); auto.
Qed.

Lemma is_Some_same_ends n n' fd :
  same_ends n n' -> is_Some (socks n !! fd) -> is_Some (socks n' !! fd).
Proof.
  intros (_ & _ & _ & H) [s Es]. destruct (H fd) as [Hc _]. rewrite Es in Hc.
  destruct (socks n' !! fd); [eauto | discriminate].
Qed.

(** What is left of a TLS handler when it stops after the peek: the peek,
    then the deferred close of the client. *)
Lemma after_peek_only fd (w : World) :
  is_Some (socks (net w) !! fd) ->
  let w' := exec (on_net (Conn.Close (TCPConn fd))) (exec (on_net (peekClientHelloSNI fd)) w) in
  cm w' = cm w /\ metrics w' = metrics w
  /\ dialed (net w') = dialed (net w)
  /\ closed_in (net w') fd
  /\ (forall fd', sent fd' (net w') = sent fd' (net w)).
Proof.
  intros Hk. cbn zeta. rewrite !on_net_cm, !on_net_metrics, !on_net_net, Conn_Close_net.
  cbn [conn_fd].
  destruct (peek_frame fd (net w)) as [P1 P2].
  set (n1 := exec (peekClientHelloSNI fd) (net w)) in *.
  destruct (sock_Close_frame fd n1) as (_ & _ & C3 & C4).
  split; [reflexivity |]. split; [reflexivity |].
  split; [rewrite C3; apply P1 |].
  split; [apply sock_Close_closes; exact (is_Some_same_ends _ _ _ P1 Hk) |].
  intros fd'. rewrite C4. apply P2.
Qed.

(** X16: in both modes, when the client sends fewer than 1024 bytes before
    it closes, or when the filter does not allow the name the placeholder
    parser reports ("example.com"), the TLS front door closes the client
    and does nothing else: it dials nothing, sends no byte to anyone, and
    leaves the registry and the counters as they were. *)
Theorem TLS_front_door_turns_away (tlsTermination : bool) (fd : N)
    (filter : RequestFilter) (haproxyAddress : string) (now : N) (w : World) :
  is_open (net w) fd ->
  (length (payload_fd fd (net w)) < 1024)%nat \/ AllowSNI filter "example.com" = false ->
  cm (exec (serveTLS tlsTermination fd filter haproxyAddress now) w) = cm w
  /\ metrics (exec (serveTLS tlsTermination fd filter haproxyAddress now) w) = metrics w
  /\ dialed (net (exec (serveTLS tlsTermination fd filter haproxyAddress now) w))
     = dialed (net w)
  /\ closed_in (net (exec (serveTLS tlsTermination fd filter haproxyAddress now) w)) fd
  /\ (forall fd', sent fd' (net (exec (serveTLS tlsTermination fd filter haproxyAddress now) w))
                  = sent fd' (net w)).
Proof.
  intros Hopen Hwhy.
  assert (Hk : is_Some (socks (net w) !! fd)) by (destruct Hopen as (s & Es & _); eauto).
  destruct (open_with_is_open _ _ Hopen) as [segs Ho].
  assert (Hcase : (exists e, eval (peekClientHelloSNI fd) (net w) = ("", None, Some e))
                  \/ (eval (peekClientHelloSNI fd) (net w)
                      = ("example.com",
                         Some (connWithBufferedReader fd (nextReader (net w))), None)
                      /\ AllowSNI filter "example.com" = false)).
  { destruct Hwhy as [Hshort | Hdeny].
    - left. apply (peek_short fd (net w) segs Ho).
      rewrite (payload_fd_open _ _ _ Ho) in Hshort. exact Hshort.
    - destruct (peek_shape fd (net w)) as [H | H]; [left; exact H | right; auto]. }
  enough (Hbody : exec (serveTLS tlsTermination fd filter haproxyAddress now) w
                  = exec (on_net (Conn.Close (TCPConn fd)))
                      (exec (on_net (peekClientHelloSNI fd)) w)).
  { rewrite Hbody. apply after_peek_only. exact Hk. }
  destruct tlsTermination; cbn [serveTLS].
  - unfold handleTLSWithTermination. rewrite exec_defer. f_equal.
    rewrite exec_bind, on_net_eval, parse_eval.
    assert (Hnet : exec (on_net (parseClientHelloSNI fd)) w
                   = exec (on_net (peekClientHelloSNI fd)) w).
    { unfold on_net, exec. rewrite (run_pair (parseClientHelloSNI fd) (net w)),
        (run_pair (peekClientHelloSNI fd) (net w)), parse_exec. reflexivity. }
    rewrite Hnet.
    destruct Hcase as [[e ->] | [-> Hdeny]].
    + reflexivity.
    + cbn. rewrite Hdeny. reflexivity.
  - unfold handleTLSPassthrough. rewrite exec_defer. f_equal.
    rewrite exec_bind, on_net_eval.
    destruct Hcase as [[e ->] | [-> Hdeny]].
    + reflexivity.
    + cbn. rewrite Hdeny. reflexivity.
Qed.

End TLSRefusal.

(** ** When the peek succeeds *)

Section PeekEnough.

Implicit Types (n : Network) (fd r : N) (segs : list (list byte)) (buf data : list byte).

Lemma fill_open_more n r fd buf segs :
  reader_with n r fd buf None -> open_with n fd segs ->
  (length buf < Bufio.defaultBufSize)%nat ->
  exists data segs' n',
    Bufio.fill r n = (tt, n')
    /\ reader_with n' r fd (buf ++ data) (eof_if_empty data)
    /\ open_with n' fd segs'
    /\ (data ++ concat segs')%list = concat segs
    /\ (data = [] -> concat segs = []).
Proof.
  intros Hr Ho Hroom. unfold Bufio.fill, bind.
  rewrite (the_reader_with _ _ _ _ _ Hr). cbn [rd buffered rerr].
  destruct (sock_Read_open n fd segs (Bufio.defaultBufSize - length buf) Ho ltac:(lia))
    as (data & segs' & n' & -> & Ho' & _ & Hcat & Hnil).
  destruct (put_reader_with n' r fd segs'
              {| rd := fd; buffered := buf ++ data;
                 rerr := match eof_if_empty data with Some e => Some e | None => None end |}
              Ho') as [Hr'' Ho''].
  exists data, segs'. eexists. rewrite (run_pair (Bufio.put_reader _ _) n').
  split; [reflexivity |]. split; [| split; [exact Ho'' | split; [exact Hcat | exact Hnil]]].
  cbn [rd buffered rerr] in Hr''. destruct (eof_if_empty data); exact Hr''.
Qed.

(** With enough bytes on the way and enough rounds, the loop of [Peek]
    ends with [k] bytes buffered and no error. *)
Lemma peek_fill_enough (rounds k : nat) n r fd buf segs :
  reader_with n r fd buf None -> open_with n fd segs ->
  (k <= length buf + length (concat segs))%nat ->
  (k <= Bufio.defaultBufSize)%nat ->
  (k <= length buf + rounds)%nat ->
  exists buf' segs' n',
    Bufio.peek_fill rounds k r n = (tt, n')
    /\ reader_with n' r fd buf' None
    /\ open_with n' fd segs'
    /\ (buf' ++ concat segs')%list = (buf ++ concat segs)%list
    /\ (k <= length buf')%nat.
Proof.
  revert n buf segs. induction rounds as [| rounds IH]; intros n buf segs Hr Ho Hall Hcap Hrounds.
  - exists buf, segs, n. repeat split; auto. lia.
  - destruct (Nat.lt_ge_cases (length buf) k) as [Hless | Hdone].
    2: { exists buf, segs, n.
         rewrite (peek_fill_stops _ _ _ _ _ (the_reader_with _ _ _ _ _ Hr)).
         - repeat split; auto.
         - unfold Bufio.peek_wants_more. cbn [buffered].
           apply Nat.ltb_ge in Hdone. rewrite Hdone. reflexivity. }
    cbn [Bufio.peek_fill]. unfold bind at 1. rewrite (the_reader_with _ _ _ _ _ Hr).
    assert (Ewant : Bufio.peek_wants_more k {| rd := fd; buffered := buf; rerr := None |} = true).
    { unfold Bufio.peek_wants_more. cbn [buffered rerr].
      assert (H : Nat.ltb (length buf) Bufio.defaultBufSize = true) by (apply Nat.ltb_lt; lia).
      assert (H' : Nat.ltb (length buf) k = true) by (apply Nat.ltb_lt; exact Hless).
      rewrite H, H'. reflexivity. }
    rewrite Ewant.
    destruct (fill_open_more n r fd buf segs Hr Ho ltac:(lia))
      as (data & segs1 & n1 & Efill & Hr1 & Ho1 & Hcat1 & Hnil1).
    unfold bind. rewrite Efill.
    assert (Hdata : (0 < length data)%nat).
    { destruct data; [| cbn; lia]. rewrite (Hnil1 eq_refl) in Hall. cbn in Hall. lia. }
    assert (Eeof : eof_if_empty data = None) by (destruct data; [cbn in Hdata; lia | reflexivity]).
    rewrite Eeof in Hr1.
    assert (Hlen1 : (length (buf ++ data) + length (concat segs1)
                     = length buf + length (concat segs))%nat).
    { apply (f_equal (@length byte)) in Hcat1. rewrite !length_app in *. lia. }
    destruct (IH n1 (buf ++ data)%list segs1 Hr1 Ho1 ltac:(lia) Hcap
                ltac:(rewrite length_app; lia))
      as (buf' & segs' & n' & -> & Hr' & Ho' & Hcat' & Hk).
    exists buf', segs', n'. split; [reflexivity |].
    split; [exact Hr' |]. split; [exact Ho' |]. split; [| exact Hk].
    rewrite Hcat', <- app_assoc, Hcat1. reflexivity.
Qed.

(** A client that delivers at least 1024 bytes gets its connection wrapped:
    the wrapper can be read, and what it has to deliver is all the client
    sent. *)
Lemma peek_long fd n segs :
  open_with n fd segs -> (1024 <= length (concat segs))%nat ->
  eval (peekClientHelloSNI fd) n
  = ("example.com", Some (connWithBufferedReader fd (nextReader n)), None)
  /\ readable (FromConn (connWithBufferedReader fd (nextReader n)))
       (exec (peekClientHelloSNI fd) n)
  /\ payload (FromConn (connWithBufferedReader fd (nextReader n)))
       (exec (peekClientHelloSNI fd) n) = concat segs
  /\ source_fd (FromConn (connWithBufferedReader fd (nextReader n)))
       (exec (peekClientHelloSNI fd) n) = fd
  /\ (exists buf, (1024 <= length buf)%nat
                  /\ (buf ++ payload_fd fd (exec (peekClientHelloSNI fd) n))%list
                     = concat segs).
Proof.
  intros Ho Hlong.
  destruct (NewReader_open n fd segs Ho) as [Hr0 Ho0].
  unfold peekClientHelloSNI, eval, exec, bind.
  rewrite (run_pair (Bufio.NewReader fd) n).
  replace (eval (Bufio.NewReader fd) n) with (nextReader n) in * by reflexivity.
  set (r := nextReader n) in *. set (n0 := exec (Bufio.NewReader fd) n) in *.
  unfold Bufio.Peek, bind.
  destruct (peek_fill_enough 1024 1024 n0 r fd [] segs Hr0 Ho0)
    as (buf' & segs' & n1 & -> & Hr1 & Ho1 & Hcat & Hk);
    [cbn [length]; lia | unfold Bufio.defaultBufSize; lia | cbn [length]; lia |].
  rewrite (the_reader_with _ _ _ _ _ Hr1). cbn [buffered].
  pose proof Hk as Hbuf.
  apply Nat.ltb_ge in Hk. rewrite Hk. cbn [ret].
  unfold extractSNIFromTLSClientHello.
  destruct (decide ("example.com" = "")) as [H | _]; [discriminate H |].
  cbn [ret fst snd]. split; [reflexivity |]. split.
  - split.
    + unfold source_fd. cbn [source_reader]. unfold reader_with in Hr1. rewrite Hr1.
      cbn [rd]. exact (is_open_open_with _ _ _ Ho1).
    + cbn [source_reader]. eexists. split; [exact Hr1 | reflexivity].
  - split.
    + unfold payload. cbn [source_reader]. unfold payload_reader.
      unfold reader_with in Hr1. rewrite Hr1. cbn [buffered rd].
      rewrite (payload_fd_open _ _ _ Ho1). exact Hcat.
    + split.
      * unfold source_fd. cbn [source_reader]. unfold reader_with in Hr1. rewrite Hr1.
        reflexivity.
      * exists buf'. split; [exact Hbuf |].
        rewrite (payload_fd_open _ _ _ Ho1). exact Hcat.
Qed.

End PeekEnough.

(** X15: over an open client socket, [peekClientHelloSNI] returns a wrapped
    connection exactly when the client delivers at least 1024 bytes before
    it closes; with fewer it returns an error, no name and no connection. *)
Theorem peek_needs_1024_bytes (fd : N) (n : Network) :
  is_open n fd ->
  ((1024 <= length (payload_fd fd n))%nat ->
   eval (peekClientHelloSNI fd) n
   = ("example.com", Some (connWithBufferedReader fd (nextReader n)), None))
  /\ ((length (payload_fd fd n) < 1024)%nat ->
      exists e, eval (peekClientHelloSNI fd) n = ("", None, Some e)).
Proof.
  intros Hopen. destruct (open_with_is_open _ _ Hopen) as [segs Ho].
  rewrite (payload_fd_open _ _ _ Ho). split.
  - intros Hlong. apply (peek_long fd n segs Ho Hlong).
  - apply (peek_short fd n segs Ho).
Qed.

Lemma peek_needs_1024_bytes_witness :
  is_open (accepted [client_hello; ABC] []) 0
  /\ ((1024 <= length (payload_fd 0 (accepted [client_hello; ABC] [])))%nat ->
      eval (peekClientHelloSNI 0) (accepted [client_hello; ABC] [])
      = ("example.com",
         Some (connWithBufferedReader 0 (nextReader (accepted [client_hello; ABC] []))),
         None)).
Proof.
  assert (Ho : is_open (accepted [client_hello; ABC] []) 0)
    by (eexists; split; reflexivity).
  split; [exact Ho |].
  apply (peek_needs_1024_bytes 0 (accepted [client_hello; ABC] []) Ho).
Defined.

(** ** Dialling *)

Section Dialling.

Implicit Types (n : Network) (fd : N).

Lemma Dial_fails n (addr : string) :
  origins n !! addr = None ->
  eval (Dial addr) n = inr ErrDial
  /\ socks (exec (Dial addr) n) = socks n
  /\ readers (exec (Dial addr) n) = readers n
  /\ dialed (exec (Dial addr) n) = addr :: dialed n.
Proof. intros H. unfold Dial, eval, exec. rewrite H. cbn. auto. Qed.

Lemma Dial_connects n (addr : string) (script : list (list byte)) :
  origins n !! addr = Some script ->
  eval (Dial addr) n = inl (nextFd n)
  /\ socks (exec (Dial addr) n)
     = <[nextFd n := {| remote := addr; inbound := script; outbound := []; closed := false |}]>
         (socks n)
  /\ readers (exec (Dial addr) n) = readers n
  /\ dialed (exec (Dial addr) n) = addr :: dialed n.
Proof. intros H. unfold Dial, eval, exec. rewrite H. cbn. auto. Qed.

(** Sockets that appear beside the existing ones leave every source as it
    was. *)
Lemma readable_more_sockets (src : Source) n n' :
  (forall fd s, socks n !! fd = Some s -> socks n' !! fd = Some s) ->
  readers n' = readers n ->
  readable src n ->
  readable src n' /\ payload src n' = payload src n
  /\ source_fd src n' = source_fd src n.
Proof.
  intros Hsocks Hreaders [(s & Es & Ec) Hrd].
  assert (Hfd : source_fd src n' = source_fd src n) by (unfold source_fd; rewrite Hreaders; reflexivity).
  split; [| split; [| exact Hfd]].
  - split; [rewrite Hfd; exists s; split; [apply Hsocks; exact Es | exact Ec] |].
    destruct (source_reader src); [rewrite Hreaders; exact Hrd | exact I].
  - unfold payload, payload_reader, payload_fd. rewrite Hreaders.
    unfold source_fd in Es.
    destruct (source_reader src) as [r |] eqn:Er.
    + destruct (readers n !! r) as [b |]; [| reflexivity].
      rewrite (Hsocks _ _ Es), Es. reflexivity.
    + destruct src as [c | r0]; [| discriminate Er || (cbn in Er; discriminate)].
      rewrite (Hsocks _ _ Es), Es. reflexivity.
Qed.

End Dialling.

(** ** The TLS front door with and without an upstream *)

Section TLSUpstream.

Implicit Types (n : Network) (fd : N).

Lemma on_net_exec_eq {A B : Type} (c : State Network A) (c' : State Network B) (w : World) :
  exec c (net w) = exec c' (net w) -> exec (on_net c) w = exec (on_net c') w.
Proof.
  intros H. unfold on_net, exec in *.
  destruct (c (net w)) as [a m], (c' (net w)) as [a' m']. cbn in *. congruence.
Qed.

(** Both handlers, once the peek has succeeded and the filter has agreed,
    continue with the dial. *)
Lemma TLS_reaches_dial (tlsTermination : bool) (fd : N) (filter : RequestFilter)
    (haproxyAddress : string) (now : N) (w : World) :
  eval (peekClientHelloSNI fd) (net w)
  = ("example.com", Some (connWithBufferedReader fd (nextReader (net w))), None) ->
  AllowSNI filter "example.com" = true ->
  origins (net w) !! dial_target tlsTermination haproxyAddress = None ->
  exec (serveTLS tlsTermination fd filter haproxyAddress now) w
  = exec (on_net (Conn.Close (TCPConn fd)))
      (exec (on_net (Dial (dial_target tlsTermination haproxyAddress)))
         (exec (on_net (peekClientHelloSNI fd)) w)).
Proof.
  intros Hpeek Hallow Hnone.
  assert (Horigins : origins (net (exec (on_net (peekClientHelloSNI fd)) w))
                     !! dial_target tlsTermination haproxyAddress = None).
  { rewrite on_net_net. destruct (peek_frame fd (net w)) as [(_ & -> & _) _]. exact Hnone. }
  destruct tlsTermination; cbn [serveTLS dial_target] in *.
  - unfold handleTLSWithTermination. rewrite exec_defer. f_equal.
    rewrite exec_bind, on_net_eval, parse_eval, Hpeek.
    rewrite (on_net_exec_eq (parseClientHelloSNI fd) (peekClientHelloSNI fd) w (parse_exec fd (net w))).
    destruct (decide ("example.com" = "")) as [H | _]; [discriminate H |].
    cbv beta iota. cbn [negb orb]. rewrite Hallow. cbn [negb].
    rewrite exec_bind, on_net_eval.
    rewrite (proj1 (Dial_fails _ _ Horigins)). cbv beta iota. rewrite exec_ret. reflexivity.
  - unfold handleTLSPassthrough. rewrite exec_defer. f_equal.
    rewrite exec_bind, on_net_eval, Hpeek.
    destruct (decide ("example.com" = "")) as [H | _]; [discriminate H |].
    cbv beta iota. rewrite Hallow. cbn [negb].
    rewrite exec_bind, on_net_eval.
    rewrite (proj1 (Dial_fails _ _ Horigins)). cbv beta iota. rewrite exec_ret. reflexivity.
Qed.

(** X17: in both modes, when the peek succeeds and the filter allows the
    name but the dial fails (the fixed back end in termination mode, the
    name with port 443 in passthrough mode), the TLS front door has dialled
    that one address, sent nothing to anyone, closed the client and left
    the registry and the counters as they were. *)
Theorem TLS_front_door_without_upstream (tlsTermination : bool) (fd : N)
    (filter : RequestFilter) (haproxyAddress : string) (now : N) (w : World) :
  is_open (net w) fd ->
  (1024 <= length (payload_fd fd (net w)))%nat ->
  AllowSNI filter "example.com" = true ->
  origins (net w) !! (if tlsTermination then haproxyAddress else "example.com:443") = None ->
  cm (exec (serveTLS tlsTermination fd filter haproxyAddress now) w) = cm w
  /\ metrics (exec (serveTLS tlsTermination fd filter haproxyAddress now) w) = metrics w
  /\ dialed (net (exec (serveTLS tlsTermination fd filter haproxyAddress now) w))
     = (if tlsTermination then haproxyAddress else "example.com:443") :: dialed (net w)
  /\ closed_in (net (exec (serveTLS tlsTermination fd filter haproxyAddress now) w)) fd
  /\ (forall fd', sent fd' (net (exec (serveTLS tlsTermination fd filter haproxyAddress now) w))
                  = sent fd' (net w)).
Proof.
  intros Hopen Hlong Hallow Hnone.
  destruct (open_with_is_open _ _ Hopen) as [segs Ho].
  rewrite (payload_fd_open _ _ _ Ho) in Hlong.
  destruct (peek_long fd (net w) segs Ho Hlong) as (Hpeek & _).
  change (if tlsTermination then haproxyAddress else "example.com:443")
    with (dial_target tlsTermination haproxyAddress) in *.
  rewrite (TLS_reaches_dial tlsTermination fd filter haproxyAddress now w Hpeek Hallow Hnone).
  rewrite !on_net_cm, !on_net_metrics, !on_net_net, Conn_Close_net. cbn [conn_fd].
  destruct (peek_frame fd (net w)) as [P1 P2].
  set (n1 := exec (peekClientHelloSNI fd) (net w)) in *.
  assert (Hnone1 : origins n1 !! dial_target tlsTermination haproxyAddress = None)
    by (destruct P1 as (_ & -> & _); exact Hnone).
  destruct (Dial_fails n1 _ Hnone1) as (_ & D2 & _ & D4).
  set (n2 := exec (Dial (dial_target tlsTermination haproxyAddress)) n1) in *.
  destruct (sock_Close_frame fd n2) as (_ & _ & C3 & C4).
  split; [reflexivity |]. split; [reflexivity |].
  split; [rewrite C3, D4; f_equal; apply P1 |].
  split.
  - apply sock_Close_closes. rewrite D2. apply (is_Some_same_ends _ _ _ P1).
    destruct Hopen as (s & Es & _). eauto.
  - intros fd'. rewrite C4, (sent_socks_eq _ _ D2). apply P2.
Qed.

End TLSUpstream.

(** ** A whole passthrough session *)

Section Session.

Implicit Types (n : Network) (fd : N).

Lemma on_net_id {A : Type} (c : State Network A) (w : World) :
  exec c (net w) = net w -> exec (on_net c) w = w.
Proof.
  intros H. unfold on_net, exec in *. destruct w as [c0 m0 n0 wr0]. cbn in *.
  destruct (c n0) as [a n']. cbn in *. subst n'. reflexivity.
Qed.

Lemma RemoteAddr_exec (c : Conn) (w : World) : exec (on_net (Conn.RemoteAddr c)) w = w.
Proof. apply on_net_id. reflexivity. Qed.

Lemma proxyCopy_exec (dst : Conn) (src : Source) (w : World) :
  exec (proxyCopy dst src) w = exec (on_net (Conn.Copy dst src)) w.
Proof. unfold proxyCopy. rewrite exec_bind, exec_ret. reflexivity. Qed.

Lemma Add_net (client server : Conn) (meta : ConnMeta) (w : World) :
  net (exec (Add client server meta) w) = net w.
Proof. unfold exec. rewrite Add_unfold. reflexivity. Qed.

Lemma Remove_net (id : string) (w : World) : net (exec (Remove id) w) = net w.
Proof.
  unfold exec. destruct (conns (cm w) !! id) as [pc |] eqn:E.
  - rewrite (Remove_unfold_present id pc w E). reflexivity.
  - rewrite Remove_unfold_absent by exact E. reflexivity.
Qed.

(** [Add], then work on the network only, then [Remove] of the id that
    [Add] returned: the registry map and the counters are back where they
    were. *)
Lemma session_registry (client server : Conn) (meta : ConnMeta) (w0 w x : World) :
  cm w = cm w0 -> metrics w = metrics w0 ->
  cm x = cm (exec (Add client server meta) w) ->
  metrics x = metrics (exec (Add client server meta) w) ->
  conns (cm w0) !! next_key w0 = None ->
  int64_metrics (metrics w0) ->
  conns (cm (exec (Remove (eval (Add client server meta) w)) x)) = conns (cm w0)
  /\ metrics (exec (Remove (eval (Add client server meta) w)) x) = metrics w0.
Proof.
  intros Hcm Hm Hxcm Hxm Hfresh Hrange.
  unfold eval, exec in *. rewrite Add_unfold in *. cbn [fst snd cm metrics] in *.
  assert (Hkey : next_key w = next_key w0) by (unfold next_key, next_id; rewrite Hcm; reflexivity).
  rewrite Hkey in *.
  erewrite Remove_unfold_present by (rewrite Hxcm; cbn [conns]; apply lookup_insert_eq).
  cbn [snd cm conns metrics Meta]. rewrite Hxcm, Hxm, Hcm, Hm. cbn [conns]. split.
  - rewrite delete_insert_eq. apply delete_id. exact Hfresh.
  - apply apply_deltas_there_and_back. exact Hrange.
Qed.

(** The two directions of a pump, one after the other: the upstream is
    sent what the source had to deliver, the client what the upstream had. *)
Lemma pump_network (client : Conn) (src : Source) (up : N) n :
  readable src n -> source_fd src n = conn_fd client ->
  is_open n (conn_fd client) -> is_open n up -> up <> conn_fd client ->
  let n' := exec (Conn.Copy client (FromConn (TCPConn up)))
              (exec (Conn.Copy (TCPConn up) src) n) in
  sent up n' = (fun out => (out ++ payload src n)%list) <$> sent up n
  /\ sent (conn_fd client) n'
     = (fun out => (out ++ payload_fd up n)%list) <$> sent (conn_fd client) n
  /\ (forall fd, fd <> up -> fd <> conn_fd client -> sent fd n' = sent fd n)
  /\ same_ends n n'.
Proof.
  intros Hsrc Hsfd Hclient Hup Hne. cbn zeta.
  destruct (Copy_moves (TCPConn up) src n Hsrc Hup)
    as (_ & S1 & O1 & _ & E1 & _ & P1).
  set (n1 := exec (Conn.Copy (TCPConn up) src) n) in *. cbn [conn_fd] in S1, O1.
  assert (Hup1 : is_open n1 up) by exact (is_open_same_ends _ _ _ E1 Hup).
  assert (Hclient1 : is_open n1 (conn_fd client)) by exact (is_open_same_ends _ _ _ E1 Hclient).
  assert (Hraw1 : readable (FromConn (TCPConn up)) n1) by (split; [exact Hup1 | exact I]).
  destruct (Copy_moves client (FromConn (TCPConn up)) n1 Hraw1 Hclient1)
    as (_ & S2 & O2 & _ & E2 & _ & _).
  assert (Hpay : payload (FromConn (TCPConn up)) n1 = payload_fd up n).
  { unfold payload. cbn [source_reader conn_fd]. apply P1. rewrite Hsfd. exact Hne. }
  rewrite Hpay in S2.
  split; [rewrite (O2 up Hne), S1; reflexivity |].
  split; [rewrite S2, (O1 _ (not_eq_sym Hne)); reflexivity |].
  split; [intros fd Hn1 Hn2; rewrite (O2 fd Hn2); apply O1, Hn1 |].
  exact (same_ends_trans _ _ _ E1 E2).
Qed.

(** Closing two sockets, in either order of the source's handlers. *)
Lemma close_pair (a b : N) n :
  is_Some (socks n !! a) -> is_Some (socks n !! b) ->
  let n' := exec (sock_Close a) (exec (sock_Close b) n) in
  closed_in n' a /\ closed_in n' b /\ dialed n' = dialed n
  /\ (forall fd, sent fd n' = sent fd n).
Proof.
  intros Ha Hb. cbn zeta.
  destruct (sock_Close_frame b n) as (_ & _ & C3 & C4).
  destruct (sock_Close_frame a (exec (sock_Close b) n)) as (_ & _ & D3 & D4).
  split; [apply sock_Close_closes; apply sock_Close_keeps; exact Ha |].
  split; [apply sock_Close_keeps; apply sock_Close_closes; exact Hb |].
  split; [rewrite D3, C3; reflexivity |].
  intros fd. rewrite D4, C4. reflexivity.
Qed.

End Session.

(** ** A TLS session, from the handshake to the last byte *)

Section TLSSession.

Implicit Types (n : Network) (fd : N).

Lemma passthrough_unfolds (fd : N) (filter : RequestFilter) (now : N) (w : World)
    (script : list (list byte)) :
  eval (peekClientHelloSNI fd) (net w)
  = ("example.com", Some (connWithBufferedReader fd (nextReader (net w))), None) ->
  AllowSNI filter "example.com" = true ->
  origins (exec (peekClientHelloSNI fd) (net w)) !! "example.com:443" = Some script ->
  exists meta : ConnMeta,
    exec (handleTLSPassthrough fd filter now) w
    = tls_session fd (connWithBufferedReader fd (nextReader (net w))) "example.com:443" meta w.
Proof.
  intros Hpeek Hallow Horigin.
  eexists. unfold tls_session. cbn zeta.
  unfold handleTLSPassthrough. rewrite exec_defer. f_equal.
  rewrite exec_bind, on_net_eval, Hpeek.
  destruct (decide ("example.com" = "")) as [H | _]; [discriminate H |].
  cbv beta iota. rewrite Hallow. cbn [negb].
  rewrite exec_bind, on_net_eval.
  change ("example.com" +:+ ":443") with "example.com:443".
  rewrite on_net_net.
  rewrite (proj1 (Dial_connects _ _ script Horigin)).
  cbv beta iota. rewrite exec_defer. f_equal.
  rewrite exec_bind, RemoteAddr_exec, exec_bind, RemoteAddr_exec.
  rewrite exec_bind, exec_bind, proxyCopy_exec, exec_bind, proxyCopy_exec.
  rewrite !on_net_eval.
  reflexivity.
Qed.

Lemma termination_unfolds (fd : N) (filter : RequestFilter) (haproxyAddress : string)
    (now : N) (w : World) (script : list (list byte)) :
  eval (peekClientHelloSNI fd) (net w)
  = ("example.com", Some (connWithBufferedReader fd (nextReader (net w))), None) ->
  AllowSNI filter "example.com" = true ->
  origins (exec (peekClientHelloSNI fd) (net w)) !! haproxyAddress = Some script ->
  exists meta : ConnMeta,
    exec (handleTLSWithTermination fd filter haproxyAddress now) w
    = tls_session fd (TCPConn fd) haproxyAddress meta w.
Proof.
  intros Hpeek Hallow Horigin.
  eexists. unfold tls_session. cbn zeta.
  unfold handleTLSWithTermination. rewrite exec_defer. f_equal.
  rewrite exec_bind, on_net_eval, parse_eval, Hpeek.
  rewrite (on_net_exec_eq (parseClientHelloSNI fd) (peekClientHelloSNI fd) w
             (parse_exec fd (net w))).
  destruct (decide ("example.com" = "")) as [H | _]; [discriminate H |].
  cbv beta iota. cbn [negb orb]. rewrite Hallow. cbn [negb].
  rewrite exec_bind, on_net_eval.
  rewrite on_net_net.
  rewrite (proj1 (Dial_connects _ _ script Horigin)).
  cbv beta iota. rewrite exec_defer. f_equal.
  rewrite exec_bind, RemoteAddr_exec, exec_bind, RemoteAddr_exec.
  rewrite exec_bind, exec_bind, proxyCopy_exec, exec_bind, proxyCopy_exec.
  rewrite !on_net_eval.
  reflexivity.
Qed.

(** The session, whatever connection the handler goes on with: the
    upstream is sent what that connection still has to deliver. *)
Lemma tls_session_relays (fd : N) (client : Conn) (addr : string) (meta : ConnMeta)
    (w : World) (script : list (list byte)) :
  is_open (net w) fd ->
  conn_fd client = fd ->
  readable (FromConn client) (exec (peekClientHelloSNI fd) (net w)) ->
  source_fd (FromConn client) (exec (peekClientHelloSNI fd) (net w)) = fd ->
  origins (net w) !! addr = Some script ->
  socks (net w) !! nextFd (net w) = None ->
  conns (cm w) !! next_key w = None ->
  int64_metrics (metrics w) ->
  let up := nextFd (net w) in
  let w' := tls_session fd client addr meta w in
  sent up (net w') = Some (payload (FromConn client) (exec (peekClientHelloSNI fd) (net w)))
  /\ sent fd (net w') = (fun out => (out ++ concat script)%list) <$> sent fd (net w)
  /\ (forall fd', fd' <> up -> fd' <> fd -> sent fd' (net w') = sent fd' (net w))
  /\ closed_in (net w') fd /\ closed_in (net w') up
  /\ dialed (net w') = addr :: dialed (net w)
  /\ conns (cm w') = conns (cm w)
  /\ metrics w' = metrics w.
Proof.
  intros Hopen Hcfd Hread Hsfd Horigin Hfresh Hkey Hrange. cbn zeta.
  destruct (peek_frame fd (net w)) as [P1 P2].
  pose proof P1 as (Pfd & Porig & Pdial & Pends).
  assert (Horigin1 : origins (exec (peekClientHelloSNI fd) (net w)) !! addr = Some script)
    by (rewrite Porig; exact Horigin).
  unfold tls_session. cbn zeta.
  set (n1 := exec (peekClientHelloSNI fd) (net w)) in *.
  rewrite Pfd. set (up := nextFd (net w)) in *.
  set (w1 := exec (on_net (peekClientHelloSNI fd)) w).
  set (w2 := exec (on_net (Dial addr)) w1).
  assert (Hn1 : net w1 = n1) by apply on_net_net.
  assert (Hnet2 : net w2 = exec (Dial addr) n1)
    by (unfold w2; rewrite on_net_net, Hn1; reflexivity).
  destruct (Dial_connects n1 _ script Horigin1) as (_ & D2 & D3 & D4).
  rewrite Pfd in D2. fold up in D2.
  set (n2 := exec (Dial addr) n1) in *.
  assert (Hfresh1 : socks n1 !! up = None).
  { destruct (Pends up) as [Hc _]. rewrite Hfresh in Hc.
    destruct (socks n1 !! up); [discriminate Hc | reflexivity]. }
  assert (Hne : up <> fd).
  { intros ->. destruct Hopen as (s & Es & _). rewrite Es in Hfresh. discriminate. }
  assert (Hkeep : forall fd' s, socks n1 !! fd' = Some s -> socks n2 !! fd' = Some s).
  { intros fd' s Es. rewrite D2, lookup_insert_ne; [exact Es |].
    intros <-. rewrite Hfresh1 in Es. discriminate. }
  destruct (readable_more_sockets (FromConn client) n1 n2 Hkeep D3 Hread)
    as (Hread2 & Hpay2 & Hsfd2).
  assert (Hopen2 : is_open n2 fd).
  { destruct (is_open_same_ends _ _ _ P1 Hopen) as (s & Es & Ec).
    exists s. split; [apply Hkeep, Es | exact Ec]. }
  assert (Hup2 : is_open n2 up).
  { eexists. rewrite D2, lookup_insert_eq. split; reflexivity. }
  assert (Hsent_up : sent up n2 = Some []).
  { unfold sent. rewrite D2, lookup_insert_eq. reflexivity. }
  assert (Hpay_up : payload_fd up n2 = concat script).
  { unfold payload_fd. rewrite D2, lookup_insert_eq. reflexivity. }
  assert (Hsent_other : forall fd', fd' <> up -> sent fd' n2 = sent fd' (net w)).
  { intros fd' Hfd'. rewrite <- P2. unfold sent. rewrite D2, lookup_insert_ne by auto.
    reflexivity. }
  assert (Hsfd2' : source_fd (FromConn client) n2 = conn_fd client)
    by (rewrite Hsfd2, Hsfd, Hcfd; reflexivity).
  rewrite <- Hcfd in Hopen2, Hne.
  pose proof (pump_network client (FromConn client) up n2 Hread2 Hsfd2' Hopen2 Hup2 Hne)
    as Hpump.
  cbn zeta in Hpump. rewrite Hcfd in Hpump, Hopen2, Hne.
  destruct Hpump as (S1 & S2 & So & Se).
  set (n4 := exec (Conn.Copy client (FromConn (TCPConn up)))
               (exec (Conn.Copy (TCPConn up) (FromConn client)) n2)) in *.
  assert (Hfd4 : is_Some (socks n4 !! fd)).
  { destruct (is_open_same_ends _ _ _ Se Hopen2) as (s & Es & _). eauto. }
  assert (Hup4 : is_Some (socks n4 !! up)).
  { destruct (is_open_same_ends _ _ _ Se Hup2) as (s & Es & _). eauto. }
  destruct (close_pair fd up n4 Hfd4 Hup4) as (C1 & C2 & Dd & Sc).
  set (wa := exec (Add client (TCPConn up) meta) w2).
  set (wb := exec (on_net (Conn.Copy (TCPConn up) (FromConn client))) wa).
  set (wc := exec (on_net (Conn.Copy client (FromConn (TCPConn up)))) wb).
  assert (Hcm2 : cm w2 = cm w) by (unfold w2, w1; rewrite !on_net_cm; reflexivity).
  assert (Hm2 : metrics w2 = metrics w) by (unfold w2, w1; rewrite !on_net_metrics; reflexivity).
  assert (Hcmc : cm wc = cm wa) by (unfold wc, wb; rewrite !on_net_cm; reflexivity).
  assert (Hmc : metrics wc = metrics wa)
    by (unfold wc, wb; rewrite !on_net_metrics; reflexivity).
  destruct (session_registry client (TCPConn up) meta w w2 wc Hcm2 Hm2 Hcmc Hmc Hkey Hrange)
    as [R1 R2].
  assert (Hnetc : net wc = n4).
  { unfold wc, wb, wa. rewrite !on_net_net, Add_net, Hnet2. reflexivity. }
  rewrite !on_net_net, !on_net_cm, !on_net_metrics, !Conn_Close_net, Remove_net, Hnetc.
  cbn [conn_fd].
  split; [rewrite Sc, S1, Hsent_up, Hpay2; reflexivity |].
  split; [rewrite Sc, S2, Hpay_up, (Hsent_other fd (not_eq_sym Hne)); reflexivity |].
  split; [intros fd' H1 H2; rewrite Sc, (So fd' H1 H2); apply Hsent_other, H1 |].
  split; [exact C1 |]. split; [exact C2 |].
  split; [rewrite Dd; destruct Se as (_ & _ & -> & _); rewrite D4, Pdial; reflexivity |].
  split; [exact R1 | exact R2].
Qed.

End TLSSession.

(** X18: a whole passthrough session.  The client is open and has at least
    1024 bytes to deliver, the filter allows the name the parser reports,
    and an origin answers at that name, port 443.  Then the origin is sent
    exactly the client's bytes, the peeked ones included and in order; the
    client is sent exactly the origin's bytes after what it had been sent;
    no other socket is sent anything; both sockets end closed; that one
    address has been dialled; and the registry map and the counters are
    back where they were.  (The two directions of the pump are run one
    after the other, as in [proxyCopy].) *)
Theorem passthrough_relays_both_ways (fd : N) (filter : RequestFilter) (now : N)
    (w : World) (script : list (list byte)) :
  is_open (net w) fd ->
  (1024 <= length (payload_fd fd (net w)))%nat ->
  AllowSNI filter "example.com" = true ->
  origins (net w) !! "example.com:443" = Some script ->
  socks (net w) !! nextFd (net w) = None ->
  conns (cm w) !! next_key w = None ->
  int64_metrics (metrics w) ->
  let up := nextFd (net w) in
  let w' := exec (handleTLSPassthrough fd filter now) w in
  sent up (net w') = Some (payload_fd fd (net w))
  /\ sent fd (net w') = (fun out => (out ++ concat script)%list) <$> sent fd (net w)
  /\ (forall fd', fd' <> up -> fd' <> fd -> sent fd' (net w') = sent fd' (net w))
  /\ closed_in (net w') fd /\ closed_in (net w') up
  /\ dialed (net w') = "example.com:443" :: dialed (net w)
  /\ conns (cm w') = conns (cm w)
  /\ metrics w' = metrics w.
Proof.
  intros Hopen Hlong Hallow Horigin Hfresh Hkey Hrange. cbn zeta.
  destruct (open_with_is_open _ _ Hopen) as [segs Ho].
  rewrite (payload_fd_open _ _ _ Ho) in *.
  destruct (peek_long fd (net w) segs Ho Hlong) as (Hpeek & Hread & Hpay & Hsfd & _).
  assert (Horigin1 : origins (exec (peekClientHelloSNI fd) (net w)) !! "example.com:443"
                     = Some script).
  { destruct (peek_frame fd (net w)) as [(_ & -> & _) _]. exact Horigin. }
  destruct (passthrough_unfolds fd filter now w script Hpeek Hallow Horigin1)
    as [meta ->].
  rewrite <- Hpay.
  exact (tls_session_relays fd (connWithBufferedReader fd (nextReader (net w)))
           "example.com:443" meta w script Hopen eq_refl Hread Hsfd Horigin Hfresh
           Hkey Hrange).
Qed.

(** X19: a whole session in termination mode, under the same conditions
    with the back end answering.  The handler goes on with the raw socket,
    not with the reader it peeked through, so the back end is sent the
    client's bytes without a first part of at least 1024 bytes: the
    handshake the peek has buffered never reaches it.  The rest is as in
    passthrough mode: the client is sent the back end's bytes, both sockets
    end closed, the back end has been dialled once, and the registry map
    and the counters are back where they were. *)
Theorem termination_loses_the_handshake (fd : N) (filter : RequestFilter)
    (haproxyAddress : string) (now : N) (w : World) (script : list (list byte)) :
  is_open (net w) fd ->
  (1024 <= length (payload_fd fd (net w)))%nat ->
  AllowSNI filter "example.com" = true ->
  origins (net w) !! haproxyAddress = Some script ->
  socks (net w) !! nextFd (net w) = None ->
  conns (cm w) !! next_key w = None ->
  int64_metrics (metrics w) ->
  let up := nextFd (net w) in
  let w' := exec (handleTLSWithTermination fd filter haproxyAddress now) w in
  (exists peeked rest,
      payload_fd fd (net w) = (peeked ++ rest)%list
      /\ (1024 <= length peeked)%nat
      /\ sent up (net w') = Some rest)
  /\ sent fd (net w') = (fun out => (out ++ concat script)%list) <$> sent fd (net w)
  /\ (forall fd', fd' <> up -> fd' <> fd -> sent fd' (net w') = sent fd' (net w))
  /\ closed_in (net w') fd /\ closed_in (net w') up
  /\ dialed (net w') = haproxyAddress :: dialed (net w)
  /\ conns (cm w') = conns (cm w)
  /\ metrics w' = metrics w.
Proof.
  intros Hopen Hlong Hallow Horigin Hfresh Hkey Hrange. cbn zeta.
  destruct (open_with_is_open _ _ Hopen) as [segs Ho].
  rewrite (payload_fd_open _ _ _ Ho) in *.
  destruct (peek_long fd (net w) segs Ho Hlong) as (Hpeek & _ & _ & _ & buf & Hbuf & Hcat).
  destruct (peek_frame fd (net w)) as [P1 _].
  assert (Horigin1 : origins (exec (peekClientHelloSNI fd) (net w)) !! haproxyAddress
                     = Some script).
  { destruct P1 as (_ & -> & _). exact Horigin. }
  destruct (termination_unfolds fd filter haproxyAddress now w script Hpeek Hallow Horigin1)
    as [meta ->].
  assert (Hread : readable (FromConn (TCPConn fd)) (exec (peekClientHelloSNI fd) (net w)))
    by (split; [exact (is_open_same_ends _ _ _ P1 Hopen) | exact I]).
  destruct (tls_session_relays fd (TCPConn fd) haproxyAddress meta w script Hopen eq_refl
              Hread eq_refl Horigin Hfresh Hkey Hrange)
    as (S1 & Rest).
  split; [| exact Rest].
  exists buf, (payload_fd fd (exec (peekClientHelloSNI fd) (net w))).
  split; [symmetry; exact Hcat |]. split; [exact Hbuf | exact S1].
Qed.

Lemma passthrough_relays_both_ways_witness :
  sent 1 (net (exec (handleTLSPassthrough 0 NewRequestFilter 0)
                 (fresh (with_origin "example.com:443" [ABC]
                           (accepted [client_hello; ABC] [])))))
  = Some (client_hello ++ ABC)%list
  /\ sent 0 (net (exec (handleTLSPassthrough 0 NewRequestFilter 0)
                    (fresh (with_origin "example.com:443" [ABC]
                              (accepted [client_hello; ABC] [])))))
     = Some ABC.
Proof.
  destruct (passthrough_relays_both_ways 0 NewRequestFilter 0
              (fresh (with_origin "example.com:443" [ABC] (accepted [client_hello; ABC] [])))
              [ABC])
    as (H1 & H2 & _).
  - eexists. split; reflexivity.
  - apply Nat.leb_le. vm_compute. reflexivity.
  - vm_compute. reflexivity.
  - vm_compute. reflexivity.
  - vm_compute. reflexivity.
  - vm_compute. reflexivity.
  - repeat split; vm_compute; discriminate.
  - split; [exact H1 | exact H2].
Defined.

Lemma TLS_front_door_turns_away_witness :
  is_open (net (fresh (accepted [ABC] []))) 0
  /\ closed_in (net (exec (serveTLS false 0 NewRequestFilter "127.0.0.1:8443" 0)
                       (fresh (accepted [ABC] [])))) 0
  /\ dialed (net (exec (serveTLS false 0 NewRequestFilter "127.0.0.1:8443" 0)
                    (fresh (accepted [ABC] []))))
     = dialed (net (fresh (accepted [ABC] []))).
Proof.
  assert (Ho : is_open (net (fresh (accepted [ABC] []))) 0)
    by (eexists; split; reflexivity).
  split; [exact Ho |].
  destruct (TLS_front_door_turns_away false 0 NewRequestFilter "127.0.0.1:8443" 0
              (fresh (accepted [ABC] [])) Ho)
    as (_ & _ & Hd & Hc & _).
  - left. apply Nat.ltb_lt. vm_compute. reflexivity.
  - split; [exact Hc | exact Hd].
Defined.

Lemma TLS_front_door_without_upstream_witness :
  is_open (net (fresh (accepted [client_hello; ABC] []))) 0
  /\ dialed (net (exec (serveTLS true 0 NewRequestFilter "127.0.0.1:8443" 0)
                    (fresh (accepted [client_hello; ABC] []))))
     = ["127.0.0.1:8443"]
  /\ dialed (net (exec (serveTLS false 0 NewRequestFilter "127.0.0.1:8443" 0)
                    (fresh (accepted [client_hello; ABC] []))))
     = ["example.com:443"].
Proof.
  assert (Ho : is_open (net (fresh (accepted [client_hello; ABC] []))) 0)
    by (eexists; split; reflexivity).
  assert (Hl : (1024 <= length (payload_fd 0 (net (fresh (accepted [client_hello; ABC] [])))))%nat)
    by (apply Nat.leb_le; vm_compute; reflexivity).
  assert (Ha : AllowSNI NewRequestFilter "example.com" = true) by (vm_compute; reflexivity).
  split; [exact Ho |]. split.
  - destruct (TLS_front_door_without_upstream true 0 NewRequestFilter "127.0.0.1:8443" 0
                (fresh (accepted [client_hello; ABC] [])) Ho Hl Ha)
      as (_ & _ & Hd & _); [vm_compute; reflexivity | exact Hd].
  - destruct (TLS_front_door_without_upstream false 0 NewRequestFilter "127.0.0.1:8443" 0
                (fresh (accepted [client_hello; ABC] [])) Ho Hl Ha)
      as (_ & _ & Hd & _); [vm_compute; reflexivity | exact Hd].
Defined.

Lemma termination_loses_the_handshake_witness :
  sent 0 (net (exec (handleTLSWithTermination 0 NewRequestFilter "127.0.0.1:8443" 0)
                 (fresh (with_origin "127.0.0.1:8443" [ABC]
                           (accepted [client_hello; ABC] [])))))
  = Some ABC
  /\ closed_in (net (exec (handleTLSWithTermination 0 NewRequestFilter "127.0.0.1:8443" 0)
                       (fresh (with_origin "127.0.0.1:8443" [ABC]
                                 (accepted [client_hello; ABC] []))))) 1.
Proof.
  destruct (termination_loses_the_handshake 0 NewRequestFilter "127.0.0.1:8443" 0
              (fresh (with_origin "127.0.0.1:8443" [ABC] (accepted [client_hello; ABC] [])))
              [ABC])
    as (_ & H2 & _ & _ & H5 & _).
  - eexists. split; reflexivity.
  - apply Nat.leb_le. vm_compute. reflexivity.
  - vm_compute. reflexivity.
  - vm_compute. reflexivity.
  - vm_compute. reflexivity.
  - vm_compute. reflexivity.
  - repeat split; vm_compute; discriminate.
  - split; [etransitivity; [exact H2 | vm_compute; reflexivity] | exact H5].
Defined.

(** ** closeConnPair *)

Section ClosePair.

Implicit Types (n : Network) (fd : N).

Lemma closeConnPair_present (id : string) (pc : ProxyConnection) (w : World) :
  conns (cm w) !! id = Some pc ->
  exec (closeConnPair id) w
  = exec (Remove id)
      (exec (on_net (Conn.Close (Server pc))) (exec (on_net (Conn.Close (Client pc))) w)).
Proof.
  intros Hpc.
  assert (Heval : eval (conns_Load id) w = Some pc)
    by (unfold conns_Load, eval, bind, get, ret; cbn [fst]; exact Hpc).
  assert (Hexec : exec (conns_Load id) w = w) by reflexivity.
  unfold closeConnPair. rewrite exec_bind, Heval, Hexec, !exec_bind. reflexivity.
Qed.

End ClosePair.

(** X20: [closeConnPair] of a registered id takes the entry out of the
    registry, gives the counters back as [Remove] does, and closes the
    client's and the server's socket; it sends nothing to anyone. *)
Theorem closeConnPair_closes_and_removes (id : string) (pc : ProxyConnection) (w : World) :
  conns (cm w) !! id = Some pc ->
  let w' := exec (closeConnPair id) w in
  conns (cm w') = delete id (conns (cm w))
  /\ metrics w' = apply_deltas (-1) (Meta pc) (metrics w)
  /\ (forall fd, fd = conn_fd (Client pc) \/ fd = conn_fd (Server pc) ->
        is_Some (socks (net w) !! fd) -> closed_in (net w') fd)
  /\ (forall fd, sent fd (net w') = sent fd (net w)).
Proof.
  intros Hpc. cbn zeta. rewrite (closeConnPair_present id pc w Hpc).
  set (w2 := exec (on_net (Conn.Close (Server pc))) (exec (on_net (Conn.Close (Client pc))) w)).
  assert (Hcm : cm w2 = cm w) by (unfold w2; rewrite !on_net_cm; reflexivity).
  assert (Hm : metrics w2 = metrics w) by (unfold w2; rewrite !on_net_metrics; reflexivity).
  assert (Hpc2 : conns (cm w2) !! id = Some pc) by (rewrite Hcm; exact Hpc).
  rewrite Remove_net. unfold exec at 1 2. rewrite (Remove_unfold_present id pc w2 Hpc2).
  cbn [snd cm conns metrics]. rewrite Hcm, Hm.
  split; [reflexivity |]. split; [reflexivity |].
  unfold w2. rewrite !on_net_net, !Conn_Close_net.
  split.
  - intros fd [-> | ->] Hs.
    + apply sock_Close_keeps. apply sock_Close_closes. exact Hs.
    + apply sock_Close_closes. apply sock_Close_keeps. exact Hs.
  - intros fd.
    destruct (sock_Close_frame (conn_fd (Client pc)) (net w)) as (_ & _ & _ & C4).
    destruct (sock_Close_frame (conn_fd (Server pc))
                (exec (sock_Close (conn_fd (Client pc))) (net w))) as (_ & _ & _ & D4).
    rewrite D4, C4. reflexivity.
Qed.

Lemma closeConnPair_closes_and_removes_witness :
  conns (cm (exec (closeConnPair "conn-1")
               (exec (Add (TCPConn 0) (TCPConn 1) http_meta) (fresh (accepted [] [])))))
  = delete "conn-1"
      (conns (cm (exec (Add (TCPConn 0) (TCPConn 1) http_meta) (fresh (accepted [] [])))))
  /\ metrics (exec (closeConnPair "conn-1")
                (exec (Add (TCPConn 0) (TCPConn 1) http_meta) (fresh (accepted [] []))))
     = zero_metrics.
Proof.
  destruct (closeConnPair_closes_and_removes "conn-1"
              {| Client := TCPConn 0; Server := TCPConn 1;
                 Meta := with_ID http_meta "conn-1" |}
              (exec (Add (TCPConn 0) (TCPConn 1) http_meta) (fresh (accepted [] []))))
    as (H1 & H2 & _).
  - vm_compute. reflexivity.
  - split; [exact H1 |]. rewrite H2. vm_compute. reflexivity.
Defined.

(** ** A whole HTTP session *)

Section HTTPSession.

Implicit Types (n : Network) (fd : N).

Lemma is_Hijacker_run (wr : N) (rw : ResponseWriter) (w : World) :
  writers w !! wr = Some rw ->
  eval (is_Hijacker wr) w = w_hijacker rw /\ exec (is_Hijacker wr) w = w.
Proof.
  intros Hw. unfold is_Hijacker, eval, exec, bind, get, ret. cbn [fst snd].
  rewrite Hw. auto.
Qed.

Lemma Hijack_ok (wr : N) (rw : ResponseWriter) (w : World) :
  writers w !! wr = Some rw -> w_hijacked rw = false -> w_hijack_err rw = None ->
  eval (Hijack wr) w = inl (TCPConn (w_conn rw), nextReader (net w))
  /\ cm (exec (Hijack wr) w) = cm w
  /\ metrics (exec (Hijack wr) w) = metrics w
  /\ replies_on wr (exec (Hijack wr) w) = Some (w_replies rw)
  /\ net (exec (Hijack wr) w)
     = exec (Bufio.put_reader (nextReader (net w))
               {| rd := w_conn rw; buffered := w_readahead rw; rerr := None |})
         (exec (Bufio.NewReader (w_conn rw)) (net w)).
Proof.
  intros Hw Hnot Hok.
  unfold Hijack, on_net, Bufio.NewReader, Bufio.put_reader, bind, get, modify, ret,
    eval, exec, replies_on, set_writers, set_readers.
  repeat first [ rewrite Hw | rewrite Hnot | rewrite Hok
               | progress cbn -[lookup insert alter] ].
  rewrite lookup_insert_eq. cbn. auto.
Qed.

(** The network after a hijack: the same sockets, and a reader over the
    client socket that holds what the server had read ahead. *)
Lemma Hijack_net (wr : N) (rw : ResponseWriter) (w : World) :
  writers w !! wr = Some rw -> w_hijacked rw = false -> w_hijack_err rw = None ->
  is_open (net w) (w_conn rw) ->
  let n1 := net (exec (Hijack wr) w) in
  same_ends (net w) n1
  /\ socks n1 = socks (net w)
  /\ readable (FromReader (nextReader (net w))) n1
  /\ source_fd (FromReader (nextReader (net w))) n1 = w_conn rw
  /\ payload (FromReader (nextReader (net w))) n1
     = (w_readahead rw ++ payload_fd (w_conn rw) (net w))%list.
Proof.
  intros Hw Hnot Hok Hopen. cbn zeta.
  destruct (Hijack_ok wr rw w Hw Hnot Hok) as (_ & _ & _ & _ & ->).
  destruct (NewReader_frame (w_conn rw) (net w)) as [E1 S1].
  set (n0 := exec (Bufio.NewReader (w_conn rw)) (net w)) in *.
  destruct (put_reader_frame (nextReader (net w))
              {| rd := w_conn rw; buffered := w_readahead rw; rerr := None |} n0)
    as [E2 S2].
  set (n1 := exec (Bufio.put_reader _ _) n0) in *.
  assert (Hr : readers n1 !! nextReader (net w)
               = Some {| rd := w_conn rw; buffered := w_readahead rw; rerr := None |}).
  { unfold n1, Bufio.put_reader, modify, exec. cbn [snd set_readers readers].
    apply lookup_insert_eq. }
  assert (Hs : socks n1 = socks (net w)) by (rewrite S2, S1; reflexivity).
  assert (He : same_ends (net w) n1) by exact (same_ends_trans _ _ _ E1 E2).
  split; [exact He |]. split; [exact Hs |].
  assert (Hfd : source_fd (FromReader (nextReader (net w))) n1 = w_conn rw).
  { unfold source_fd. cbn [source_reader]. rewrite Hr. reflexivity. }
  split; [| split; [exact Hfd |]].
  - split; [rewrite Hfd; exact (is_open_same_ends _ _ _ He Hopen) |].
    cbn [source_reader]. eexists. split; [exact Hr | reflexivity].
  - unfold payload. cbn [source_reader]. unfold payload_reader. rewrite Hr.
    cbn [buffered rd]. unfold payload_fd. rewrite Hs. reflexivity.
Qed.

(** The handler, for an allowed request on a writer that can be hijacked
    and an upstream that answers, step by step. *)
Lemma Request_Write_eval (r : Request) (out : list byte) (dst : Conn) (body : N)
    (w : World) :
  writes_only r out ->
  eval (Request_Write r dst body) w = eval (Conn.Write dst out) (net w).
Proof.
  intros H. unfold Request_Write. rewrite on_net_eval. unfold eval. rewrite H. reflexivity.
Qed.

Lemma Request_Write_exec (r : Request) (out : list byte) (dst : Conn) (body : N)
    (w : World) :
  writes_only r out ->
  exec (Request_Write r dst body) w = exec (on_net (Conn.Write dst out)) w.
Proof.
  intros H. unfold Request_Write. apply on_net_exec_eq. unfold exec. rewrite H. reflexivity.
Qed.

Lemma http_unfolds (wr : N) (r : Request) (filter : RequestFilter) (now : N) (w : World)
    (rw : ResponseWriter) (script : list (list byte)) (out : list byte) :
  writes_only r out ->
  AllowHTTP filter (Host r) (URL_Path r) = true ->
  writers w !! wr = Some rw ->
  w_hijacker rw = true -> w_hijacked rw = false -> w_hijack_err rw = None ->
  origins (net (exec (Hijack wr) w)) !! (Host r +:+ ":80") = Some script ->
  is_open (exec (Dial (Host r +:+ ":80")) (net (exec (Hijack wr) w)))
    (nextFd (net (exec (Hijack wr) w))) ->
  exists meta : ConnMeta,
    let client := TCPConn (w_conn rw) in
    let up := TCPConn (nextFd (net (exec (Hijack wr) w))) in
    let w2 := exec (on_net (Dial (Host r +:+ ":80"))) (exec (Hijack wr) w) in
    exec (handleHTTPProxy wr r filter now) w
    = exec (closeConnPair (eval (Add client up meta) w2))
        (exec (on_net (Conn.Copy client (FromConn up)))
           (exec (on_net (Conn.Copy up (FromReader (nextReader (net w)))))
              (exec (on_net (Conn.Write up out))
                 (exec (Add client up meta) w2)))).
Proof.
  intros Hout Hallow Hw Hhj Hnot Hok Horigin Hup.
  destruct (is_Hijacker_run wr rw w Hw) as [Hi1 Hi2].
  destruct (Hijack_ok wr rw w Hw Hnot Hok) as (Hh & _).
  eexists. cbn zeta.
  unfold handleHTTPProxy. rewrite Hallow. cbn [negb].
  rewrite exec_bind, Hi1, Hi2, Hhj. cbn [negb].
  rewrite exec_bind, Hh. cbv beta iota.
  rewrite exec_defer. unfold Flush. rewrite exec_ret.
  rewrite exec_bind, on_net_eval.
  rewrite (proj1 (Dial_connects _ _ script Horigin)). cbv beta iota.
  rewrite exec_bind, RemoteAddr_exec, exec_bind, RemoteAddr_exec.
  rewrite exec_bind, exec_bind.
  rewrite (Request_Write_eval r out _ _ _ Hout), (Request_Write_exec r out _ _ _ Hout).
  rewrite Add_net, on_net_net.
  unfold Conn.Write at 1. cbn [conn_fd].
  rewrite (proj1 (sock_Write_frame _ out _ Hup)).
  rewrite exec_bind, proxyCopy_exec, exec_bind, proxyCopy_exec.
  rewrite !on_net_eval.
  reflexivity.
Qed.

Lemma Add_lookup (client server : Conn) (meta : ConnMeta) (w : World) :
  conns (cm (exec (Add client server meta) w)) !! eval (Add client server meta) w
  = Some {| Client := client; Server := server; Meta := with_ID meta (next_key w) |}.
Proof. unfold exec, eval. rewrite Add_unfold. cbn [fst snd cm conns]. apply lookup_insert_eq. Qed.

Lemma Add_writers (client server : Conn) (meta : ConnMeta) (w : World) :
  writers (exec (Add client server meta) w) = writers w.
Proof. unfold exec. rewrite Add_unfold. reflexivity. Qed.

Lemma Remove_writers (id : string) (w : World) : writers (exec (Remove id) w) = writers w.
Proof.
  unfold exec. destruct (conns (cm w) !! id) as [pc |] eqn:E.
  - rewrite (Remove_unfold_present id pc w E). reflexivity.
  - rewrite Remove_unfold_absent by exact E. reflexivity.
Qed.

End HTTPSession.

(** X21: a whole HTTP session for a request without a body.  The request
    is allowed, the response writer can be hijacked, the client socket is
    open, an origin answers at the request's host, port 80, and [r.Write]
    sends the bytes [req] (whatever the library's serialiser makes of the
    request) and reads nothing.  Then the origin is sent [req], then what
    the server had read ahead, then everything else the client delivers;
    the client is sent exactly the origin's bytes; no other socket is sent
    anything; both sockets end closed; that one address has been dialled;
    the registry map and the counters are back where they were; and no
    reply has gone through the response writer. *)
Theorem http_relays_both_ways (wr : N) (r : Request) (filter : RequestFilter) (now : N)
    (w : World) (rw : ResponseWriter) (script : list (list byte)) (req : list byte) :
  writes_only r req ->
  AllowHTTP filter (Host r) (URL_Path r) = true ->
  writers w !! wr = Some rw ->
  w_hijacker rw = true -> w_hijacked rw = false -> w_hijack_err rw = None ->
  is_open (net w) (w_conn rw) ->
  origins (net w) !! (Host r +:+ ":80") = Some script ->
  socks (net w) !! nextFd (net w) = None ->
  conns (cm w) !! next_key w = None ->
  int64_metrics (metrics w) ->
  let fd := w_conn rw in
  let up := nextFd (net w) in
  let w' := exec (handleHTTPProxy wr r filter now) w in
  sent up (net w') = Some (req ++ w_readahead rw ++ payload_fd fd (net w))%list
  /\ sent fd (net w') = (fun out => (out ++ concat script)%list) <$> sent fd (net w)
  /\ (forall fd', fd' <> up -> fd' <> fd -> sent fd' (net w') = sent fd' (net w))
  /\ closed_in (net w') fd /\ closed_in (net w') up
  /\ dialed (net w') = (Host r +:+ ":80") :: dialed (net w)
  /\ conns (cm w') = conns (cm w)
  /\ metrics w' = metrics w
  /\ replies_on wr w' = Some (w_replies rw).
Proof.
  intros Hreq Hallow Hw Hhj Hnot Hok Hopen Horigin Hfresh Hkey Hrange. cbn zeta.
  destruct (Hijack_ok wr rw w Hw Hnot Hok) as (_ & Hcm1 & Hm1 & Hrep1 & _).
  destruct (Hijack_net wr rw w Hw Hnot Hok Hopen) as (E1 & S1 & Hread1 & Hsfd1 & Hpay1).
  cbn zeta in *.
  pose proof E1 as (Pfd & Porig & Pdial & _).
  set (w1 := exec (Hijack wr) w) in *. set (n1 := net w1) in *.
  set (addr := Host r +:+ ":80") in *.
  assert (Horigin1 : origins n1 !! addr = Some script) by (rewrite Porig; exact Horigin).
  destruct (Dial_connects n1 addr script Horigin1) as (_ & D2 & D3 & D4).
  set (n2 := exec (Dial addr) n1) in *.
  assert (Hfresh1 : socks n1 !! nextFd n1 = None) by (rewrite S1, Pfd; exact Hfresh).
  assert (Hup2 : is_open n2 (nextFd n1)).
  { eexists. rewrite D2, lookup_insert_eq. split; reflexivity. }
  destruct (http_unfolds wr r filter now w rw script req Hreq Hallow Hw Hhj Hnot Hok
              Horigin1 Hup2)
    as [meta Hrun].
  cbn zeta in Hrun. fold w1 n1 addr in Hrun. rewrite Hrun. clear Hrun.
  rewrite Pfd in *. set (up := nextFd (net w)) in *. set (fd := w_conn rw) in *.
  assert (Hne : up <> fd).
  { intros E. destruct Hopen as (s & Es & _). rewrite <- E in Es.
    rewrite Hfresh in Es. discriminate. }
  assert (Hkeep : forall fd' s, socks n1 !! fd' = Some s -> socks n2 !! fd' = Some s).
  { intros fd' s Es. rewrite D2, lookup_insert_ne; [exact Es |].
    intros <-. rewrite Hfresh1 in Es. discriminate. }
  destruct (readable_more_sockets (FromReader (nextReader (net w))) n1 n2 Hkeep D3 Hread1)
    as (Hread2 & Hpay2 & Hsfd2).
  assert (Hopen2 : is_open n2 fd).
  { destruct (is_open_same_ends _ _ _ E1 Hopen) as (s & Es & Ec).
    exists s. split; [apply Hkeep, Es | exact Ec]. }
  assert (Hsent_up : sent up n2 = Some []).
  { unfold sent. rewrite D2, lookup_insert_eq. reflexivity. }
  assert (Hpay_up : payload_fd up n2 = concat script).
  { unfold payload_fd. rewrite D2, lookup_insert_eq. reflexivity. }
  assert (Hsent_other : forall fd', fd' <> up -> sent fd' n2 = sent fd' (net w)).
  { intros fd' Hfd'. unfold sent. rewrite D2, lookup_insert_ne by auto. rewrite S1.
    reflexivity. }
  (* the request goes out *)
  destruct (sock_Write_frame up req n2 Hup2) as (_ & E3 & _ & W1 & W2 & W3).
  destruct (Write_keeps_source (FromReader (nextReader (net w))) (TCPConn up) req n2
              Hup2 Hread2) as (Hread3 & Hpay3 & Hsfd3).
  unfold Conn.Write in Hread3, Hpay3, Hsfd3. cbn [conn_fd] in Hread3, Hpay3, Hsfd3.
  set (n3 := exec (sock_Write up req) n2) in *.
  assert (Hopen3 : is_open n3 fd) by exact (is_open_same_ends _ _ _ E3 Hopen2).
  assert (Hup3 : is_open n3 up) by exact (is_open_same_ends _ _ _ E3 Hup2).
  (* the pump *)
  pose proof (pump_network (TCPConn fd) (FromReader (nextReader (net w))) up n3 Hread3
                (eq_trans Hsfd3 (eq_trans Hsfd2 Hsfd1)) Hopen3 Hup3 Hne) as Hpump.
  cbn zeta in Hpump. cbn [conn_fd] in Hpump.
  destruct Hpump as (P1 & P2 & Po & E4).
  set (n4 := exec (Conn.Copy (TCPConn fd) (FromConn (TCPConn up)))
               (exec (Conn.Copy (TCPConn up) (FromReader (nextReader (net w)))) n3)) in *.
  assert (Hfd4 : is_Some (socks n4 !! fd)).
  { destruct (is_open_same_ends _ _ _ E4 Hopen3) as (s & Es & _). eauto. }
  assert (Hup4 : is_Some (socks n4 !! up)).
  { destruct (is_open_same_ends _ _ _ E4 Hup3) as (s & Es & _). eauto. }
  destruct (close_pair up fd n4 Hup4 Hfd4) as (C1 & C2 & Dd & Sc).
  (* the process around the network *)
  set (w2 := exec (on_net (Dial addr)) w1).
  set (wa := exec (Add (TCPConn fd) (TCPConn up) meta) w2).
  set (wd := exec (on_net (Conn.Copy (TCPConn fd) (FromConn (TCPConn up))))
               (exec (on_net (Conn.Copy (TCPConn up) (FromReader (nextReader (net w)))))
                  (exec (on_net (Conn.Write (TCPConn up) req)) wa))).
  assert (Hcmd : cm wd = cm wa) by (unfold wd; rewrite !on_net_cm; reflexivity).
  assert (Hmd : metrics wd = metrics wa) by (unfold wd; rewrite !on_net_metrics; reflexivity).
  assert (Hnetd : net wd = n4).
  { unfold wd, wa. rewrite !on_net_net, Add_net. unfold w2. rewrite on_net_net.
    reflexivity. }
  assert (Hwd : writers wd = writers w1).
  { unfold wd, wa. rewrite !on_net_writers, Add_writers. unfold w2.
    rewrite on_net_writers. reflexivity. }
  set (id := eval (Add (TCPConn fd) (TCPConn up) meta) w2).
  assert (Hpc : conns (cm wd) !! id
                = Some {| Client := TCPConn fd; Server := TCPConn up;
                          Meta := with_ID meta (next_key w2) |}).
  { rewrite Hcmd. apply Add_lookup. }
  rewrite (closeConnPair_present id _ wd Hpc). cbn [Client Server].
  set (x := exec (on_net (Conn.Close (TCPConn up)))
              (exec (on_net (Conn.Close (TCPConn fd))) wd)).
  assert (Hcm2 : cm w2 = cm w) by (unfold w2; rewrite on_net_cm; exact Hcm1).
  assert (Hm2 : metrics w2 = metrics w) by (unfold w2; rewrite on_net_metrics; exact Hm1).
  assert (Hcmx : cm x = cm wa) by (unfold x; rewrite !on_net_cm; exact Hcmd).
  assert (Hmx : metrics x = metrics wa) by (unfold x; rewrite !on_net_metrics; exact Hmd).
  destruct (session_registry (TCPConn fd) (TCPConn up) meta w w2 x Hcm2 Hm2 Hcmx Hmx
              Hkey Hrange) as [R1 R2].
  fold wa id in R1, R2.
  assert (Hnetx : net x = exec (sock_Close up) (exec (sock_Close fd) n4)).
  { unfold x. rewrite !on_net_net, !Conn_Close_net, Hnetd. reflexivity. }
  rewrite Remove_net, Hnetx.
  split; [rewrite Sc, P1, W1, Hsent_up, Hpay3, Hpay2, Hpay1; reflexivity |].
  split.
  { rewrite Sc, P2, (W2 fd (not_eq_sym Hne)), (Hsent_other fd (not_eq_sym Hne)), W3, Hpay_up.
    reflexivity. }
  split.
  { intros fd' H1 H2. rewrite Sc, (Po fd' H1 H2), (W2 fd' H1). apply Hsent_other, H1. }
  split; [exact C2 |]. split; [exact C1 |].
  split.
  { rewrite Dd. destruct E4 as (_ & _ & -> & _). destruct E3 as (_ & _ & -> & _).
    rewrite D4, Pdial. reflexivity. }
  split; [exact R1 |]. split; [exact R2 |].
  unfold replies_on. rewrite Remove_writers. unfold x. rewrite !on_net_writers, Hwd.
  exact Hrep1.
Qed.

Lemma http_relays_both_ways_witness :
  sent 1 (net (exec (handleHTTPProxy 0 (get_request "example.com") NewRequestFilter 0)
                 (serving_on server_writer
                 (with_origin "example.com:80" [ABC] (accepted [ABC] [])))))
  = Some (list_byte_of_string
            ("GET / HTTP/1.1" +:+ CRLF +:+ "Host: example.com" +:+ CRLF
             +:+ "User-Agent: Go-http-client/1.1" +:+ CRLF +:+ CRLF) ++ ABC)%list
  /\ sent 0 (net (exec (handleHTTPProxy 0 (get_request "example.com") NewRequestFilter 0)
                    (serving_on server_writer
                 (with_origin "example.com:80" [ABC] (accepted [ABC] [])))))
     = Some ABC.
Proof.
  destruct (http_relays_both_ways 0 (get_request "example.com") NewRequestFilter 0
              (serving_on server_writer
                 (with_origin "example.com:80" [ABC] (accepted [ABC] [])))
              server_writer [ABC]
              (list_byte_of_string
                 ("GET / HTTP/1.1" +:+ CRLF +:+ "Host: example.com" +:+ CRLF
                  +:+ "User-Agent: Go-http-client/1.1" +:+ CRLF +:+ CRLF)))
    as (H1 & H2 & _).
  - intros dst body n. reflexivity.
  - vm_compute. reflexivity.
  - vm_compute. reflexivity.
  - reflexivity.
  - reflexivity.
  - reflexivity.
  - eexists. split; vm_compute; reflexivity.
  - vm_compute. reflexivity.
  - vm_compute. reflexivity.
  - vm_compute. reflexivity.
  - repeat split; vm_compute; discriminate.
  - split; (etransitivity; [first [exact H1 | exact H2] | vm_compute; reflexivity]).
Defined.

(** ** The HTTP front door without an upstream, and without a hijacker *)

(** X22: the request is allowed and the connection is hijacked, but nothing
    answers at the request's host, port 80.  The handler has dialled that
    one address and closed the client's socket; the 502 it writes goes
    through the response writer of a hijacked connection, so no reply
    reaches the client and no byte is written to any socket; the registry
    and the counters are as before. *)
Theorem http_front_door_without_upstream (wr : N) (r : Request) (filter : RequestFilter)
    (now : N) (w : World) (rw : ResponseWriter) :
  AllowHTTP filter (Host r) (URL_Path r) = true ->
  writers w !! wr = Some rw ->
  w_hijacker rw = true -> w_hijacked rw = false -> w_hijack_err rw = None ->
  is_Some (socks (net w) !! w_conn rw) ->
  origins (net w) !! (Host r +:+ ":80") = None ->
  let w' := exec (handleHTTPProxy wr r filter now) w in
  replies_on wr w' = Some (w_replies rw)
  /\ dialed (net w') = (Host r +:+ ":80") :: dialed (net w)
  /\ closed_in (net w') (w_conn rw)
  /\ (forall fd, sent fd (net w') = sent fd (net w))
  /\ cm w' = cm w /\ metrics w' = metrics w.
Proof.
  intros Hallow Hw Hhj Hnot Hok [sk Hsk] Hdial. cbn zeta.
  unfold handleHTTPProxy. rewrite Hallow. cbn [negb].
  unfold is_Hijacker, Hijack, defer, Flush, http_Error, on_net, Bufio.NewReader,
    Bufio.put_reader, Dial, Conn.Close, sock_Close, bind, get, modify, ret, exec,
    replies_on, set_writers, set_readers, closed_in, sent.
  repeat first [ rewrite Hw | rewrite Hhj | rewrite Hnot | rewrite Hok | rewrite Hdial
               | rewrite Hsk | progress cbn -[lookup insert alter] ].
  destruct (closed sk) eqn:Ec; cbn -[lookup insert alter];
    rewrite lookup_alter_eq, lookup_insert_eq; cbn -[lookup insert alter].
  - repeat split; eauto.
  - repeat split; auto.
    + rewrite lookup_insert_eq. eauto.
    + intros fd. destruct (decide (fd = w_conn rw)) as [-> | Hne].
      * rewrite lookup_insert_eq, Hsk. reflexivity.
      * rewrite lookup_insert_ne by congruence. reflexivity.
Qed.

Lemma http_front_door_without_upstream_witness :
  replies_on 0 (exec (handleHTTPProxy 0 (get_request "example.com") NewRequestFilter 0)
                  (serving [])) = Some []
  /\ closed_in (net (exec (handleHTTPProxy 0 (get_request "example.com") NewRequestFilter 0)
                       (serving []))) 0.
Proof.
  destruct (http_front_door_without_upstream 0 (get_request "example.com") NewRequestFilter 0
              (serving []) server_writer)
    as (H1 & _ & H3 & _).
  - vm_compute. reflexivity.
  - vm_compute. reflexivity.
  - reflexivity.
  - reflexivity.
  - reflexivity.
  - eexists. vm_compute. reflexivity.
  - vm_compute. reflexivity.
  - split; [exact H1 | exact H3].
Defined.

(** X23: the request is allowed but the response writer is no
    [http.Hijacker].  The handler replies 500 with the text "Hijacking not
    supported" and does nothing else: no dial, no socket touched, the
    registry and the counters as before. *)
Theorem http_front_door_without_hijacker (wr : N) (r : Request) (filter : RequestFilter)
    (now : N) (w : World) (rw : ResponseWriter) :
  AllowHTTP filter (Host r) (URL_Path r) = true ->
  writers w !! wr = Some rw ->
  w_hijacker rw = false -> w_hijacked rw = false ->
  let w' := exec (handleHTTPProxy wr r filter now) w in
  replies_on wr w'
  = Some (w_replies rw ++ [(StatusInternalServerError, "Hijacking not supported")])%list
  /\ net w' = net w /\ cm w' = cm w /\ metrics w' = metrics w.
Proof.
  intros Hallow Hw Hhj Hnot. cbn zeta.
  unfold handleHTTPProxy. rewrite Hallow. cbn [negb].
  unfold is_Hijacker, http_Error, bind, get, modify, ret, exec, replies_on, set_writers.
  cbn -[lookup insert alter]. rewrite Hw, Hhj. cbn -[lookup insert alter].
  rewrite lookup_alter_eq, Hw. cbn. rewrite Hnot. auto.
Qed.

Lemma http_front_door_without_hijacker_witness :
  replies_on 0 (exec (handleHTTPProxy 0 (get_request "example.com") NewRequestFilter 0)
                  (serving_on plain_writer (accepted [] [])))
  = Some [(500%Z, "Hijacking not supported")].
Proof.
  refine (proj1 (http_front_door_without_hijacker 0 (get_request "example.com")
                   NewRequestFilter 0 (serving_on plain_writer (accepted [] []))
                   plain_writer _ _ _ _)).
  - vm_compute. reflexivity.
  - vm_compute. reflexivity.
  - reflexivity.
  - reflexivity.
Defined.

(** ** The file watcher *)

Section FileWatcher.





End FileWatcher.

